(** * error-detective/scripts/debug_helper.py: stack-trace scanners and log analyzer

    A shallow embedding of [StackTraceParser] and [LogAnalyzer].

    Text is a Python [str].  It is modelled as a Rocq [string] whose
    characters are the code points 0..255; the character classes below are
    the ones of Python's Unicode-aware [re] and [str] methods restricted to
    that range.  [int] is the conversion of a decimal string under the
    interpreter's default limit of 4300 digits ([sys.int_max_str_digits]),
    above which it raises [ValueError]; the program never changes that
    limit.  Memory limits are outside the model. *)

From Stdlib Require Import Ascii String List ZArith Bool Lia.
From stdpp Require Import base option list strings gmap fin_maps.
From Equations Require Import Equations.

Local Open Scope string_scope.
Local Open Scope list_scope.

(** ** Characters and character classes *)

Module Chars.

Definition code (c : ascii) : nat := nat_of_ascii c.

Definition between (lo hi : nat) (c : ascii) : bool :=
  (lo <=? code c)%nat && (code c <=? hi)%nat.

Definition LF : ascii := "010"%char.
Definition TAB : ascii := "009"%char.
Definition DQUOTE : ascii := "034"%char.

(** [\d]: the decimal digits below 256 are the ASCII ones. *)
Definition is_digit (c : ascii) : bool := between 48 57 c.

Definition is_upper (c : ascii) : bool := between 65 90 c.
Definition is_lower (c : ascii) : bool := between 97 122 c.

(** [\s] and [str.isspace]: TAB..CR, FS..US, space, NEL, NBSP. *)
Definition is_space (c : ascii) : bool :=
  between 9 13 c || between 28 32 c || (code c =? 133)%nat || (code c =? 160)%nat.

(** [\w]: alphanumerics and underscore; above 127 these are the Latin-1
    letters, the superscript digits and the vulgar fractions. *)
Definition is_word (c : ascii) : bool :=
  is_digit c || is_upper c || is_lower c || (code c =? 95)%nat
  || (code c =? 170)%nat || between 178 179 c || (code c =? 181)%nat
  || between 185 186 c || between 188 190 c
  || between 192 214 c || between 216 246 c || between 248 255 c.

(** Case folding used by [re.IGNORECASE] on ASCII letters. *)
Definition lower (c : ascii) : ascii :=
  if is_upper c then ascii_of_nat (code c + 32) else c.

Definition eqc (a b : ascii) : bool := (code a =? code b)%nat.

Lemma eqc_spec a b : eqc a b = true <-> a = b.
Proof.
  unfold eqc, code. rewrite Nat.eqb_eq. split; [|congruence].
  intros H. rewrite <- (ascii_nat_embedding a), <- (ascii_nat_embedding b).
  congruence.
Qed.

End Chars.
Import Chars.

(** ** A backtracking matcher for the fragment of [re] the script uses *)

Module Re.

(** Character sets as they are written between brackets or as escapes. *)
Inductive cset :=
| Dot                       (* .     any character but a newline *)
| Digit                     (* \d *)
| Space                     (* \s *)
| Word                      (* \w *)
| Only (c : ascii)          (* a literal character inside brackets *)
| Union (a b : cset)        (* [ab] *)
| Not (a : cset).           (* [^a] *)

Fixpoint mem (cs : cset) (c : ascii) : bool :=
  match cs with
  | Dot => negb (eqc c LF)
  | Digit => is_digit c
  | Space => is_space c
  | Word => is_word c
  | Only x => eqc c x
  | Union a b => mem a c || mem b c
  | Not a => negb (mem a c)
  end.

(** Repetition is only ever applied to a character set in the script's
    patterns, so [Plus], [Star] carry a set; [Opt] is the greedy [?]. *)
Inductive regex :=
| Eps
| Bol                       (* ^ *)
| Wordb                     (* \b *)
| Chr (c : ascii)
| Cls (cs : cset)
| Cat (r1 r2 : regex)
| Alt (r1 r2 : regex)
| Opt (r : regex)
| Plus (cs : cset)
| Star (cs : cset)
| Grp (n : nat) (r : regex).

(** Matcher state: the character before the cursor ([None] at the start
    of the string), the text after the cursor and the groups captured. *)
Record mstate := MState {
  prev : option ascii;
  rest : list ascii;
  caps : list (nat * list ascii)
}.

Definition word_at (o : option ascii) : bool :=
  match o with Some c => is_word c | None => false end.

Definition step1 (ok : ascii -> bool) (s : mstate) : list mstate :=
  match rest s with
  | c :: r => if ok c then [MState (Some c) r (caps s)] else []
  | [] => []
  end.

(** All ways a greedy [cs*] can stop, longest first. *)
Fixpoint greedy (cs : cset) (p : option ascii) (r : list ascii)
    (g : list (nat * list ascii)) : list mstate :=
  match r with
  | c :: r' => if mem cs c then greedy cs (Some c) r' g ++ [MState p r g]
               else [MState p r g]
  | [] => [MState p r g]
  end.

(** The text between two cursor positions of the same string. *)
Definition consumed (s s' : mstate) : list ascii :=
  take (length (rest s) - length (rest s')) (rest s).

Definition set_cap (n : nat) (s s' : mstate) : mstate :=
  MState (prev s') (rest s') ((n, consumed s s') :: caps s').

Definition chr_ok (ic : bool) (c x : ascii) : bool :=
  if ic then eqc (lower x) (lower c) else eqc x c.

(** [run ic r s]: every state in which [r] can finish from [s], in the
    order a backtracking engine tries them; [ic] is [re.IGNORECASE]. *)
Fixpoint run (ic : bool) (r : regex) (s : mstate) : list mstate :=
  match r with
  | Eps => [s]
  | Bol => match prev s with None => [s] | Some _ => [] end
  | Wordb => if xorb (word_at (prev s)) (word_at (head (rest s))) then [s] else []
  | Chr c => step1 (chr_ok ic c) s
  | Cls cs => step1 (mem cs) s
  | Cat r1 r2 => flat_map (run ic r2) (run ic r1 s)
  | Alt r1 r2 => run ic r1 s ++ run ic r2 s
  | Opt r1 => run ic r1 s ++ [s]
  | Plus cs => flat_map (fun s1 => greedy cs (prev s1) (rest s1) (caps s1))
                        (step1 (mem cs) s)
  | Star cs => greedy cs (prev s) (rest s) (caps s)
  | Grp n r1 => map (set_cap n s) (run ic r1 s)
  end.

(** A match object: the matched text and the groups. *)
Record Match := MkMatch {
  whole : string;
  groups : list (nat * list ascii)
}.

Definition lookup_cap (n : nat) (g : list (nat * list ascii)) : option (list ascii) :=
  snd <$> List.find (fun p => (fst p =? n)%nat) g.

(** [m.group(n)], with the empty string for a group that took no part. *)
Definition group (m : Match) (n : nat) : string :=
  match lookup_cap n (groups m) with
  | Some w => string_of_list_ascii w
  | None => ""
  end.

Definition match_from (ic : bool) (r : regex) (p : option ascii) (t : list ascii)
    : option Match :=
  let s := MState p t [] in
  (fun s' => MkMatch (string_of_list_ascii (consumed s s')) (caps s')) <$> head (run ic r s).

(** [re.match(r, line)] *)
Definition re_match (ic : bool) (r : regex) (line : string) : option Match :=
  match_from ic r None (list_ascii_of_string line).

Fixpoint search_from (ic : bool) (r : regex) (p : option ascii) (t : list ascii)
    : option Match :=
  match match_from ic r p t with
  | Some m => Some m
  | None => match t with
            | c :: t' => search_from ic r (Some c) t'
            | [] => None
            end
  end.

(** [re.search(r, line)] *)
Definition re_search (ic : bool) (r : regex) (line : string) : option Match :=
  search_from ic r None (list_ascii_of_string line).

(** [re.sub(r, '', line)]: delete every non-overlapping match, scanning
    left to right.  [skip] counts the characters of the current match that
    are still to be dropped. *)
Fixpoint delete_from (ic : bool) (r : regex) (p : option ascii) (t : list ascii)
    (skip : nat) : list ascii :=
  match t with
  | [] => []
  | c :: t' =>
      match skip with
      | S k => delete_from ic r (Some c) t' k
      | O =>
          match String.length <$> (whole <$> match_from ic r p t) with
          | Some (S k) => delete_from ic r (Some c) t' k
          | _ => c :: delete_from ic r (Some c) t' 0
          end
      end
  end.

Definition re_delete (ic : bool) (r : regex) (line : string) : string :=
  string_of_list_ascii (delete_from ic r None (list_ascii_of_string line) 0).

(** Pattern syntax. *)
Definition lit (w : string) : regex :=
  fold_right (fun c r => Cat (Chr c) r) Eps (list_ascii_of_string w).

Fixpoint times (n : nat) (cs : cset) : regex :=
  match n with O => Eps | S k => Cat (Cls cs) (times k cs) end.

Fixpoint sequence (rs : list regex) : regex :=
  match rs with
  | [] => Eps
  | [r] => r
  | r :: rs' => Cat r (sequence rs')
  end.

End Re.
Import Re.

(** ** Python built-ins used by the script *)

Module Py.

Inductive exn := ValueError.

(** A computation that returns a value or raises. *)
Inductive result (A : Type) :=
| Ok (a : A)
| Raise (e : exn).
Arguments Ok {A} a.
Arguments Raise {A} e.

Definition bind {A B} (x : result A) (f : A -> result B) : result B :=
  match x with Ok a => f a | Raise e => Raise e end.

Definition digit_val (c : ascii) : Z := Z.of_nat (code c - 48).

Definition digits_val (w : list ascii) : Z :=
  fold_left (fun acc c => (10 * acc + digit_val c)%Z) w 0%Z.

(** The default of [sys.int_max_str_digits]. *)
Definition int_max_str_digits : nat := 4300.

(** [int(s)] for the strings that reach it, which are [\d+] groups: a
    non-empty run of decimal digits.  (Python's [int] also accepts signs,
    underscores and surrounding blanks; none can occur in such a group.)
    A run of more than [int_max_str_digits] digits, leading zeros
    included, raises [ValueError]. *)
Definition int (s : string) : result Z :=
  let w := list_ascii_of_string s in
  if negb (Nat.eqb (length w) 0) && forallb is_digit w
     && (length w <=? int_max_str_digits)%nat
  then Ok (digits_val w) else Raise ValueError.

Definition is_ok {A} (r : result A) : bool :=
  match r with Ok _ => true | Raise _ => false end.

Fixpoint lstrip_list (p : ascii -> bool) (w : list ascii) : list ascii :=
  match w with
  | c :: w' => if p c then lstrip_list p w' else w
  | [] => []
  end.

Definition strip_list (p : ascii -> bool) (w : list ascii) : list ascii :=
  rev (lstrip_list p (rev (lstrip_list p w))).

(** [s.strip()] *)
Definition strip (s : string) : string :=
  string_of_list_ascii (strip_list is_space (list_ascii_of_string s)).

(** [s.strip(chars)] *)
Definition strip_chars (chars : string) (s : string) : string :=
  string_of_list_ascii
    (strip_list (fun c => existsb (eqc c) (list_ascii_of_string chars))
                (list_ascii_of_string s)).

(** [text.split('\n')] *)
Fixpoint split_lines (s : string) : list string :=
  match s with
  | EmptyString => [""]
  | String c s' =>
      if eqc c LF then "" :: split_lines s'
      else match split_lines s' with
           | l :: ls => String c l :: ls
           | [] => [String c ""]
           end
  end.

(** [f.readlines()] on the decoded content: lines keep their newline. *)
Fixpoint readlines (s : string) : list string :=
  match s with
  | EmptyString => []
  | String c s' =>
      if eqc c LF then String c "" :: readlines s'
      else match readlines s' with
           | l :: ls => String c l :: ls
           | [] => [String c ""]
           end
  end.

(** [s[:n]] *)
Fixpoint prefix (n : nat) (s : string) : string :=
  match n, s with
  | S k, String c s' => String c (prefix k s')
  | _, _ => ""
  end.

Fixpoint starts_with (p s : string) : bool :=
  match p, s with
  | EmptyString, _ => true
  | String a p', String b s' => eqc a b && starts_with p' s'
  | String _ _, EmptyString => false
  end.

(** [p in s] *)
Fixpoint contains (p s : string) : bool :=
  starts_with p s ||
  match s with
  | String _ s' => contains p s'
  | EmptyString => false
  end.

End Py.
Import Py.

Notation "'let*' x ':=' c1 'in' c2" := (bind c1 (fun x => c2))
  (at level 10, x name, c1 at level 100, c2 at level 200).

(** ** StackTraceParser *)

Inductive Language := python | javascript | java | go.

(** A stack entry.  The script stores dictionaries whose keys depend on
    the language; a key that is not stored is [None] here. *)
Record Frame := MkFrame {
  file : string;
  line : Z;
  function : option string;
  method : option string;
  column : option Z;
  code : option string
}.

Record Cause := MkCause {
  cause_type : string;
  cause_message : string
}.

(** A trace dictionary; ['caused_by'] is only stored by the Java scanner
    and is the empty list elsewhere. *)
Record Trace := MkTrace {
  language : Language;
  error_type : option string;
  error_message : option string;
  stack : list Frame;
  caused_by : list Cause
}.

Definition push_frame (t : Trace) (f : Frame) : Trace :=
  MkTrace (language t) (error_type t) (error_message t) (stack t ++ [f]) (caused_by t).

Definition push_cause (t : Trace) (c : Cause) : Trace :=
  MkTrace (language t) (error_type t) (error_message t) (stack t) (caused_by t ++ [c]).

Definition set_error (t : Trace) (ty msg : string) : Trace :=
  MkTrace (language t) (Some ty) (Some msg) (stack t) (caused_by t).

(** [StackTraceParser.PATTERNS] *)
Module PATTERNS.

Definition error_suffix : regex :=
  Alt (lit "Error") (Alt (lit "Exception") (lit "Warning")).
Definition java_suffix : regex := Alt (lit "Exception") (lit "Error").
Definition dotted : cset := Union Word (Only "."%char).

Module python.
(* ^Traceback \(most recent call last\): *)
Definition traceback_start : regex :=
  sequence [Bol; lit "Traceback (most recent call last):"].
(* ^\s+File Q([^Q]+)Q, line (\d+), in (.+)     where Q is the double quote *)
Definition file_line : regex :=
  sequence [Bol; Plus Space; lit "File "; Chr DQUOTE;
       Grp 1 (Plus (Not (Only DQUOTE))); Chr DQUOTE; lit ", line ";
       Grp 2 (Plus Digit); lit ", in "; Grp 3 (Plus Dot)].
(* ^(\w+(?:Error|Exception|Warning)): (.+) *)
Definition error_line : regex :=
  sequence [Bol; Grp 1 (Cat (Plus Word) error_suffix); lit ": "; Grp 2 (Plus Dot)].
(* ^\s+(.+) *)
Definition code_line : regex := sequence [Bol; Plus Space; Grp 1 (Plus Dot)].
End python.

Module javascript.
(* ^(\w+Error): (.+) *)
Definition error_line : regex :=
  sequence [Bol; Grp 1 (Cat (Plus Word) (lit "Error")); lit ": "; Grp 2 (Plus Dot)].
(* ^\s+at (.+) \(([^:]+):(\d+):(\d+)\) *)
Definition at_line : regex :=
  sequence [Bol; Plus Space; lit "at "; Grp 1 (Plus Dot); lit " (";
       Grp 2 (Plus (Not (Only ":"%char))); Chr ":"%char; Grp 3 (Plus Digit);
       Chr ":"%char; Grp 4 (Plus Digit); Chr ")"%char].
(* ^\s+at ([^:]+):(\d+):(\d+) *)
Definition at_line_simple : regex :=
  sequence [Bol; Plus Space; lit "at "; Grp 1 (Plus (Not (Only ":"%char)));
       Chr ":"%char; Grp 2 (Plus Digit); Chr ":"%char; Grp 3 (Plus Digit)].
End javascript.

Module java.
(* ^([\w\.]+(?:Exception|Error)): (.+) *)
Definition exception_line : regex :=
  sequence [Bol; Grp 1 (Cat (Plus dotted) java_suffix); lit ": "; Grp 2 (Plus Dot)].
(* ^\s+at ([\w\.$]+)\(([^:]+):(\d+)\) *)
Definition at_line : regex :=
  sequence [Bol; Plus Space; lit "at "; Grp 1 (Plus (Union dotted (Only "$"%char)));
       Chr "("%char; Grp 2 (Plus (Not (Only ":"%char))); Chr ":"%char;
       Grp 3 (Plus Digit); Chr ")"%char].
(* ^Caused by: ([\w\.]+(?:Exception|Error)): (.+) *)
Definition caused_by : regex :=
  sequence [Bol; lit "Caused by: "; Grp 1 (Cat (Plus dotted) java_suffix);
       lit ": "; Grp 2 (Plus Dot)].
End java.

Module go.
(* ^panic: (.+) *)
Definition panic_line : regex := sequence [Bol; lit "panic: "; Grp 1 (Plus Dot)].
(* ^goroutine \d+ \[.+\]: *)
Definition goroutine : regex :=
  sequence [Bol; lit "goroutine "; Plus Digit; lit " ["; Plus Dot; lit "]:"].
(* ^(.+)\(.*\) *)
Definition file_line : regex :=
  sequence [Bol; Grp 1 (Plus Dot); Chr "("%char; Star Dot; Chr ")"%char].
(* ^\s+([^:]+):(\d+) *)
Definition location : regex :=
  sequence [Bol; Plus Space; Grp 1 (Plus (Not (Only ":"%char))); Chr ":"%char;
       Grp 2 (Plus Digit)].
End go.

End PATTERNS.

(** [re.match(self.PATTERNS[...][...], line)] *)
Definition pmatch (r : regex) (l : string) : option Match := re_match false r l.

(** Case analysis that remembers which case was taken. *)
Definition inspect {A} (a : A) : {b : A | a = b} := exist _ a eq_refl.

Section Scanners.

Variable lines : list string.

Lemma cursor_step (i k : nat) (l : string) :
  lines !! i = Some l -> (length lines - (i + S k) < length lines - i)%nat.
Proof. intros H%lookup_lt_Some. lia. Qed.

(** The frame loop of [_parse_python], from cursor [i]: the cursor at
    which the loop stops and the traces appended so far. *)
Equations? python_frames (i : nat) (trace : Trace) (traces : list Trace)
    : result (nat * list Trace) by wf (length lines - i) lt :=
python_frames i trace traces with inspect (lines !! i) := {
  | exist _ None _ => Ok (i, traces)
  | exist _ (Some l) Hl with pmatch PATTERNS.python.file_line l := {
      | Some file_match with int (group file_match 2) := {
          | Ok line_num =>
              python_frames (i + 2)
                (push_frame trace
                   (MkFrame (group file_match 1) line_num
                            (Some (group file_match 3)) None None
                            (Some (match lines !! (i + 1) with
                                   | Some nxt => strip nxt
                                   | None => ""
                                   end))))
                traces
          | Raise e => Raise e }
      | None with pmatch PATTERNS.python.error_line l := {
          | Some error_match =>
              Ok (i, traces ++ [set_error trace (group error_match 1)
                                                (group error_match 2)])
          | None => Ok (i, traces) } } }.
Proof. eapply cursor_step; eauto. Qed.

Lemma python_frames_cursor i trace traces i' traces' :
  python_frames i trace traces = Ok (i', traces') -> (i <= i')%nat.
Proof.
  funelim (python_frames i trace traces); intros Hr;
    try discriminate; try (inversion Hr; subst; lia).
  apply H in Hr. lia.
Qed.

Definition new_python : Trace := MkTrace python None None [] [].

(** The outer loop of [_parse_python], from cursor [i]. *)
Equations? python_scan (i : nat) (traces : list Trace)
    : result (list Trace) by wf (length lines - i) lt :=
python_scan i traces with inspect (lines !! i) := {
  | exist _ None _ => Ok traces
  | exist _ (Some l) Hl with pmatch PATTERNS.python.traceback_start l := {
      | Some _ with inspect (python_frames (i + 1) new_python traces) := {
          | exist _ (Ok (i', traces')) Hf => python_scan (i' + 1) traces'
          | exist _ (Raise e) _ => Raise e }
      | None => python_scan (i + 1) traces } }.
Proof.
  - apply python_frames_cursor in Hf. apply lookup_lt_Some in Hl. lia.
  - eapply cursor_step; eauto.
Qed.

(** The frame loop of [_parse_javascript]. *)
Equations? javascript_frames (i : nat) (trace : Trace)
    : result (nat * Trace) by wf (length lines - i) lt :=
javascript_frames i trace with inspect (lines !! i) := {
  | exist _ None _ => Ok (i, trace)
  | exist _ (Some l) Hl with pmatch PATTERNS.javascript.at_line l := {
      | Some at_match with int (group at_match 3) := {
          | Ok line_num with int (group at_match 4) := {
              | Ok col =>
                  javascript_frames (i + 1)
                    (push_frame trace
                       (MkFrame (group at_match 2) line_num
                                (Some (group at_match 1)) None (Some col) None))
              | Raise e => Raise e }
          | Raise e => Raise e }
      | None with pmatch PATTERNS.javascript.at_line_simple l := {
          | Some simple_match with int (group simple_match 2) := {
              | Ok line_num with int (group simple_match 3) := {
                  | Ok col =>
                      javascript_frames (i + 1)
                        (push_frame trace
                           (MkFrame (group simple_match 1) line_num
                                    None None (Some col) None))
                  | Raise e => Raise e }
              | Raise e => Raise e }
          | None => Ok (i, trace) } } }.
Proof. all: eapply cursor_step; eauto. Qed.

Lemma javascript_frames_cursor i trace i' trace' :
  javascript_frames i trace = Ok (i', trace') -> (i <= i')%nat.
Proof.
  funelim (javascript_frames i trace); intros Hr;
    try discriminate; try (inversion Hr; subst; lia).
  all: apply H in Hr; lia.
Qed.

Definition new_javascript (error_match : Match) : Trace :=
  MkTrace javascript (Some (group error_match 1)) (Some (group error_match 2)) [] [].

(** [if trace['stack']: traces.append(trace)] *)
Definition append_if_stack (traces : list Trace) (trace : Trace) : list Trace :=
  match stack trace with
  | [] => traces
  | _ :: _ => traces ++ [trace]
  end.

(** The outer loop of [_parse_javascript]. *)
Equations? javascript_scan (i : nat) (traces : list Trace)
    : result (list Trace) by wf (length lines - i) lt :=
javascript_scan i traces with inspect (lines !! i) := {
  | exist _ None _ => Ok traces
  | exist _ (Some l) Hl with pmatch PATTERNS.javascript.error_line l := {
      | Some error_match
          with inspect (javascript_frames (i + 1) (new_javascript error_match)) := {
          | exist _ (Ok (i', trace)) Hf =>
              javascript_scan (i' + 1) (append_if_stack traces trace)
          | exist _ (Raise e) _ => Raise e }
      | None => javascript_scan (i + 1) traces } }.
Proof.
  - apply javascript_frames_cursor in Hf. apply lookup_lt_Some in Hl. lia.
  - eapply cursor_step; eauto.
Qed.

(** The frame loop of [_parse_java]; [Caused by:] lines keep it going. *)
Equations? java_frames (i : nat) (trace : Trace)
    : result (nat * Trace) by wf (length lines - i) lt :=
java_frames i trace with inspect (lines !! i) := {
  | exist _ None _ => Ok (i, trace)
  | exist _ (Some l) Hl with pmatch PATTERNS.java.at_line l := {
      | Some at_match with int (group at_match 3) := {
          | Ok line_num =>
              java_frames (i + 1)
                (push_frame trace
                   (MkFrame (group at_match 2) line_num
                            None (Some (group at_match 1)) None None))
          | Raise e => Raise e }
      | None with pmatch PATTERNS.java.caused_by l := {
          | Some caused_match =>
              java_frames (i + 1)
                (push_cause trace
                   (MkCause (group caused_match 1) (group caused_match 2)))
          | None => Ok (i, trace) } } }.
Proof. all: eapply cursor_step; eauto. Qed.

Lemma java_frames_cursor i trace i' trace' :
  java_frames i trace = Ok (i', trace') -> (i <= i')%nat.
Proof.
  funelim (java_frames i trace); intros Hr;
    try discriminate; try (inversion Hr; subst; lia).
  all: apply H in Hr; lia.
Qed.

Definition new_java (exception_match : Match) : Trace :=
  MkTrace java (Some (group exception_match 1)) (Some (group exception_match 2)) [] [].

(** The outer loop of [_parse_java]: every candidate is appended. *)
Equations? java_scan (i : nat) (traces : list Trace)
    : result (list Trace) by wf (length lines - i) lt :=
java_scan i traces with inspect (lines !! i) := {
  | exist _ None _ => Ok traces
  | exist _ (Some l) Hl with pmatch PATTERNS.java.exception_line l := {
      | Some exception_match
          with inspect (java_frames (i + 1) (new_java exception_match)) := {
          | exist _ (Ok (i', trace)) Hf => java_scan (i' + 1) (traces ++ [trace])
          | exist _ (Raise e) _ => Raise e }
      | None => java_scan (i + 1) traces } }.
Proof.
  - apply java_frames_cursor in Hf. apply lookup_lt_Some in Hl. lia.
  - eapply cursor_step; eauto.
Qed.

(** The frame loop of [_parse_go].  A goroutine header is stepped over; a
    call-site line needs a following line, and is stepped over when that
    line is no location; any other line ends the loop only once a frame
    has been captured. *)
Equations? go_frames (i : nat) (trace : Trace)
    : result (nat * Trace) by wf (length lines - i) lt :=
go_frames i trace with inspect (lines !! i) := {
  | exist _ None _ => Ok (i, trace)
  | exist _ (Some l) Hl with pmatch PATTERNS.go.goroutine l := {
      | Some _ => go_frames (i + 1) trace
      | None with pmatch PATTERNS.go.file_line l, lines !! (i + 1) := {
          | Some func_match, Some nxt with pmatch PATTERNS.go.location nxt := {
              | Some loc_match with int (group loc_match 2) := {
                  | Ok line_num =>
                      go_frames (i + 2)
                        (push_frame trace
                           (MkFrame (group loc_match 1) line_num
                                    (Some (group func_match 1)) None None None))
                  | Raise e => Raise e }
              | None => go_frames (i + 1) trace }
          | _, _ with stack trace := {
              | [] => go_frames (i + 1) trace
              | _ :: _ => Ok (i, trace) } } } }.
Proof. all: eapply cursor_step; eauto. Qed.

Lemma go_frames_cursor i trace i' trace' :
  go_frames i trace = Ok (i', trace') -> (i <= i')%nat.
Proof.
  funelim (go_frames i trace); intros Hr;
    try discriminate; try (inversion Hr; subst; lia).
  all: apply H in Hr; lia.
Qed.

Definition new_go (panic_match : Match) : Trace :=
  MkTrace go None (Some (group panic_match 1)) [] [].

(** The outer loop of [_parse_go]. *)
Equations? go_scan (i : nat) (traces : list Trace)
    : result (list Trace) by wf (length lines - i) lt :=
go_scan i traces with inspect (lines !! i) := {
  | exist _ None _ => Ok traces
  | exist _ (Some l) Hl with pmatch PATTERNS.go.panic_line l := {
      | Some panic_match
          with inspect (go_frames (i + 1) (new_go panic_match)) := {
          | exist _ (Ok (i', trace)) Hf =>
              go_scan (i' + 1) (append_if_stack traces trace)
          | exist _ (Raise e) _ => Raise e }
      | None => go_scan (i + 1) traces } }.
Proof.
  - apply go_frames_cursor in Hf. apply lookup_lt_Some in Hl. lia.
  - eapply cursor_step; eauto.
Qed.

End Scanners.

Definition _parse_python (text : string) : result (list Trace) :=
  python_scan (split_lines text) 0 [].

Definition _parse_javascript (text : string) : result (list Trace) :=
  javascript_scan (split_lines text) 0 [].

Definition _parse_java (text : string) : result (list Trace) :=
  java_scan (split_lines text) 0 [].

Definition _parse_go (text : string) : result (list Trace) :=
  go_scan (split_lines text) 0 [].

(** The keys of [PATTERNS], in the order the dictionary lists them. *)
Definition PATTERNS_keys : list Language := [python; javascript; java; go].

Definition scanner (lang : Language) : string -> result (list Trace) :=
  match lang with
  | python => _parse_python
  | javascript => _parse_javascript
  | java => _parse_java
  | go => _parse_go
  end.

(** [parse_text]: [traces.extend] of each scanner's list, key by key. *)
Fixpoint extend_all (langs : list Language) (text : string) (traces : list Trace)
    : result (list Trace) :=
  match langs with
  | [] => Ok traces
  | lang :: langs' =>
      let* found := scanner lang text in
      extend_all langs' text (traces ++ found)
  end.

Definition parse_text (text : string) : result (list Trace) :=
  extend_all PATTERNS_keys text [].

(** ** LogAnalyzer *)

Module LogAnalyzer.

(* (ERROR|CRITICAL|FATAL), re.IGNORECASE *)
Definition error_pattern : regex :=
  Grp 1 (Alt (lit "ERROR") (Alt (lit "CRITICAL") (lit "FATAL"))).

(* WARN(?:ING)?, re.IGNORECASE *)
Definition warning_pattern : regex := Cat (lit "WARN") (Opt (lit "ING")).

(* \d{4}-\d{2}-\d{2}[T\s]\d{2}:\d{2}:\d{2} *)
Definition timestamp_pattern : regex :=
  sequence [times 4 Digit; Chr "-"%char; times 2 Digit; Chr "-"%char; times 2 Digit;
       Cls (Union (Only "T"%char) Space);
       times 2 Digit; Chr ":"%char; times 2 Digit; Chr ":"%char; times 2 Digit].

(* \d{4}-\d{2}-\d{2}[T\s]\d{2}:\d{2}:\d{2}[.,\d]* *)
Definition timestamp_prefix : regex :=
  Cat timestamp_pattern
      (Star (Union (Only "."%char) (Union (Only ","%char) Digit))).

(* \b(ERROR|WARN(?:ING)?|INFO|DEBUG|CRITICAL|FATAL)\b, re.IGNORECASE *)
Definition level_word : regex :=
  sequence [Wordb;
       Grp 1 (Alt (lit "ERROR")
             (Alt (Cat (lit "WARN") (Opt (lit "ING")))
             (Alt (lit "INFO")
             (Alt (lit "DEBUG")
             (Alt (lit "CRITICAL") (lit "FATAL"))))));
       Wordb].

(* \[[\w\.]+\] *)
Definition logger_name : regex :=
  sequence [Chr "["%char; Plus (Union Word (Only "."%char)); Chr "]"%char].

(** [_extract_error_message] *)
Definition _extract_error_message (line : string) : string :=
  let line := re_delete false timestamp_prefix line in
  let line := re_delete true level_word line in
  let line := re_delete false logger_name line in
  let line := strip_chars " :|-" line in
  prefix 100 line.

(** The analysis dictionary. *)
Record Analysis := MkAnalysis {
  total_lines : nat;
  errors : gmap string nat;
  warnings : gmap string nat;
  patterns : gmap string (list (nat * string));
  timestamps : list string
}.

(** [d[k] += 1] on a [defaultdict(int)] *)
Definition incr (k : string) (d : gmap string nat) : gmap string nat :=
  <[k := S (default 0%nat (d !! k))]> d.

(** [d[k].append(v)] on a [defaultdict(list)] *)
Definition append_to {V} (k : string) (v : V) (d : gmap string (list V))
    : gmap string (list V) :=
  <[k := default [] (d !! k) ++ [v]]> d.

Definition is_error (line : string) : bool :=
  bool_decide (is_Some (re_search true error_pattern line)).

Definition is_warning (line : string) : bool :=
  bool_decide (is_Some (re_search true warning_pattern line)).

(** [if pattern and pattern in line] *)
Definition custom_hit (pattern : option string) (line : string) : option string :=
  match pattern with
  | Some p => if negb (String.eqb p "") && contains p line then Some p else None
  | None => None
  end.

(** One iteration of the loop over [enumerate(lines, 1)]. *)
Definition analyze_line (pattern : option string) (i : nat) (line : string)
    (a : Analysis) : Analysis :=
  let errors1 :=
    if is_error line then incr (_extract_error_message line) (errors a)
    else errors a in
  let warnings1 :=
    if is_warning line then incr (_extract_error_message line) (warnings a)
    else warnings a in
  let timestamps1 :=
    match re_search false timestamp_pattern line with
    | Some ts_match => timestamps a ++ [whole ts_match]
    | None => timestamps a
    end in
  let patterns1 :=
    match custom_hit pattern line with
    | Some p => append_to p (i, strip line) (patterns a)
    | None => patterns a
    end in
  MkAnalysis (total_lines a) errors1 warnings1 patterns1 timestamps1.

Fixpoint analyze_lines (pattern : option string) (i : nat) (lines : list string)
    (a : Analysis) : Analysis :=
  match lines with
  | [] => a
  | line :: lines' => analyze_lines pattern (S i) lines' (analyze_line pattern i line a)
  end.

(** [analyze_file] applied to the decoded content of the file. *)
Definition analyze_file (content : string) (pattern : option string) : Analysis :=
  let lines := readlines content in
  analyze_lines pattern 1 lines (MkAnalysis (length lines) ∅ ∅ ∅ []).

(** [sum(d.values())] *)
Definition sum_values (d : gmap string nat) : nat :=
  map_fold (fun _ v acc => (v + acc)%nat) 0%nat d.

End LogAnalyzer.
Import LogAnalyzer.

(** * Notions used in the statements *)

(** ** Syntactic tests on patterns *)

Module ReAnalysis.

(** Every match of [r] captures group [k]. *)
Fixpoint sets (k : nat) (r : regex) : bool :=
  match r with
  | Grp n r1 => (n =? k)%nat || sets k r1
  | Cat r1 r2 => sets k r1 || sets k r2
  | Alt r1 r2 => sets k r1 && sets k r2
  | _ => false
  end.

(** Wherever [r] captures group [k], the group is written [(\d+)]. *)
Fixpoint digits_at (k : nat) (r : regex) : bool :=
  match r with
  | Grp n r1 =>
      if (n =? k)%nat then match r1 with Plus Digit => true | _ => false end
      else digits_at k r1
  | Cat r1 r2 | Alt r1 r2 => digits_at k r1 && digits_at k r2
  | Opt r1 => digits_at k r1
  | _ => true
  end.

(** A non-empty run of decimal digits. *)
Definition is_number (w : list ascii) : Prop := w <> [] /\ forallb is_digit w = true.

(** Group [k], where captured, holds a number. *)
Definition number_or_unset (k : nat) (g : list (nat * list ascii)) : Prop :=
  forall w, lookup_cap k g = Some w -> is_number w.

(** Patterns that consume nothing. *)
Fixpoint zero_width (r : regex) : bool :=
  match r with
  | Eps | Bol | Wordb => true
  | Cat r1 r2 => zero_width r1 && zero_width r2
  | _ => false
  end.

(** A test that the first character of every match of [r] passes, for a
    pattern that cannot match the empty string. *)
Fixpoint first (r : regex) : option (ascii -> bool) :=
  match r with
  | Chr c => Some (fun x => eqc x c)
  | Cls cs | Plus cs => Some (mem cs)
  | Cat r1 r2 => if zero_width r1 then first r2 else first r1
  | Grp _ r1 => first r1
  | Alt r1 r2 =>
      match first r1, first r2 with
      | Some p, Some q => Some (fun x => p x || q x)
      | _, _ => None
      end
  | _ => None
  end.

(** The 256 characters. *)
Definition all_ascii : list ascii := map ascii_of_nat (List.seq 0 256).

(** No character passes both tests. *)
Definition disjoint (p q : ascii -> bool) : bool :=
  forallb (fun c => negb (p c && q c)) all_ascii.

(** [below r1 r2]: every way [r1] can finish is a way [r2] can finish. *)
Definition below (r1 r2 : regex) : Prop :=
  forall s s', In s' (run false r1 s) -> In s' (run false r2 s).

(** Group [k] is captured somewhere in [r]. *)
Fixpoint mentions (k : nat) (r : regex) : bool :=
  match r with
  | Grp n r1 => (n =? k)%nat || mentions k r1
  | Cat r1 r2 | Alt r1 r2 => mentions k r1 || mentions k r2
  | Opt r1 => mentions k r1
  | _ => false
  end.

(** The word a pattern made of literal characters spells. *)
Fixpoint literal_of (r : regex) : option string :=
  match r with
  | Eps => Some EmptyString
  | Cat (Chr c) r1 => String c <$> literal_of r1
  | _ => None
  end.

(** The words of an alternation of literals. *)
Fixpoint literals (r : regex) : option (list string) :=
  match r with
  | Alt r1 r2 =>
      match literals r1, literals r2 with
      | Some l1, Some l2 => Some (l1 ++ l2)
      | _, _ => None
      end
  | _ => (fun w => [w]) <$> literal_of r
  end.

(** The suffixes that group 1 can end in, for a pattern whose group 1 is
    written [(cs+(?:a|b|...))] and is captured once. *)
Fixpoint suffixes (r : regex) : option (list string) :=
  match r with
  | Cat (Grp 1 (Cat (Plus _) alt)) post =>
      if mentions 1 alt || mentions 1 post then None else literals alt
  | Cat pre r1 => if mentions 1 pre then None else suffixes r1
  | _ => None
  end.

End ReAnalysis.
Import ReAnalysis.

(** ** Properties of traces and of lines *)

(** The invariant of every trace a scanner builds: it carries the
    scanner's language tag and its line numbers are not negative. *)
Definition good (lang : Language) (t : Trace) : Prop :=
  language t = lang /\ Forall (fun f => (0 <= line f)%Z) (stack t).

(** The line matches one of the two frame patterns of the JavaScript
    scanner. *)
Definition javascript_frame_line (l : string) : bool :=
  bool_decide (is_Some (pmatch PATTERNS.javascript.at_line l)) ||
  bool_decide (is_Some (pmatch PATTERNS.javascript.at_line_simple l)).

(** The line matches a pattern that keeps the Java frame loop going. *)
Definition java_loop_line (l : string) : bool :=
  bool_decide (is_Some (pmatch PATTERNS.java.at_line l)) ||
  bool_decide (is_Some (pmatch PATTERNS.java.caused_by l)).

(** [s] is a non-empty string followed by one of the words [sufs]. *)
Definition ends_in (sufs : list string) (s : string) : Prop :=
  exists w suf, w <> EmptyString /\ In suf sufs /\ s = (w ++ suf)%string.

(** No character at either end of [s] passes the test [p]. *)
Definition trimmed (p : ascii -> bool) (s : string) : Prop :=
  (forall c t, list_ascii_of_string s = c :: t -> p c = false) /\
  (forall c t, rev (list_ascii_of_string s) = c :: t -> p c = false).

(** The width of a pattern that matches texts of one length only. *)
Fixpoint width (r : regex) : option nat :=
  match r with
  | Eps | Bol | Wordb => Some 0%nat
  | Chr _ | Cls _ => Some 1%nat
  | Cat r1 r2 =>
      match width r1, width r2 with
      | Some a, Some b => Some (a + b)%nat
      | _, _ => None
      end
  | Grp _ r1 => width r1
  | _ => None
  end.

(** Patterns without [^] and [\b]: what they match at a place does not
    depend on the character before it. *)
Fixpoint anchor_free (r : regex) : bool :=
  match r with
  | Bol | Wordb => false
  | Cat r1 r2 | Alt r1 r2 => anchor_free r1 && anchor_free r2
  | Opt r1 | Grp _ r1 => anchor_free r1
  | _ => true
  end.

(** Patterns that are a plain sequence of characters and sets. *)
Fixpoint plain (r : regex) : bool :=
  match r with
  | Eps | Chr _ | Cls _ => true
  | Cat r1 r2 => plain r1 && plain r2
  | _ => false
  end.

(** [ts] is a timestamp: the timestamp pattern matches all of it. *)
Definition is_timestamp (ts : string) : Prop :=
  exists m, re_match false timestamp_pattern ts = Some m /\ whole m = ts.

(** The number of lines that pass [test] and normalize to the key [k]. *)
Definition occurrences (test : string -> bool) (k : string) (lines : list string) : nat :=
  length (List.filter (fun l => test l && String.eqb (_extract_error_message l) k) lines).

(** The entry of a key that was counted [n] times in a [defaultdict(int)]. *)
Definition counted (n : nat) : option nat :=
  match n with O => None | S _ => Some n end.

(** The first timestamp of a line, if it has one. *)
Definition first_timestamp (line : string) : option string :=
  whole <$> re_search false timestamp_pattern line.

(** The lines that contain [p], numbered from [i], trimmed of blanks. *)
Fixpoint matching_lines (p : string) (i : nat) (lines : list string)
    : list (nat * string) :=
  match lines with
  | [] => []
  | line :: lines' =>
      if contains p line then (i, strip line) :: matching_lines p (S i) lines'
      else matching_lines p (S i) lines'
  end.

(** The characters that the clean-up step of the normalization strips. *)
Definition is_separator (c : ascii) : bool :=
  existsb (eqc c) (list_ascii_of_string " :|-").

(** A key of at most 100 characters that does not begin with a separator. *)
Definition key_shape (k : string) : Prop :=
  (String.length k <= 100)%nat /\
  forall c t, list_ascii_of_string k = c :: t -> is_separator c = false.

(** The pattern that opens a candidate of each scanner. *)
Definition start_pattern (lang : Language) : regex :=
  match lang with
  | python => PATTERNS.python.traceback_start
  | javascript => PATTERNS.javascript.error_line
  | java => PATTERNS.java.exception_line
  | go => PATTERNS.go.panic_line
  end.

Definition is_start (lang : Language) (l : string) : bool :=
  bool_decide (is_Some (pmatch (start_pattern lang) l)).

(** The number of lines that match the start pattern of [lang]. *)
Definition start_lines (lang : Language) (lines : list string) : nat :=
  length (List.filter (is_start lang) lines).

(** A JavaScript or Go trace has at least one frame. *)
Definition has_frames (t : Trace) : Prop :=
  match language t with
  | javascript | go => stack t <> []
  | python | java => True
  end.

(** The error type and message each scanner stores: a Python, JavaScript
    or Java trace has both, and the type ends in one of the words of its
    start or trailer pattern; a Go trace has a message and no type. *)
Definition typed_trace (t : Trace) : Prop :=
  match language t with
  | python =>
      exists ty msg, error_type t = Some ty /\ error_message t = Some msg /\
                     ends_in ["Error"; "Exception"; "Warning"] ty
  | javascript =>
      exists ty msg, error_type t = Some ty /\ error_message t = Some msg /\
                     ends_in ["Error"] ty
  | java =>
      exists ty msg, error_type t = Some ty /\ error_message t = Some msg /\
                     ends_in ["Exception"; "Error"] ty
  | go => error_type t = None /\ exists msg, error_message t = Some msg
  end.

(** The pattern whose groups give a trace of [lang] its error type and
    message: the trailer pattern for Python, the start pattern for the
    others. *)
Definition heading_pattern (lang : Language) : regex :=
  match lang with
  | python => PATTERNS.python.error_line
  | javascript => PATTERNS.javascript.error_line
  | java => PATTERNS.java.exception_line
  | go => PATTERNS.go.panic_line
  end.

(** The error type and message of [t] are the groups of a line of [lines]
    that matches the heading pattern of its language (a Go trace has the
    one group as its message, and no type). *)
Definition headed_by (lines : list string) (t : Trace) : Prop :=
  exists l m,
    l ∈ lines /\ pmatch (heading_pattern (language t)) l = Some m /\
    match language t with
    | go => error_type t = None /\ error_message t = Some (group m 1)
    | _ => error_type t = Some (group m 1) /\ error_message t = Some (group m 2)
    end.

(** The keys of a frame dictionary, by the language of its trace. *)
Definition frame_keys (lang : Language) (f : Frame) : Prop :=
  match lang with
  | python =>
      function f <> None /\ code f <> None /\ method f = None /\ column f = None
  | javascript =>
      (exists col, column f = Some col /\ (0 <= col)%Z) /\
      method f = None /\ code f = None
  | java =>
      method f <> None /\ function f = None /\ column f = None /\ code f = None
  | go =>
      function f <> None /\ method f = None /\ column f = None /\ code f = None
  end.

(** Every frame has the keys of its language; only Java traces have causes. *)
Definition well_keyed (t : Trace) : Prop :=
  Forall (frame_keys (language t)) (stack t) /\
  (language t <> java -> caused_by t = []).

(** The snippet of every frame that has one is trimmed of blanks. *)
Definition snippets_trimmed (t : Trace) : Prop :=
  Forall (fun f => forall c, code f = Some c -> trimmed is_space c) (stack t).

(** The type of every cause ends in [Exception] or [Error]. *)
Definition causes_typed (t : Trace) : Prop :=
  Forall (fun c => ends_in ["Exception"; "Error"] (cause_type c)) (caused_by t).

(** Every frame of every trace has a line number of at least [k]. *)
Definition line_numbers_from (k : Z) (traces : list Trace) : Prop :=
  Forall (fun t => Forall (fun f => (k <= line f)%Z) (stack t)) traces.

(** Every trace carries the tag [lang]. *)
Definition all_tagged (lang : Language) (traces : list Trace) : Prop :=
  Forall (fun t => language t = lang) traces.

(** The line matches the start pattern of none of the four grammars. *)
Definition no_start_line (l : string) : Prop :=
  pmatch PATTERNS.python.traceback_start l = None /\
  pmatch PATTERNS.javascript.error_line l = None /\
  pmatch PATTERNS.java.exception_line l = None /\
  pmatch PATTERNS.go.panic_line l = None.

(** The match object of a line that is known to match. *)
Definition the_match (r : regex) (l : string) : Match :=
  default (MkMatch "" []) (pmatch r l).

(** The frame the Python loop stores for a declaration and the line after it. *)
Definition python_frame (file_match : Match) (line_num : Z) (snippet : option string)
    : Frame :=
  MkFrame (group file_match 1) line_num (Some (group file_match 3)) None None
          (Some (match snippet with Some nxt => strip nxt | None => "" end)).

(** The frames [fs] are those of the declarations found every other line
    from cursor [i] on, each with the line after it as its snippet. *)
Definition declared_at (lines : list string) (i : nat) (fs : list Frame) : Prop :=
  forall j f, fs !! j = Some f ->
    exists l file_match,
      lines !! (i + 2 * j)%nat = Some l /\
      pmatch PATTERNS.python.file_line l = Some file_match /\
      int (group file_match 2) = Ok (line f) /\
      f = python_frame file_match (line f) (lines !! (i + 2 * j + 1)%nat).

(** [t] with the frames [fs] added at the end of its stack. *)
Definition add_frames (t : Trace) (fs : list Frame) : Trace :=
  MkTrace (language t) (error_type t) (error_message t) (stack t ++ fs) (caused_by t).

(** The trailer under cursor [i], if there is one. *)
Definition trailer_at (lines : list string) (i : nat) : option Match :=
  lines !! i ≫= pmatch PATTERNS.python.error_line.

(** What the frame loop leaves behind when it stops at cursor [i]. *)
Definition python_emit (lines : list string) (i : nat) (trace : Trace)
    (traces : list Trace) : list Trace :=
  match trailer_at lines i with
  | Some error_match =>
      traces ++ [MkTrace (language trace) (Some (group error_match 1))
                         (Some (group error_match 2)) (stack trace) (caused_by trace)]
  | None => traces
  end.

(** The trace of a candidate with frames [fs] and the given trailer. *)
Definition python_record (error_match : Match) (fs : list Frame) : Trace :=
  MkTrace python (Some (group error_match 1)) (Some (group error_match 2)) fs [].

(** The list of traces after a candidate whose frames are [fs] and whose
    frame loop stopped at cursor [stop]. *)
Definition emitted_after (lines : list string) (stop : nat) (fs : list Frame)
    (traces : list Trace) : list Trace :=
  match trailer_at lines stop with
  | Some error_match => traces ++ [python_record error_match fs]
  | None => traces
  end.

(** The text is recognised by the scanner of [lang] as exactly one trace. *)
Definition valid_example (lang : Language) (text : string) : Prop :=
  exists t, scanner lang text = Ok [t] /\ language t = lang.

(** Exactly four traces, one per language, in the order of [PATTERNS]. *)
Definition four_in_order (text : string) : Prop :=
  exists a b c d,
    parse_text text = Ok [a; b; c; d] /\
    language a = python /\ language b = javascript /\
    language c = java /\ language d = go.

(** The groups [ks] of the match of [r] on [l], when there is one, are
    all accepted by [int]. *)
Definition converts (r : regex) (ks : list nat) (l : string) : bool :=
  match pmatch r l with
  | Some m => forallb (fun k => is_ok (int (group m k))) ks
  | None => true
  end.

(** The numbers that the frame loop of [lang] would convert on line [l]
    are within the limit of [int]. *)
Definition fits (lang : Language) (l : string) : bool :=
  match lang with
  | python => converts PATTERNS.python.file_line [2%nat] l
  | javascript => converts PATTERNS.javascript.at_line [3%nat; 4%nat] l &&
                  converts PATTERNS.javascript.at_line_simple [2%nat; 3%nat] l
  | java => converts PATTERNS.java.at_line [3%nat] l
  | go => converts PATTERNS.go.location [2%nat] l
  end.

Definition numbers_fit (l : string) : bool :=
  forallb (fun lang => fits lang l) PATTERNS_keys.

(** The result [r] with [traces] put before its list. *)
Definition after (traces : list Trace) (r : result (list Trace)) : result (list Trace) :=
  match r with
  | Ok more => Ok (traces ++ more)
  | Raise e => Raise e
  end.

(** The result of a frame loop, with its cursor moved [n] lines down. *)
Definition shifted {A} (n : nat) (r : result (nat * A)) : result (nat * A) :=
  match r with
  | Ok (i, a) => Ok ((n + i)%nat, a)
  | Raise e => Raise e
  end.

(** A mapping of counts without a zero. *)
Definition positive (d : gmap string nat) : Prop :=
  forall k n, d !! k = Some n -> (1 <= n)%nat.

(** States that agree on all but the character before the cursor. *)
Definition same_place (s1 s2 : mstate) : Prop :=
  rest s1 = rest s2 /\ caps s1 = caps s2.

(** The state [s] with [t] added after the text that is left. *)
Definition extended (t : list ascii) (s : mstate) : mstate :=
  MState (prev s) (rest s ++ t) (caps s).

(** The characters that the first substitution takes after a timestamp. *)
Definition tail_set : cset := Union (Only "."%char) (Union (Only ","%char) Digit).

(** ** Sample texts *)

(** ['\n'.join(lines)], to write sample texts line by line. *)
Fixpoint join_lines (ls : list string) : string :=
  match ls with
  | [] => ""
  | [l] => l
  | l :: ls' => l ++ String LF (join_lines ls')
  end.

(** [s] between double quotes. *)
Definition quoted (s : string) : string := String DQUOTE (s ++ String DQUOTE "").

(** A frame declaration of a Python traceback. *)
Definition declaration (path : string) (n : string) (fn : string) : string :=
  "  File " ++ quoted path ++ ", line " ++ n ++ ", in " ++ fn.

(** A text without any start line. *)
Definition plain_text : string :=
  join_lines ["starting service"; "  at your service"; "Caused by: nothing"; "done"].

(** A traceback whose only frame is on line 0. *)
Definition line_zero_text : string :=
  join_lines ["Traceback (most recent call last):";
              declaration "gen.py" "0" "<module>";
              "    pass";
              "RuntimeError: boom"].

(** A number of [n] digits. *)
Definition digits (n : nat) : string := string_of_list_ascii (repeat "7"%char n).

(** A frame declaration whose line number has one digit more than [int]
    accepts, in a traceback that is complete otherwise. *)
Definition long_declaration : string := declaration "a.py" (digits 4301) "f".

Definition long_number : list string :=
  ["Traceback (most recent call last):";
   long_declaration;
   "    f()";
   "ValueError: bad"].

(** Two frame declarations in a row. *)
Definition two_declarations : list string :=
  ["Traceback (most recent call last):";
   declaration "a.py" "1" "f";
   declaration "b.py" "2" "g";
   "ValueError: bad"].

(** Two frames, then a line that is no trailer. *)
Definition dropped_candidate : list string :=
  ["Traceback (most recent call last):";
   declaration "a.py" "1" "f";
   "    g()";
   declaration "b.py" "2" "g";
   "    h()";
   "no trailer here";
   "ValueError: too late"].

(** A log of five lines: two errors, one warning. *)
Definition five_line_log : string :=
  join_lines ["2024-03-01 10:00:00 INFO  [app] started";
              "2024-03-01 10:00:01 ERROR [db] connection refused";
              "2024-03-01 10:00:02 WARNING [db] retrying";
              "2024-03-01 10:00:03 ERROR [db] connection refused";
              "2024-03-01 10:00:04 INFO  [app] stopped";
              ""].

(** Two log lines that differ in their timestamp only. *)
Definition disk_full_1 : string := "2024-01-01T00:00:00 ERROR [svc] disk full".

Definition disk_full_2 : string := "2024-01-02T00:00:00 ERROR [svc] disk full".

(** One trace in each of the four formats. *)
Definition python_example : string :=
  join_lines ["Traceback (most recent call last):";
              declaration "app.py" "10" "main";
              "    run()";
              "ValueError: bad input"].

Definition javascript_example : string :=
  join_lines ["TypeError: run is not a function";
              "    at main (app.js:10:5)"].

Definition java_example : string :=
  join_lines ["java.lang.IllegalStateException: closed";
              "    at com.app.Main.run(Main.java:10)"].

Definition go_example : string :=
  join_lines ["panic: assignment to entry in nil map";
              "goroutine 1 [running]:";
              "main.run()";
              String TAB "/app/main.go:10 +0x1d"].

(** The four examples, a blank line between them. *)
Definition one_of_each : string :=
  join_lines [python_example; ""; javascript_example; "";
              java_example; ""; go_example].

(** A text on which each scanner finds one trace: a Python traceback
    whose trailer is a warning, a JavaScript error, which the Java scanner
    takes for an exception without frames, and a Go panic. *)
Definition one_per_scanner : string :=
  join_lines ["Traceback (most recent call last):";
              declaration "app.py" "10" "main";
              "    run()";
              "UserWarning: old call";
              "";
              javascript_example; "";
              go_example].

(** Two JavaScript errors, the first without frames, one line after the
    other; two Java exceptions without frames likewise. *)
Definition two_errors : list string :=
  ["RangeError: too deep";
   "TypeError: run is not a function";
   "    at main (app.js:10:5)"].

Definition two_exceptions : list string :=
  ["java.io.IOException: closed"; "java.lang.IllegalStateException: late"].

(** The rest of a log line, after its timestamp. *)
Definition after_timestamp : string := ",123 ERROR [svc] disk full".

(** Lines of a log without any start line. *)
Definition log_preamble : string :=
  join_lines ["INFO starting worker"; "  at your service"; "INFO request 17"].

(** A JavaScript start line, alone and followed by lines that are no frames. *)
Definition lone_start_line : string := "TypeError: run is not a function".

Definition start_then_text : string :=
  join_lines ["ReferenceError: x is not defined"; "  see the log"; "bye"].

(** The lines below a Go panic line: a frame, a line with brackets that
    is followed by no location, and the exit message. *)
Definition go_after_frame : list string :=
  ["main.run()";
   String TAB "/app/main.go:10 +0x1d";
   "see the log (details)";
   "exit status 2"].

(** A Go panic as the runtime prints it, with an empty line after the
    panic line. *)
Definition go_panic_text : list string :=
  ["panic: assignment to entry in nil map";
   "";
   "goroutine 1 [running]:";
   "main.run()";
   String TAB "/app/main.go:10 +0x1d"].

(** A Java start line followed by a cause line, with a type that the
    cause pattern refuses and with one that it accepts. *)
Definition cause_named_X : string :=
  join_lines ["java.lang.RuntimeException: boom"; "Caused by: X: msg"].

Definition cause_without_frames : string :=
  join_lines ["java.lang.RuntimeException: boom";
              "Caused by: java.io.IOException: disk"].

(** * Facts about the matcher *)

Module ReFacts.

Lemma take_consumed (w r : list ascii) : take (length (w ++ r) - length r) (w ++ r) = w.
Proof.
  rewrite length_app.
  replace (length w + length r - length r)%nat with (length w) by lia.
  apply take_app_length.
Qed.

Lemma in_step1 ok s s' :
  In s' (step1 ok s) <->
  exists c, rest s = c :: rest s' /\ ok c = true /\ prev s' = Some c /\ caps s' = caps s.
Proof.
  unfold step1. destruct s as [p [|c r] g]; simpl.
  - split; [tauto|]. intros (c & H & _). discriminate.
  - destruct (ok c) eqn:Hc; simpl.
    + split.
      * intros [<-|[]]. exists c. auto.
      * intros (c' & H & _ & Hp & Hg). left. destruct s'; simpl in *. congruence.
    + split; [tauto|]. intros (c' & H & Hc' & _). congruence.
Qed.

Lemma in_greedy cs p r g s' :
  In s' (greedy cs p r g) ->
  exists w, r = w ++ rest s' /\ forallb (mem cs) w = true /\ caps s' = g.
Proof.
  revert p. induction r as [|c r IH]; intros p; simpl.
  - intros [<-|[]]. exists []. auto.
  - destruct (mem cs c) eqn:Hc.
    + rewrite in_app_iff. intros [H|[<-|[]]].
      * destruct (IH _ H) as (w & -> & Hw & Hg).
        exists (c :: w). simpl. rewrite Hc, Hw. auto.
      * exists []. auto.
    + intros [<-|[]]. exists []. auto.
Qed.

(** What a greedy [cs+] consumes: a non-empty run of characters of [cs]. *)
Lemma in_plus ic cs s s' :
  In s' (run ic (Plus cs) s) ->
  exists w, rest s = w ++ rest s' /\ w <> [] /\ forallb (mem cs) w = true
            /\ caps s' = caps s.
Proof.
  simpl. rewrite in_flat_map. intros (s1 & H1 & H2).
  apply in_step1 in H1 as (c & Hr & Hc & _ & Hg).
  apply in_greedy in H2 as (w & Hw & Hall & Hg').
  exists (c :: w). simpl. rewrite Hr, Hw, Hc, Hall. repeat split; congruence.
Qed.

(** The matcher only moves forward in the text. *)
Lemma run_suffix ic r : forall s s', In s' (run ic r s) -> exists w, rest s = w ++ rest s'.
Proof.
  induction r; intros s s'; simpl.
  - intros [<-|[]]. by exists [].
  - destruct (prev s); [intros []|intros [<-|[]]]. by exists [].
  - destruct (xorb _ _); [intros [<-|[]]|intros []]. by exists [].
  - intros (c' & H & _)%in_step1. exists [c']. by rewrite H.
  - intros (c' & H & _)%in_step1. exists [c']. by rewrite H.
  - rewrite in_flat_map. intros (s1 & H1 & H2).
    destruct (IHr1 _ _ H1) as (w1 & E1), (IHr2 _ _ H2) as (w2 & E2).
    exists (w1 ++ w2). rewrite E1, E2. by rewrite app_assoc.
  - rewrite in_app_iff. intros [H|H]; eauto.
  - rewrite in_app_iff. intros [H|[<-|[]]]; [eauto|by exists []].
  - intros (w & H & _)%(in_plus ic). by exists w.
  - intros (w & H & _)%in_greedy. by exists w.
  - rewrite in_map_iff. intros (s1 & <- & H). simpl. eauto.
Qed.

Lemma lookup_cap_cons n k w g :
  lookup_cap k ((n, w) :: g) = if (n =? k)%nat then Some w else lookup_cap k g.
Proof. unfold lookup_cap. simpl. by destruct (n =? k)%nat. Qed.

(** *** Groups that hold a decimal number *)

Lemma run_keeps_set ic k r : forall s s',
  In s' (run ic r s) -> is_Some (lookup_cap k (caps s)) -> is_Some (lookup_cap k (caps s')).
Proof.
  induction r; intros s s'; simpl.
  - by intros [<-|[]].
  - destruct (prev s); [intros []|by intros [<-|[]]].
  - destruct (xorb _ _); [by intros [<-|[]]|intros []].
  - intros (c' & _ & _ & _ & ->)%in_step1. auto.
  - intros (c' & _ & _ & _ & ->)%in_step1. auto.
  - rewrite in_flat_map. intros (s1 & H1 & H2) Hs. eauto.
  - rewrite in_app_iff. intros [H|H]; eauto.
  - rewrite in_app_iff. intros [H|[<-|[]]]; eauto.
  - intros (w & _ & _ & _ & ->)%(in_plus ic). auto.
  - intros (w & _ & _ & ->)%in_greedy. auto.
  - rewrite in_map_iff. intros (s1 & <- & H) Hs. simpl.
    rewrite lookup_cap_cons. destruct (n =? k)%nat; eauto.
Qed.

Lemma run_sets ic k r : forall s s',
  sets k r = true -> In s' (run ic r s) -> is_Some (lookup_cap k (caps s')).
Proof.
  induction r; intros s s'; simpl; try discriminate.
  - intros [H|H]%orb_true_iff (s1 & H1 & H2)%in_flat_map.
    + eapply run_keeps_set; eauto.
    + eauto.
  - intros [Ha Hb]%andb_true_iff [H|H]%in_app_iff; eauto.
  - intros Hk (s1 & <- & H)%in_map_iff. simpl. rewrite lookup_cap_cons.
    destruct (n =? k)%nat; simpl in Hk; eauto.
Qed.

Lemma run_number ic k r : forall s s',
  digits_at k r = true -> In s' (run ic r s) ->
  number_or_unset k (caps s) -> number_or_unset k (caps s').
Proof.
  induction r; intros s s'; simpl.
  - by intros _ [<-|[]].
  - intros _. destruct (prev s); [intros []|by intros [<-|[]]].
  - intros _. destruct (xorb _ _); [by intros [<-|[]]|intros []].
  - intros _ (c' & _ & _ & _ & ->)%in_step1. auto.
  - intros _ (c' & _ & _ & _ & ->)%in_step1. auto.
  - intros [Ha Hb]%andb_true_iff (s1 & H1 & H2)%in_flat_map Hs. eauto.
  - intros [Ha Hb]%andb_true_iff [H|H]%in_app_iff; eauto.
  - intros Ha [H|[<-|[]]]%in_app_iff; eauto.
  - intros _ (w & _ & _ & _ & ->)%(in_plus ic). auto.
  - intros _ (w & _ & _ & ->)%in_greedy. auto.
  - intros Hk (s1 & <- & H)%in_map_iff Hs w. simpl. rewrite lookup_cap_cons.
    destruct (n =? k)%nat eqn:Hn.
    + intros [= <-]. destruct r; try discriminate. destruct cs; try discriminate.
      apply (in_plus ic) in H as (w & Hr & Hne & Hall & _).
      unfold consumed. rewrite Hr, take_consumed. by split.
    + apply (IHr _ _ Hk H Hs).
Qed.

Lemma head_In {A} (l : list A) (x : A) : head l = Some x -> In x l.
Proof. destruct l; simpl; [discriminate|]. intros [= ->]. by left. Qed.

(** A group written [(\d+)] on the spine of a pattern holds a number in
    every match object the pattern produces. *)
Lemma match_number r k l m :
  sets k r = true -> digits_at k r = true -> pmatch r l = Some m ->
  exists w, group m k = string_of_list_ascii w /\ is_number w.
Proof.
  unfold pmatch, re_match, match_from. intros Hs Hd Hm.
  destruct (head _) as [s'|] eqn:Hh; [|discriminate].
  injection Hm as <-. apply head_In in Hh.
  destruct (run_sets _ _ _ _ _ Hs Hh) as [w Hw].
  exists w. unfold group. simpl. rewrite Hw. split; [done|].
  eapply run_number; eauto. intros w'. discriminate.
Qed.

Lemma digits_val_acc w : forall a, (0 <= a)%Z ->
  (0 <= fold_left (fun acc c => (10 * acc + digit_val c)%Z) w a)%Z.
Proof.
  induction w as [|c w IH]; intros a Ha; simpl; [done|].
  apply IH. unfold digit_val. lia.
Qed.

(** [int] never yields a negative number. *)
Lemma int_nonneg s n : int s = Ok n -> (0 <= n)%Z.
Proof.
  unfold int. destruct (_ && _); [|discriminate].
  intros [= <-]. by apply digits_val_acc.
Qed.

(** [int] accepts a number exactly when it has no more digits than the
    limit. *)
Lemma int_number w :
  is_number w ->
  int (string_of_list_ascii w) =
  if (length w <=? int_max_str_digits)%nat then Ok (digits_val w) else Raise ValueError.
Proof.
  intros [Hne Hall]. unfold int. rewrite list_ascii_of_string_of_list_ascii, Hall.
  destruct w; [done|]. done.
Qed.

Lemma string_length_chars (s : string) :
  String.length s = length (list_ascii_of_string s).
Proof. induction s as [|c s IH]; simpl; [done|]. by rewrite IH. Qed.

(** On a [(\d+)] group [int] raises only when the group is longer than
    the limit. *)
Lemma int_group_raise r k l m e :
  sets k r = true -> digits_at k r = true -> pmatch r l = Some m ->
  int (group m k) = Raise e ->
  (int_max_str_digits < String.length (group m k))%nat.
Proof.
  intros Hs Hd Hm. destruct (match_number _ _ _ _ Hs Hd Hm) as (w & -> & Hw).
  rewrite (int_number _ Hw), string_length_chars, list_ascii_of_string_of_list_ascii.
  destruct (Nat.leb_spec (length w) int_max_str_digits); [discriminate|done].
Qed.

Lemma int_group_fits r k l m :
  sets k r = true -> digits_at k r = true -> pmatch r l = Some m ->
  (String.length (group m k) <= int_max_str_digits)%nat ->
  exists n, int (group m k) = Ok n.
Proof.
  intros Hs Hd Hm Hlen. destruct (int (group m k)) as [n|e] eqn:Hi; [eauto|].
  pose proof (int_group_raise _ _ _ _ _ Hs Hd Hm Hi). lia.
Qed.

(** *** The first character of a match *)

Lemma zero_width_run ic r : forall s s',
  zero_width r = true -> In s' (run ic r s) -> s' = s.
Proof.
  induction r; intros s s'; simpl; try discriminate.
  - by intros _ [<-|[]].
  - intros _. destruct (prev s); [intros []|by intros [<-|[]]].
  - intros _. destruct (xorb _ _); [by intros [<-|[]]|intros []].
  - intros [Ha Hb]%andb_true_iff (s1 & H1 & H2)%in_flat_map.
    apply IHr1 in H1 as ->; auto.
Qed.

Lemma first_run r : forall p s s',
  first r = Some p -> In s' (run false r s) ->
  exists c t, rest s = c :: t /\ p c = true.
Proof.
  induction r; intros p s s'; simpl; try discriminate.
  - intros [= <-] (c' & H & Hc & _)%in_step1. eauto.
  - intros [= <-] (c' & H & Hc & _)%in_step1. eauto.
  - intros Hp (s1 & H1 & H2)%in_flat_map.
    destruct (zero_width r1) eqn:Hz.
    + apply (zero_width_run false) in H1 as ->; eauto.
    + eauto.
  - destruct (first r1) as [p1|] eqn:E1; [|discriminate].
    destruct (first r2) as [p2|] eqn:E2; [|discriminate].
    intros [= <-] [H|H]%in_app_iff.
    + destruct (IHr1 _ _ _ eq_refl H) as (c & t & ? & Hc). exists c, t.
      by rewrite Hc.
    + destruct (IHr2 _ _ _ eq_refl H) as (c & t & ? & Hc). exists c, t.
      by rewrite Hc, orb_true_r.
  - intros [= <-] (w & Hr & Hne & Hall & _)%(in_plus false).
    destruct w as [|c w]; [done|]. simpl in Hall.
    apply andb_true_iff in Hall as [Hc _]. eauto.
  - intros Hp (s1 & <- & H)%in_map_iff. eauto.
Qed.

Lemma all_ascii_complete c : In c all_ascii.
Proof.
  unfold all_ascii. apply in_map_iff. exists (nat_of_ascii c). split.
  - apply ascii_nat_embedding.
  - apply in_seq. pose proof (nat_ascii_bounded c). lia.
Qed.

Lemma match_first r l m p :
  first r = Some p -> pmatch r l = Some m ->
  exists c l', l = String c l' /\ p c = true.
Proof.
  unfold pmatch, re_match, match_from. intros Hp Hm.
  destruct (head _) as [s'|] eqn:Hh; [|discriminate].
  apply head_In in Hh.
  destruct (first_run _ _ _ _ Hp Hh) as (c & t & Hr & Hc). simpl in Hr.
  destruct l as [|c' l']; [discriminate|]. simpl in Hr.
  injection Hr as -> _. eauto.
Qed.

(** Two patterns that start with different characters never match the
    same line. *)
Lemma first_disjoint r1 r2 p q l m :
  first r1 = Some p -> first r2 = Some q -> disjoint p q = true ->
  pmatch r1 l = Some m -> pmatch r2 l = None.
Proof.
  intros Hp Hq Hd Hm.
  destruct (pmatch r2 l) as [m2|] eqn:Hm2; [|done].
  destruct (match_first _ _ _ _ Hp Hm) as (c & l' & -> & Hc).
  destruct (match_first _ _ _ _ Hq Hm2) as (c2 & l2 & [= <- <-] & Hc2).
  unfold disjoint in Hd. rewrite forallb_forall in Hd.
  specialize (Hd c (all_ascii_complete c)). by rewrite Hc, Hc2 in Hd.
Qed.

(** *** One pattern matching wherever another does *)

Lemma below_refl r : below r r.
Proof. by intros s s'. Qed.

Lemma below_cat r1 r2 r1' r2' :
  below r1 r1' -> below r2 r2' -> below (Cat r1 r2) (Cat r1' r2').
Proof.
  intros H1 H2 s s'. simpl. rewrite !in_flat_map.
  intros (s1 & Ha & Hb). eauto.
Qed.

Lemma below_grp n r r' : below r r' -> below (Grp n r) (Grp n r').
Proof.
  intros H s s'. simpl. rewrite !in_map_iff. intros (s1 & <- & Ha). eauto.
Qed.

Lemma below_alt_r r r1 r2 : below r r2 -> below r (Alt r1 r2).
Proof. intros H s s' Hs. simpl. apply in_app_iff. right. auto. Qed.

Lemma below_alt_l r r1 r2 : below r r1 -> below r (Alt r1 r2).
Proof. intros H s s' Hs. simpl. apply in_app_iff. left. auto. Qed.

Lemma greedy_mono cs cs' r : forall p g s',
  (forall c, mem cs c = true -> mem cs' c = true) ->
  In s' (greedy cs p r g) -> In s' (greedy cs' p r g).
Proof.
  induction r as [|c r IH]; intros p g s' Hsub; simpl; [done|].
  destruct (mem cs c) eqn:Hc.
  - rewrite (Hsub _ Hc), !in_app_iff. intros [H|H]; auto.
  - intros [<-|[]]. destruct (mem cs' c); [|by left].
    apply in_app_iff. right. by left.
Qed.

Lemma below_plus cs cs' :
  (forall c, mem cs c = true -> mem cs' c = true) -> below (Plus cs) (Plus cs').
Proof.
  intros Hsub s s'. simpl. rewrite !in_flat_map. intros (s1 & H1 & H2).
  exists s1. split; [|by eapply greedy_mono].
  apply in_step1 in H1 as (c & Hr & Hc & Hp & Hg).
  apply in_step1. exists c. auto.
Qed.

Lemma below_match r1 r2 l m :
  below r1 r2 -> pmatch r1 l = Some m -> is_Some (pmatch r2 l).
Proof.
  unfold pmatch, re_match, match_from. intros Hb Hm.
  destruct (head (run false r1 _)) as [s'|] eqn:Hh; [|discriminate].
  apply head_In, Hb in Hh.
  destruct (run false r2 _); [done|]. simpl. eauto.
Qed.

End ReFacts.
Import ReFacts.

(** * Facts about the scanners *)

Lemma good_push_frame lang t f :
  good lang t -> (0 <= line f)%Z -> good lang (push_frame t f).
Proof.
  intros [Hl Hs] Hf. split; [done|]. simpl. apply Forall_app. auto.
Qed.

Lemma good_push_cause lang t c : good lang t -> good lang (push_cause t c).
Proof. by intros [Hl Hs]. Qed.

Lemma good_set_error lang t ty msg : good lang t -> good lang (set_error t ty msg).
Proof. by intros [Hl Hs]. Qed.

Lemma good_append_if_stack lang traces t :
  Forall (good lang) traces -> good lang t -> Forall (good lang) (append_if_stack traces t).
Proof.
  intros Hts Ht. unfold append_if_stack. destruct (stack t); [done|].
  apply Forall_app. auto.
Qed.

Lemma converts_ok r ks l m k e :
  converts r ks l = true -> pmatch r l = Some m -> In k ks ->
  int (group m k) = Raise e -> False.
Proof.
  unfold converts. intros Hc Hm Hk Hi. rewrite Hm in Hc.
  rewrite forallb_forall in Hc. specialize (Hc k Hk). by rewrite Hi in Hc.
Qed.

Lemma fits_python l m e :
  fits python l = true -> pmatch PATTERNS.python.file_line l = Some m ->
  int (group m 2) = Raise e -> False.
Proof. intros Hf Hm. eapply converts_ok; eauto. by left. Qed.

Lemma fits_javascript l m k e :
  fits javascript l = true -> pmatch PATTERNS.javascript.at_line l = Some m ->
  k = 3%nat \/ k = 4%nat -> int (group m k) = Raise e -> False.
Proof.
  intros [Hf _]%andb_true_iff Hm Hk. eapply converts_ok; eauto.
  simpl. destruct Hk; auto.
Qed.

Lemma fits_javascript_simple l m k e :
  fits javascript l = true -> pmatch PATTERNS.javascript.at_line_simple l = Some m ->
  k = 2%nat \/ k = 3%nat -> int (group m k) = Raise e -> False.
Proof.
  intros [_ Hf]%andb_true_iff Hm Hk. eapply converts_ok; eauto.
  simpl. destruct Hk; auto.
Qed.

Lemma fits_java l m e :
  fits java l = true -> pmatch PATTERNS.java.at_line l = Some m ->
  int (group m 3) = Raise e -> False.
Proof. intros Hf Hm. eapply converts_ok; eauto. by left. Qed.

Lemma fits_go l m e :
  fits go l = true -> pmatch PATTERNS.go.location l = Some m ->
  int (group m 2) = Raise e -> False.
Proof. intros Hf Hm. eapply converts_ok; eauto. by left. Qed.

(** A line on which the pattern does not match converts nothing. *)
Lemma converts_no_match r ks l : pmatch r l = None -> converts r ks l = true.
Proof. unfold converts. by intros ->. Qed.

(** A group of a match is no longer than the line. *)
Lemma run_caps_length ic N r : forall s s',
  In s' (run ic r s) ->
  (length (rest s) <= N)%nat ->
  Forall (fun c => (length c.2 <= N)%nat) (caps s) ->
  Forall (fun c => (length c.2 <= N)%nat) (caps s').
Proof.
  induction r; intros s s'; simpl.
  - by intros [<-|[]].
  - destruct (prev s); [intros []|by intros [<-|[]]].
  - destruct (xorb _ _); [by intros [<-|[]]|intros []].
  - intros (c' & _ & _ & _ & ->)%in_step1. auto.
  - intros (c' & _ & _ & _ & ->)%in_step1. auto.
  - intros (s1 & H1 & H2)%in_flat_map Hr Hc.
    eapply IHr2; eauto. destruct (run_suffix _ _ _ _ H1) as [w Hw].
    rewrite Hw, length_app in Hr. lia.
  - intros [H|H]%in_app_iff; eauto.
  - intros [H|[<-|[]]]%in_app_iff; eauto.
  - intros (w & _ & _ & _ & ->)%(in_plus ic). auto.
  - intros (w & _ & _ & ->)%in_greedy. auto.
  - intros (s1 & <- & H)%in_map_iff Hr Hc. simpl. constructor; [|eauto].
    simpl. unfold consumed. rewrite length_take. lia.
Qed.

Lemma group_length r l m k :
  pmatch r l = Some m -> (String.length (group m k) <= String.length l)%nat.
Proof.
  unfold pmatch, re_match, match_from. intros Hm.
  destruct (head _) as [s'|] eqn:Hh; [|discriminate].
  injection Hm as <-. apply head_In in Hh.
  pose proof (run_caps_length _ (String.length l) _ _ _ Hh) as Hc. simpl in Hc.
  rewrite string_length_chars in Hc. specialize (Hc ltac:(lia) ltac:(constructor)).
  unfold group, lookup_cap. simpl.
  destruct (List.find _ (caps s')) as [[n w]|] eqn:Hfind; simpl; [|lia].
  apply find_some in Hfind as [Hin _].
  rewrite Forall_forall in Hc. apply list_elem_of_In in Hin.
  specialize (Hc _ Hin). simpl in Hc.
  rewrite ?string_length_chars, ?list_ascii_of_string_of_list_ascii in *. lia.
Qed.

(** A line of at most 4300 characters holds no number that [int] refuses. *)
Lemma short_line_fits l lang :
  (String.length l <= int_max_str_digits)%nat -> fits lang l = true.
Proof.
  intros Hlen.
  assert (forall r ks, (forall k, In k ks -> sets k r = true /\ digits_at k r = true) ->
                       converts r ks l = true) as Hconv.
  { intros r ks Hks. unfold converts. destruct (pmatch r l) as [m|] eqn:Hm; [|done].
    apply forallb_forall. intros k Hk. destruct (Hks k Hk) as [Hs Hd].
    destruct (int_group_fits r k l m Hs Hd Hm) as [n ->]; [|done].
    pose proof (group_length r l m k Hm). lia. }
  destruct lang; simpl; rewrite ?andb_true_iff; repeat split; apply Hconv;
    intros k Hk; simpl in Hk; intuition (subst; by vm_compute).
Qed.

(** Closes a goal in which [int] raises on a line whose numbers fit. *)
Ltac number_fits Hfit :=
  match goal with
  | Hl : ?ls !! _ = Some ?l, Hm : pmatch ?r ?l = Some ?m,
    Hi : int (group ?m ?k) = Raise _ |- _ =>
      let H := fresh in
      pose proof (Forall_lookup_1 _ _ _ _ Hfit Hl) as H; simpl in H;
      exfalso;
      first [ exact (fits_python _ _ _ H Hm Hi)
            | eapply (fits_javascript _ _ _ _ H Hm); [|exact Hi]; by auto
            | eapply (fits_javascript_simple _ _ _ _ H Hm); [|exact Hi]; by auto
            | exact (fits_java _ _ _ H Hm Hi)
            | exact (fits_go _ _ _ H Hm Hi) ]
  end.

Section ScannerFacts.

Variable lines : list string.

(** ** InterpretedTraceback *)

(** The loop returns when the numbers of the declarations fit. *)
Lemma python_frames_total i trace traces :
  Forall (fun l => fits python l = true) lines ->
  exists i' traces', python_frames lines i trace traces = Ok (i', traces').
Proof.
  intros Hfit. funelim (python_frames lines i trace traces); eauto.
  number_fits Hfit.
Qed.

Lemma python_frames_good i trace traces i' traces' :
  python_frames lines i trace traces = Ok (i', traces') ->
  good python trace -> Forall (good python) traces -> Forall (good python) traces'.
Proof.
  funelim (python_frames lines i trace traces); intros Hr Ht Hts;
    try discriminate; try (by injection Hr as <- <-).
  - eapply H; eauto. apply good_push_frame; [done|]. simpl. by eapply int_nonneg.
  - injection Hr as <- <-. apply Forall_app. split; [done|].
    apply Forall_singleton. by apply good_set_error.
Qed.

Lemma python_scan_total i traces :
  Forall (fun l => fits python l = true) lines ->
  exists traces', python_scan lines i traces = Ok traces'.
Proof.
  intros Hfit. funelim (python_scan lines i traces); eauto.
  destruct (python_frames_total (i + 1) new_python traces Hfit) as (? & ? & ?).
  congruence.
Qed.

Lemma python_scan_good i traces traces' :
  python_scan lines i traces = Ok traces' ->
  Forall (good python) traces -> Forall (good python) traces'.
Proof.
  funelim (python_scan lines i traces); intros Hr Hts; try discriminate;
    try (by injection Hr as <-); eauto.
  eapply H; eauto. eapply python_frames_good; eauto. by split.
Qed.

Lemma python_frames_end i trace traces :
  lines !! i = None -> python_frames lines i trace traces = Ok (i, traces).
Proof. intros Hi. funelim (python_frames lines i trace traces); congruence. Qed.

(** A declaration line takes the line after it along, whatever it is. *)
Lemma python_frames_step i l file_match line_num trace traces :
  lines !! i = Some l ->
  pmatch PATTERNS.python.file_line l = Some file_match ->
  int (group file_match 2) = Ok line_num ->
  python_frames lines i trace traces =
  python_frames lines (i + 2)
    (push_frame trace
       (MkFrame (group file_match 1) line_num (Some (group file_match 3))
                None None
                (Some (match lines !! (i + 1) with
                       | Some nxt => strip nxt
                       | None => ""
                       end))))
    traces.
Proof.
  intros Hi Hm Hn.
  funelim (python_frames lines i trace traces); congruence.
Qed.

(** A declaration whose number [int] refuses makes the loop raise. *)
Lemma python_frames_raise i l file_match e trace traces :
  lines !! i = Some l ->
  pmatch PATTERNS.python.file_line l = Some file_match ->
  int (group file_match 2) = Raise e ->
  python_frames lines i trace traces = Raise e.
Proof.
  intros Hi Hm Hn.
  funelim (python_frames lines i trace traces); try congruence.
Qed.

Lemma python_scan_raise i l start_match e traces :
  lines !! i = Some l ->
  pmatch PATTERNS.python.traceback_start l = Some start_match ->
  python_frames lines (i + 1) new_python traces = Raise e ->
  python_scan lines i traces = Raise e.
Proof.
  intros Hi Hm Hf. funelim (python_scan lines i traces); congruence.
Qed.

(** A line that declares no frame ends the loop; the trace is appended
    exactly when that line is a trailer. *)
Lemma python_frames_exit i l trace traces :
  lines !! i = Some l ->
  pmatch PATTERNS.python.file_line l = None ->
  python_frames lines i trace traces =
  Ok (i, match pmatch PATTERNS.python.error_line l with
         | Some error_match =>
             traces ++ [set_error trace (group error_match 1) (group error_match 2)]
         | None => traces
         end).
Proof.
  intros Hi Hm.
  funelim (python_frames lines i trace traces); try congruence.
  - assert (l0 = l) as -> by congruence. by rewrite Heq.
  - assert (l0 = l) as -> by congruence. by rewrite Heq.
Qed.

Lemma python_scan_end i traces :
  lines !! i = None -> python_scan lines i traces = Ok traces.
Proof. intros Hi. funelim (python_scan lines i traces); congruence. Qed.

Lemma python_scan_skip i l traces :
  lines !! i = Some l ->
  pmatch PATTERNS.python.traceback_start l = None ->
  python_scan lines i traces = python_scan lines (i + 1) traces.
Proof. intros Hi Hm. funelim (python_scan lines i traces); congruence. Qed.

Lemma python_scan_start i l start_match i' traces traces' :
  lines !! i = Some l ->
  pmatch PATTERNS.python.traceback_start l = Some start_match ->
  python_frames lines (i + 1) new_python traces = Ok (i', traces') ->
  python_scan lines i traces = python_scan lines (i' + 1) traces'.
Proof.
  intros Hi Hm Hf. funelim (python_scan lines i traces); congruence.
Qed.

(** Without a start line the scanner finds nothing. *)
Lemma python_scan_none i traces :
  (forall l, l ∈ lines -> pmatch PATTERNS.python.traceback_start l = None) ->
  python_scan lines i traces = Ok traces.
Proof.
  intros Hno. funelim (python_scan lines i traces); auto.
  all: pose proof (Hno _ (list_elem_of_lookup_2 _ _ _ Hl)); congruence.
Qed.

(** ** RuntimeStackError *)

Lemma javascript_frames_total i trace :
  Forall (fun l => fits javascript l = true) lines ->
  exists i' trace', javascript_frames lines i trace = Ok (i', trace').
Proof.
  intros Hfit. funelim (javascript_frames lines i trace); eauto; number_fits Hfit.
Qed.

Lemma javascript_frames_good i trace i' trace' :
  javascript_frames lines i trace = Ok (i', trace') ->
  good javascript trace -> good javascript trace'.
Proof.
  funelim (javascript_frames lines i trace); intros Hr Ht;
    try discriminate; try (by injection Hr as <- <-).
  all: eapply H; eauto; apply good_push_frame; [done|]; simpl; by eapply int_nonneg.
Qed.

Lemma javascript_scan_total i traces :
  Forall (fun l => fits javascript l = true) lines ->
  exists traces', javascript_scan lines i traces = Ok traces'.
Proof.
  intros Hfit. funelim (javascript_scan lines i traces); eauto.
  destruct (javascript_frames_total (i + 1) (new_javascript error_match) Hfit)
    as (? & ? & ?).
  congruence.
Qed.

Lemma javascript_scan_good i traces traces' :
  javascript_scan lines i traces = Ok traces' ->
  Forall (good javascript) traces -> Forall (good javascript) traces'.
Proof.
  funelim (javascript_scan lines i traces); intros Hr Hts; try discriminate;
    try (by injection Hr as <-); eauto.
  eapply H; eauto. apply good_append_if_stack; [done|].
  eapply javascript_frames_good; eauto. by split.
Qed.

Lemma javascript_frames_end i trace :
  lines !! i = None -> javascript_frames lines i trace = Ok (i, trace).
Proof. intros Hi. funelim (javascript_frames lines i trace); congruence. Qed.

(** A line that matches neither frame form ends the loop. *)
Lemma javascript_frames_exit i l trace :
  lines !! i = Some l ->
  pmatch PATTERNS.javascript.at_line l = None ->
  pmatch PATTERNS.javascript.at_line_simple l = None ->
  javascript_frames lines i trace = Ok (i, trace).
Proof. intros Hi H1 H2. funelim (javascript_frames lines i trace); congruence. Qed.

Lemma javascript_frames_step i l trace :
  lines !! i = Some l ->
  javascript_frame_line l = true ->
  fits javascript l = true ->
  exists f, javascript_frames lines i trace =
            javascript_frames lines (i + 1) (add_frames trace [f]).
Proof.
  intros Hi Hm Hfit.
  funelim (javascript_frames lines i trace); try congruence; eauto.
  all: assert (l0 = l) as -> by congruence.
  all: try (exfalso;
            first [ eapply (fits_javascript l); [exact Hfit|eassumption| |eassumption]
                  | eapply (fits_javascript_simple l);
                    [exact Hfit|eassumption| |eassumption] ];
            by auto).
  unfold javascript_frame_line in Hm. rewrite Heq, Heq0 in Hm.
  apply orb_true_iff in Hm as [Hm|Hm]; apply bool_decide_eq_true in Hm as [? ?];
    discriminate.
Qed.

Lemma javascript_scan_end i traces :
  lines !! i = None -> javascript_scan lines i traces = Ok traces.
Proof. intros Hi. funelim (javascript_scan lines i traces); congruence. Qed.

Lemma javascript_scan_skip i l traces :
  lines !! i = Some l ->
  pmatch PATTERNS.javascript.error_line l = None ->
  javascript_scan lines i traces = javascript_scan lines (i + 1) traces.
Proof. intros Hi Hm. funelim (javascript_scan lines i traces); congruence. Qed.

Lemma javascript_scan_start i l error_match i' trace traces :
  lines !! i = Some l ->
  pmatch PATTERNS.javascript.error_line l = Some error_match ->
  javascript_frames lines (i + 1) (new_javascript error_match) = Ok (i', trace) ->
  javascript_scan lines i traces =
  javascript_scan lines (i' + 1) (append_if_stack traces trace).
Proof.
  intros Hi Hm Hf. funelim (javascript_scan lines i traces); congruence.
Qed.

Lemma javascript_scan_raise i l error_match e traces :
  lines !! i = Some l ->
  pmatch PATTERNS.javascript.error_line l = Some error_match ->
  javascript_frames lines (i + 1) (new_javascript error_match) = Raise e ->
  javascript_scan lines i traces = Raise e.
Proof.
  intros Hi Hm Hf. funelim (javascript_scan lines i traces); congruence.
Qed.

Lemma javascript_scan_none i traces :
  (forall l, l ∈ lines -> pmatch PATTERNS.javascript.error_line l = None) ->
  javascript_scan lines i traces = Ok traces.
Proof.
  intros Hno. funelim (javascript_scan lines i traces); auto.
  all: pose proof (Hno _ (list_elem_of_lookup_2 _ _ _ Hl)); congruence.
Qed.

(** Without frame lines every candidate of the scanner is dropped. *)
Lemma javascript_scan_no_frames i traces :
  (forall l, l ∈ lines -> javascript_frame_line l = false) ->
  javascript_scan lines i traces = Ok traces.
Proof.
  intros Hno. funelim (javascript_scan lines i traces); auto.
  - assert (javascript_frames lines (i + 1) (new_javascript error_match)
            = Ok (i + 1, new_javascript error_match)) as Hx.
    { destruct (lines !! (i + 1)) as [nxt|] eqn:Hn.
      - pose proof (Hno _ (list_elem_of_lookup_2 _ _ _ Hn)) as Hfl.
        apply orb_false_iff in Hfl as [Ha Hb].
        apply bool_decide_eq_false in Ha, Hb.
        apply javascript_frames_exit with nxt; [done| |].
        + destruct (pmatch PATTERNS.javascript.at_line nxt); [|done].
          by destruct Ha.
        + destruct (pmatch PATTERNS.javascript.at_line_simple nxt); [|done].
          by destruct Hb.
      - by apply javascript_frames_end. }
    assert (i' = (i + 1)%nat /\ trace = new_javascript error_match) as [-> ->]
      by (split; congruence).
    by apply H.
  - assert (javascript_frames lines (i + 1) (new_javascript error_match)
            = Ok (i + 1, new_javascript error_match)) as Hx; [|congruence].
    destruct (lines !! (i + 1)) as [nxt|] eqn:Hn.
    + pose proof (Hno _ (list_elem_of_lookup_2 _ _ _ Hn)) as Hfl.
      apply orb_false_iff in Hfl as [Ha Hb].
      apply bool_decide_eq_false in Ha, Hb.
      apply javascript_frames_exit with nxt; [done| |].
      * destruct (pmatch PATTERNS.javascript.at_line nxt); [|done].
        by destruct Ha.
      * destruct (pmatch PATTERNS.javascript.at_line_simple nxt); [|done].
        by destruct Hb.
    + by apply javascript_frames_end.
Qed.

(** ** ChainedException *)

Lemma java_frames_total i trace :
  Forall (fun l => fits java l = true) lines ->
  exists i' trace', java_frames lines i trace = Ok (i', trace').
Proof.
  intros Hfit. funelim (java_frames lines i trace); eauto; number_fits Hfit.
Qed.

Lemma java_frames_good i trace i' trace' :
  java_frames lines i trace = Ok (i', trace') ->
  good java trace -> good java trace'.
Proof.
  funelim (java_frames lines i trace); intros Hr Ht;
    try discriminate; try (by injection Hr as <- <-).
  all: eapply H; eauto;
    first [ by apply good_push_cause
          | apply good_push_frame; [done|]; simpl; by eapply int_nonneg ].
Qed.

Lemma java_scan_total i traces :
  Forall (fun l => fits java l = true) lines ->
  exists traces', java_scan lines i traces = Ok traces'.
Proof.
  intros Hfit. funelim (java_scan lines i traces); eauto.
  destruct (java_frames_total (i + 1) (new_java exception_match) Hfit) as (? & ? & ?).
  congruence.
Qed.

Lemma java_scan_good i traces traces' :
  java_scan lines i traces = Ok traces' ->
  Forall (good java) traces -> Forall (good java) traces'.
Proof.
  funelim (java_scan lines i traces); intros Hr Hts; try discriminate;
    try (by injection Hr as <-); eauto.
  eapply H; eauto. apply Forall_app. split; [done|]. apply Forall_singleton.
  eapply java_frames_good; eauto. by split.
Qed.

Lemma java_frames_end i trace :
  lines !! i = None -> java_frames lines i trace = Ok (i, trace).
Proof. intros Hi. funelim (java_frames lines i trace); congruence. Qed.

(** A line that is neither a frame nor a cause ends the loop. *)
Lemma java_frames_exit i l trace :
  lines !! i = Some l ->
  pmatch PATTERNS.java.at_line l = None ->
  pmatch PATTERNS.java.caused_by l = None ->
  java_frames lines i trace = Ok (i, trace).
Proof. intros Hi H1 H2. funelim (java_frames lines i trace); congruence. Qed.

Lemma java_frames_at i l at_match line_num trace :
  lines !! i = Some l ->
  pmatch PATTERNS.java.at_line l = Some at_match ->
  int (group at_match 3) = Ok line_num ->
  java_frames lines i trace =
  java_frames lines (i + 1)
    (push_frame trace
       (MkFrame (group at_match 2) line_num None (Some (group at_match 1))
                None None)).
Proof.
  intros Hi Hm Hn. funelim (java_frames lines i trace); congruence.
Qed.

Lemma java_frames_raise i l at_match e trace :
  lines !! i = Some l ->
  pmatch PATTERNS.java.at_line l = Some at_match ->
  int (group at_match 3) = Raise e ->
  java_frames lines i trace = Raise e.
Proof. intros Hi Hm Hn. funelim (java_frames lines i trace); congruence. Qed.

(** A cause line is recorded and the loop goes on, frames or not. *)
Lemma java_frames_cause i l caused_match trace :
  lines !! i = Some l ->
  pmatch PATTERNS.java.at_line l = None ->
  pmatch PATTERNS.java.caused_by l = Some caused_match ->
  java_frames lines i trace =
  java_frames lines (i + 1)
    (push_cause trace (MkCause (group caused_match 1) (group caused_match 2))).
Proof. intros Hi H1 H2. funelim (java_frames lines i trace); congruence. Qed.

Lemma java_scan_end i traces :
  lines !! i = None -> java_scan lines i traces = Ok traces.
Proof. intros Hi. funelim (java_scan lines i traces); congruence. Qed.

Lemma java_scan_skip i l traces :
  lines !! i = Some l ->
  pmatch PATTERNS.java.exception_line l = None ->
  java_scan lines i traces = java_scan lines (i + 1) traces.
Proof. intros Hi Hm. funelim (java_scan lines i traces); congruence. Qed.

Lemma java_scan_start i l exception_match i' trace traces :
  lines !! i = Some l ->
  pmatch PATTERNS.java.exception_line l = Some exception_match ->
  java_frames lines (i + 1) (new_java exception_match) = Ok (i', trace) ->
  java_scan lines i traces = java_scan lines (i' + 1) (traces ++ [trace]).
Proof.
  intros Hi Hm Hf. funelim (java_scan lines i traces); congruence.
Qed.

Lemma java_scan_raise i l exception_match e traces :
  lines !! i = Some l ->
  pmatch PATTERNS.java.exception_line l = Some exception_match ->
  java_frames lines (i + 1) (new_java exception_match) = Raise e ->
  java_scan lines i traces = Raise e.
Proof.
  intros Hi Hm Hf. funelim (java_scan lines i traces); congruence.
Qed.

Lemma java_scan_none i traces :
  (forall l, l ∈ lines -> pmatch PATTERNS.java.exception_line l = None) ->
  java_scan lines i traces = Ok traces.
Proof.
  intros Hno. funelim (java_scan lines i traces); auto.
  all: pose proof (Hno _ (list_elem_of_lookup_2 _ _ _ Hl)); congruence.
Qed.

(** The scanner only ever appends to the list it was given. *)
Lemma java_scan_extends i traces traces' :
  java_scan lines i traces = Ok traces' -> exists more, traces' = traces ++ more.
Proof.
  funelim (java_scan lines i traces); intros Hr; try discriminate; eauto.
  - injection Hr as <-. exists []. by rewrite app_nil_r.
  - destruct (H _ Hr) as [more ->]. rewrite <- app_assoc. eauto.
Qed.

(** ** PanicTrace *)

Lemma go_frames_total i trace :
  Forall (fun l => fits go l = true) lines ->
  exists i' trace', go_frames lines i trace = Ok (i', trace').
Proof.
  intros Hfit. funelim (go_frames lines i trace); eauto.
  pose proof (Forall_lookup_1 _ _ _ _ Hfit Heq1) as Hnxt.
  exfalso. eapply (fits_go nxt); eauto.
Qed.

Lemma go_frames_good i trace i' trace' :
  go_frames lines i trace = Ok (i', trace') ->
  good go trace -> good go trace'.
Proof.
  funelim (go_frames lines i trace); intros Hr Ht;
    try discriminate; try (by injection Hr as <- <-); eauto.
  eapply H; eauto. apply good_push_frame; [done|]. simpl. by eapply int_nonneg.
Qed.

Lemma go_scan_total i traces :
  Forall (fun l => fits go l = true) lines ->
  exists traces', go_scan lines i traces = Ok traces'.
Proof.
  intros Hfit. funelim (go_scan lines i traces); eauto.
  destruct (go_frames_total (i + 1) (new_go panic_match) Hfit) as (? & ? & ?).
  congruence.
Qed.

Lemma go_scan_good i traces traces' :
  go_scan lines i traces = Ok traces' ->
  Forall (good go) traces -> Forall (good go) traces'.
Proof.
  funelim (go_scan lines i traces); intros Hr Hts; try discriminate;
    try (by injection Hr as <-); eauto.
  eapply H; eauto. apply good_append_if_stack; [done|].
  eapply go_frames_good; eauto. by split.
Qed.

Lemma go_frames_end i trace :
  lines !! i = None -> go_frames lines i trace = Ok (i, trace).
Proof. intros Hi. funelim (go_frames lines i trace); congruence. Qed.

(** The goroutine header is stepped over. *)
Lemma go_frames_header i l header_match trace :
  lines !! i = Some l ->
  pmatch PATTERNS.go.goroutine l = Some header_match ->
  go_frames lines i trace = go_frames lines (i + 1) trace.
Proof. intros Hi Hm. funelim (go_frames lines i trace); congruence. Qed.

(** A line that starts no frame ends the loop only once a frame has been
    captured; before that it is stepped over. *)
Lemma go_frames_other i l trace :
  lines !! i = Some l ->
  pmatch PATTERNS.go.goroutine l = None ->
  pmatch PATTERNS.go.file_line l = None \/ lines !! (i + 1) = None ->
  go_frames lines i trace =
  match stack trace with
  | [] => go_frames lines (i + 1) trace
  | _ :: _ => Ok (i, trace)
  end.
Proof.
  intros Hi Hm Hor.
  funelim (go_frames lines i trace); try congruence.
  all: try (destruct Hor; congruence).
  all: try (by rewrite Heq).
  all: try (by rewrite Heq0).
Qed.

(** A call-site line whose next line is no location is stepped over. *)
Lemma go_frames_no_location i l func_match nxt trace :
  lines !! i = Some l ->
  pmatch PATTERNS.go.goroutine l = None ->
  pmatch PATTERNS.go.file_line l = Some func_match ->
  lines !! (i + 1) = Some nxt ->
  pmatch PATTERNS.go.location nxt = None ->
  go_frames lines i trace = go_frames lines (i + 1) trace.
Proof.
  intros Hi Hm Hf Hn Hl'. funelim (go_frames lines i trace); congruence.
Qed.

Lemma go_frames_frame i l func_match nxt loc_match line_num trace :
  lines !! i = Some l ->
  pmatch PATTERNS.go.goroutine l = None ->
  pmatch PATTERNS.go.file_line l = Some func_match ->
  lines !! (i + 1) = Some nxt ->
  pmatch PATTERNS.go.location nxt = Some loc_match ->
  int (group loc_match 2) = Ok line_num ->
  go_frames lines i trace =
  go_frames lines (i + 2)
    (push_frame trace
       (MkFrame (group loc_match 1) line_num (Some (group func_match 1))
                None None None)).
Proof.
  intros Hi Hm Hf Hn Hl' Hnum. funelim (go_frames lines i trace); congruence.
Qed.

Lemma go_frames_raise i l func_match nxt loc_match e trace :
  lines !! i = Some l ->
  pmatch PATTERNS.go.goroutine l = None ->
  pmatch PATTERNS.go.file_line l = Some func_match ->
  lines !! (i + 1) = Some nxt ->
  pmatch PATTERNS.go.location nxt = Some loc_match ->
  int (group loc_match 2) = Raise e ->
  go_frames lines i trace = Raise e.
Proof.
  intros Hi Hm Hf Hn Hl' Hnum. funelim (go_frames lines i trace); congruence.
Qed.

Lemma go_scan_end i traces :
  lines !! i = None -> go_scan lines i traces = Ok traces.
Proof. intros Hi. funelim (go_scan lines i traces); congruence. Qed.

Lemma go_scan_skip i l traces :
  lines !! i = Some l ->
  pmatch PATTERNS.go.panic_line l = None ->
  go_scan lines i traces = go_scan lines (i + 1) traces.
Proof. intros Hi Hm. funelim (go_scan lines i traces); congruence. Qed.

Lemma go_scan_start i l panic_match i' trace traces :
  lines !! i = Some l ->
  pmatch PATTERNS.go.panic_line l = Some panic_match ->
  go_frames lines (i + 1) (new_go panic_match) = Ok (i', trace) ->
  go_scan lines i traces = go_scan lines (i' + 1) (append_if_stack traces trace).
Proof.
  intros Hi Hm Hf. funelim (go_scan lines i traces); congruence.
Qed.

Lemma go_scan_raise i l panic_match e traces :
  lines !! i = Some l ->
  pmatch PATTERNS.go.panic_line l = Some panic_match ->
  go_frames lines (i + 1) (new_go panic_match) = Raise e ->
  go_scan lines i traces = Raise e.
Proof.
  intros Hi Hm Hf. funelim (go_scan lines i traces); congruence.
Qed.

Lemma go_scan_none i traces :
  (forall l, l ∈ lines -> pmatch PATTERNS.go.panic_line l = None) ->
  go_scan lines i traces = Ok traces.
Proof.
  intros Hno. funelim (go_scan lines i traces); auto.
  all: pose proof (Hno _ (list_elem_of_lookup_2 _ _ _ Hl)); congruence.
Qed.

End ScannerFacts.

(** ** parse_text *)

(** [parse_text] is the outputs of the four scanners one after the other;
    a scanner that raises makes [parse_text] raise. *)
Lemma parse_text_chain text :
  parse_text text =
  (let* a := _parse_python text in
   let* b := _parse_javascript text in
   let* c := _parse_java text in
   let* d := _parse_go text in
   Ok (a ++ b ++ c ++ d)).
Proof.
  unfold parse_text, PATTERNS_keys, extend_all, scanner.
  destruct (_parse_python text) as [a|ea]; [|done].
  destruct (_parse_javascript text) as [b|eb]; [|done].
  destruct (_parse_java text) as [c|ec]; [|done].
  destruct (_parse_go text) as [d|ed]; [|done].
  simpl. by rewrite <- !app_assoc.
Qed.

Lemma parse_text_Ok text traces :
  parse_text text = Ok traces ->
  exists a b c d,
    (_parse_python text = Ok a /\ _parse_javascript text = Ok b /\
     _parse_java text = Ok c /\ _parse_go text = Ok d) /\
    traces = a ++ b ++ c ++ d.
Proof.
  rewrite parse_text_chain.
  destruct (_parse_python text) as [a|ea]; [|done].
  destruct (_parse_javascript text) as [b|eb]; [|done].
  destruct (_parse_java text) as [c|ec]; [|done].
  destruct (_parse_go text) as [d|ed]; [|done].
  simpl. intros [= <-]. by exists a, b, c, d.
Qed.

Lemma parse_text_parts text a b c d :
  _parse_python text = Ok a -> _parse_javascript text = Ok b ->
  _parse_java text = Ok c -> _parse_go text = Ok d ->
  parse_text text = Ok (a ++ b ++ c ++ d).
Proof. intros Ha Hb Hc Hd. rewrite parse_text_chain. by rewrite Ha, Hb, Hc, Hd. Qed.

Lemma scanner_good lang text traces :
  scanner lang text = Ok traces -> Forall (good lang) traces.
Proof.
  destruct lang; simpl; intros H.
  - by eapply python_scan_good.
  - by eapply javascript_scan_good.
  - by eapply java_scan_good.
  - by eapply go_scan_good.
Qed.

(** A scanner returns when the numbers of the lines fit. *)
Lemma scanner_total lang text :
  Forall (fun l => fits lang l = true) (split_lines text) ->
  exists traces, scanner lang text = Ok traces.
Proof.
  destruct lang; simpl; intros H.
  - by apply python_scan_total.
  - by apply javascript_scan_total.
  - by apply java_scan_total.
  - by apply go_scan_total.
Qed.

Lemma numbers_fit_fits l lang : numbers_fit l = true -> fits lang l = true.
Proof.
  unfold numbers_fit. rewrite forallb_forall. intros H. apply H.
  destruct lang; simpl; auto.
Qed.

Lemma parse_text_total text :
  Forall (fun l => numbers_fit l = true) (split_lines text) ->
  exists traces, parse_text text = Ok traces.
Proof.
  intros H.
  assert (forall lang, exists traces, scanner lang text = Ok traces) as Hs.
  { intros lang. apply scanner_total. eapply Forall_impl; [exact H|].
    intros l. apply numbers_fit_fits. }
  destruct (Hs python) as [a Ha], (Hs javascript) as [b Hb],
           (Hs java) as [c Hc], (Hs go) as [d Hd].
  exists (a ++ b ++ c ++ d). by apply parse_text_parts.
Qed.

(** ** LogAnalyzer *)

Lemma sum_values_incr k d : sum_values (incr k d) = S (sum_values d).
Proof.
  unfold sum_values, incr.
  assert (forall (m : gmap string nat) (j1 j2 : string) (z1 z2 y : nat),
             (z1 + (z2 + y) = z2 + (z1 + y))%nat) as Hcomm by (intros; lia).
  destruct (d !! k) as [v|] eqn:Hk; simpl.
  - rewrite <- (insert_delete_eq d k (S v)).
    rewrite map_fold_insert_L; [|intros; lia|by rewrite lookup_delete_eq].
    rewrite (map_fold_delete_L _ _ k v d); [lia|intros; lia|done].
  - rewrite map_fold_insert_L; [lia|intros; lia|done].
Qed.

Lemma analyze_lines_total pattern lines : forall i a,
  total_lines (analyze_lines pattern i lines a) = total_lines a.
Proof.
  induction lines as [|l lines IH]; intros i a; simpl; [done|].
  by rewrite IH.
Qed.

Lemma analyze_lines_errors pattern lines : forall i a,
  sum_values (errors (analyze_lines pattern i lines a)) =
  (sum_values (errors a) + length (List.filter is_error lines))%nat.
Proof.
  induction lines as [|l lines IH]; intros i a; simpl; [lia|].
  rewrite IH. simpl. destruct (is_error l); simpl; [rewrite sum_values_incr|]; lia.
Qed.

Lemma analyze_lines_warnings pattern lines : forall i a,
  sum_values (warnings (analyze_lines pattern i lines a)) =
  (sum_values (warnings a) + length (List.filter is_warning lines))%nat.
Proof.
  induction lines as [|l lines IH]; intros i a; simpl; [lia|].
  rewrite IH. simpl. destruct (is_warning l); simpl; [rewrite sum_values_incr|]; lia.
Qed.

(** * The scanners on whole texts *)

(** C7: a text in which no line matches the start pattern of any of the
    four grammars makes [parse_text] return the empty list, and not raise. *)
Theorem C7_no_start_line_gives_empty_list (text : string) :
  (forall l, l ∈ split_lines text -> no_start_line l) ->
  parse_text text = Ok [].
Proof.
  intros Hno.
  unfold parse_text, PATTERNS_keys, extend_all, scanner.
  unfold _parse_python, _parse_javascript, _parse_java, _parse_go.
  rewrite python_scan_none by (intros l Hl; apply (Hno l Hl)). simpl.
  rewrite javascript_scan_none by (intros l Hl; apply (Hno l Hl)). simpl.
  rewrite java_scan_none by (intros l Hl; apply (Hno l Hl)). simpl.
  rewrite go_scan_none by (intros l Hl; apply (Hno l Hl)). done.
Qed.

Lemma C7_witness :
  (forall l, l ∈ split_lines plain_text -> no_start_line l) /\
  parse_text plain_text = Ok [].
Proof.
  assert (forall l, l ∈ split_lines plain_text -> no_start_line l) as Hno.
  { intros l Hl. vm_compute in Hl.
    repeat (apply elem_of_cons in Hl as [->|Hl]; [by vm_compute|]).
    by apply elem_of_nil in Hl. }
  split; [exact Hno|].
  exact (C7_no_start_line_gives_empty_list plain_text Hno).
Defined.

(** * Line numbers *)

Lemma good_line_numbers lang traces :
  Forall (good lang) traces -> line_numbers_from 0 traces.
Proof. intros H. eapply Forall_impl; [exact H|]. by intros t [_ Ht]. Qed.

(** C4, as stated, fails: the digits after [line] are converted as they
    are, and [0] is a run of digits. *)
Lemma C4_counterexample :
  exists traces, parse_text line_zero_text = Ok traces /\
                 ~ line_numbers_from 1 traces.
Proof.
  eexists. split; [by vm_compute|].
  intros H. apply Forall_cons in H as [H _]. simpl in H.
  apply Forall_cons in H as [H _]. simpl in H. lia.
Qed.

(** C4, amended: every frame of every trace in a list that one of the
    four scanners, or [parse_text], returns has a line number that is not
    negative (it is the value of the run of digits the frame pattern
    captured, so 0 is possible). *)
Theorem C4_line_numbers_not_negative (text : string) :
  (forall lang traces, scanner lang text = Ok traces -> line_numbers_from 0 traces) /\
  (forall traces, parse_text text = Ok traces -> line_numbers_from 0 traces).
Proof.
  assert (forall lang traces, scanner lang text = Ok traces ->
                              line_numbers_from 0 traces) as Hs.
  { intros lang traces H. eapply good_line_numbers, scanner_good, H. }
  split; [exact Hs|].
  intros traces (a & b & c & d & (Ha & Hb & Hc & Hd) & ->)%parse_text_Ok.
  unfold line_numbers_from. rewrite !Forall_app.
  split; [exact (Hs python _ Ha)|]. split; [exact (Hs javascript _ Hb)|].
  split; [exact (Hs java _ Hc)|exact (Hs go _ Hd)].
Qed.

Lemma C4_witness :
  let frame := MkFrame "gen.py" 0 (Some "<module>") None None (Some "pass") in
  let record := MkTrace python (Some "RuntimeError") (Some "boom") [frame] [] in
  scanner python line_zero_text = Ok [record] /\
  line_numbers_from 0 [record] /\
  exists traces, parse_text line_zero_text = Ok traces /\ line_numbers_from 0 traces.
Proof.
  intros frame record.
  destruct (C4_line_numbers_not_negative line_zero_text) as [Hs Hp].
  assert (scanner python line_zero_text = Ok [record]) as Hpy by (by vm_compute).
  split; [exact Hpy|]. split; [exact (Hs python _ Hpy)|].
  eexists. split; [by vm_compute|]. apply Hp. by vm_compute.
Defined.

(** * The frame loop of the InterpretedTraceback scanner *)

Lemma add_frames_nil t : add_frames t [] = t.
Proof. destruct t. unfold add_frames. simpl. by rewrite app_nil_r. Qed.

Lemma add_frames_push t f fs : add_frames (push_frame t f) fs = add_frames t (f :: fs).
Proof. unfold add_frames, push_frame. simpl. by rewrite <- app_assoc. Qed.

(** When the frame loop returns, it has taken the frames of the
    declarations it met, two lines each, has stopped at the first line that
    declares none, and has appended the trace exactly when that line is a
    trailer. *)
Lemma python_frames_spec lines i trace traces stop traces' :
  python_frames lines i trace traces = Ok (stop, traces') ->
  exists fs,
    declared_at lines i fs /\
    stop = (i + 2 * length fs)%nat /\
    (forall l, lines !! stop = Some l -> pmatch PATTERNS.python.file_line l = None) /\
    traces' = python_emit lines stop (add_frames trace fs) traces.
Proof.
  funelim (python_frames lines i trace traces); intros Hr; try discriminate.
  - injection Hr as <- <-. exists []. simpl. rewrite Nat.add_0_r, add_frames_nil.
    split; [by intros j f|]. split; [done|]. split; [congruence|].
    unfold python_emit, trailer_at. by rewrite e.
  - destruct (H _ _ Hr) as (fs & Hdecl & -> & Hstop & ->). eexists (_ :: fs).
    rewrite <- add_frames_push. simpl length.
    replace (i + 2 * S (length fs))%nat with (i + 2 + 2 * length fs)%nat by lia.
    split; [|by repeat split].
    intros [|j] f; simpl.
    + intros [= <-]. exists l, file_match. simpl.
      rewrite !Nat.add_0_r. by repeat split.
    + intros Hj. destruct (Hdecl j f Hj) as (l' & m' & H1 & H2 & H3 & H4).
      exists l', m'.
      replace (i + S (j + S (j + 0)))%nat with (i + 2 + 2 * j)%nat by lia.
      by repeat split.
  - injection Hr as <- <-. exists []. simpl. rewrite Nat.add_0_r, add_frames_nil.
    split; [by intros j f|]. split; [done|]. split; [congruence|].
    unfold python_emit, trailer_at. rewrite Hl. simpl. by rewrite Heq.
  - injection Hr as <- <-. exists []. simpl. rewrite Nat.add_0_r.
    split; [by intros j f|]. split; [done|]. split; [congruence|].
    unfold python_emit, trailer_at. rewrite Hl. simpl. by rewrite Heq.
Qed.

(** When the frame loop raises, it has met a declaration whose number
    [int] refuses. *)
Lemma python_frames_raises lines i trace traces e :
  python_frames lines i trace traces = Raise e ->
  exists j l file_match,
    (i <= j)%nat /\ lines !! j = Some l /\
    pmatch PATTERNS.python.file_line l = Some file_match /\
    int (group file_match 2) = Raise e.
Proof.
  funelim (python_frames lines i trace traces); intros Hr; try discriminate.
  - destruct (H _ Hr) as (j & l' & m & Hj & Hrest). exists j, l', m.
    split; [lia|done].
  - destruct e, e0. exists i, l, file_match. by repeat split.
Qed.

(** The traces found so far are handed through unchanged. *)
Lemma python_frames_after lines i trace traces :
  python_frames lines i trace traces =
  match python_frames lines i trace [] with
  | Ok (stop, more) => Ok (stop, traces ++ more)
  | Raise e => Raise e
  end.
Proof.
  funelim (python_frames lines i trace traces).
  - rewrite python_frames_end by done. by rewrite app_nil_r.
  - rewrite (python_frames_step lines i l file_match line_num trace []) by done.
    apply H.
  - by rewrite (python_frames_raise lines i l file_match e trace []).
  - rewrite (python_frames_exit lines i l trace []) by done. by rewrite Heq.
  - rewrite (python_frames_exit lines i l trace []) by done. rewrite Heq.
    by rewrite app_nil_r.
Qed.

Lemma after_app a b r : after (a ++ b) r = after a (after b r).
Proof. destruct r; simpl; [|done]. by rewrite app_assoc. Qed.

Lemma after_nil r : after [] r = r.
Proof. by destruct r. Qed.

(** What the scanner returns from cursor [i] on is what it had found
    before, followed by what it finds from [i] on. *)
Lemma python_scan_after lines i traces :
  python_scan lines i traces = after traces (python_scan lines i []).
Proof.
  remember (length lines - i)%nat as n eqn:Hn.
  revert i traces Hn. induction (lt_wf n) as [n _ IH]. intros i traces ->.
  destruct (lines !! i) as [l|] eqn:Hl.
  2:{ rewrite !python_scan_end by done. simpl. by rewrite app_nil_r. }
  pose proof (lookup_lt_Some _ _ _ Hl) as Hlt.
  destruct (pmatch PATTERNS.python.traceback_start l) as [m|] eqn:Hm.
  2:{ rewrite (python_scan_skip lines i l traces), (python_scan_skip lines i l [])
        by done.
      eapply IH; [|reflexivity]. lia. }
  pose proof (python_frames_after lines (i + 1) new_python traces) as Hx.
  destruct (python_frames lines (i + 1) new_python []) as [[stop more]|e] eqn:Hf.
  - pose proof (python_frames_cursor _ _ _ _ _ _ Hf) as Hc.
    rewrite (python_scan_start lines i l m stop traces (traces ++ more)) by done.
    rewrite (python_scan_start lines i l m stop [] more) by done.
    rewrite (IH (length lines - (stop + 1))%nat ltac:(lia) (stop + 1)%nat
               (traces ++ more) eq_refl).
    rewrite (IH (length lines - (stop + 1))%nat ltac:(lia) (stop + 1)%nat
               more eq_refl).
    apply after_app.
  - rewrite (python_scan_raise lines i l m e traces) by done.
    by rewrite (python_scan_raise lines i l m e []).
Qed.

(** C10, as stated, fails when the number of the declaration has more
    digits than [int] accepts: the conversion raises, no frame is stored
    and the loop does not go on from the line after next. *)
Lemma C10_counterexample :
  long_number !! 1%nat = Some long_declaration /\
  pmatch PATTERNS.python.file_line long_declaration <> None /\
  python_frames long_number 1 new_python [] = Raise ValueError /\
  _parse_python (join_lines long_number) = Raise ValueError /\
  ~ (exists frame,
       python_frames long_number 1 new_python [] =
       python_frames long_number (1 + 2) (add_frames new_python [frame]) []).
Proof.
  assert (python_frames long_number 1 new_python [] = Raise ValueError) as Hr
    by (by vm_compute).
  split; [done|]. split; [by vm_compute|]. split; [exact Hr|].
  split; [by vm_compute|].
  intros [frame H]. rewrite Hr in H.
  rewrite (python_frames_exit long_number 3 "ValueError: bad") in H;
    [discriminate|done|by vm_compute].
Qed.

(** C10, amended: when the line under the cursor is a frame declaration
    whose number [int] accepts, the frame loop stores a frame with the next
    line, whatever it is, as its snippet and goes on two lines below.  When
    the loop returns, every further frame comes from a declaration an even
    number of lines below the first: a declaration in second position is
    never a frame of its own. *)
Theorem C10_declaration_takes_next_line
    (lines : list string) (i : nat) (l : string) (file_match : Match)
    (line_num : Z) (trace : Trace) (traces : list Trace) :
  lines !! i = Some l ->
  pmatch PATTERNS.python.file_line l = Some file_match ->
  int (group file_match 2) = Ok line_num ->
  let frame := python_frame file_match line_num (lines !! (i + 1)%nat) in
  python_frames lines i trace traces =
    python_frames lines (i + 2) (add_frames trace [frame]) traces /\
  (forall stop traces',
     python_frames lines i trace traces = Ok (stop, traces') ->
     exists fs,
       declared_at lines (i + 2) fs /\
       stop = (i + 2 + 2 * length fs)%nat /\
       traces' = python_emit lines stop (add_frames trace (frame :: fs)) traces).
Proof.
  intros Hl Hm Hn frame.
  pose proof (python_frames_step lines i l file_match line_num trace traces Hl Hm Hn)
    as Hstep.
  split; [exact Hstep|].
  intros stop traces' Hr. rewrite Hstep in Hr.
  apply python_frames_spec in Hr as (fs & Hdecl & -> & _ & ->).
  exists fs. rewrite add_frames_push. by repeat split.
Qed.

Lemma C10_witness :
  let first_line := declaration "a.py" "1" "f" in
  let second_line := declaration "b.py" "2" "g" in
  let file_match := the_match PATTERNS.python.file_line first_line in
  let frame := python_frame file_match 1 (Some second_line) in
  pmatch PATTERNS.python.file_line second_line <> None /\
  python_frames two_declarations 1 new_python [] =
    python_frames two_declarations (1 + 2) (add_frames new_python [frame]) [] /\
  python_frames two_declarations 1 new_python [] =
    Ok (3%nat, [MkTrace python (Some "ValueError") (Some "bad") [frame] []]) /\
  exists fs,
    declared_at two_declarations (1 + 2) fs /\
    3%nat = (1 + 2 + 2 * length fs)%nat /\
    [MkTrace python (Some "ValueError") (Some "bad") [frame] []] =
      python_emit two_declarations 3 (add_frames new_python (frame :: fs)) [].
Proof.
  intros first_line second_line file_match frame.
  destruct (C10_declaration_takes_next_line two_declarations 1 first_line
              file_match 1 new_python [] eq_refl
              ltac:(by vm_compute) ltac:(by vm_compute)) as [Hstep Hall].
  assert (python_frames two_declarations 1 new_python [] =
          Ok (3%nat, [MkTrace python (Some "ValueError") (Some "bad") [frame] []]))
    as Hrun by (by vm_compute).
  split; [by vm_compute|]. split; [exact Hstep|]. split; [exact Hrun|].
  exact (Hall _ _ Hrun).
Defined.

(** The same on a whole text: the second declaration ends up as the
    snippet of the first. *)
Example two_declarations_one_frame :
  _parse_python (join_lines two_declarations) =
  Ok [MkTrace python (Some "ValueError") (Some "bad")
        [MkFrame "a.py" 1 (Some "f") None None
                 (Some ("File " ++ quoted "b.py" ++ ", line 2, in g")%string)]
        []].
Proof. by vm_compute. Qed.

(** * Trailer lines *)

(** C5, as stated, fails in its last part: a declaration whose number has
    more digits than [int] accepts makes the scanner raise [ValueError],
    although the frame run is followed by a trailer. *)
Lemma C5_counterexample :
  String.length (digits 4301) = 4301%nat /\
  pmatch PATTERNS.python.error_line "ValueError: bad" <> None /\
  _parse_python (join_lines long_number) = Raise ValueError /\
  ~ (exists traces, _parse_python (join_lines long_number) = Ok traces).
Proof.
  assert (_parse_python (join_lines long_number) = Raise ValueError) as Hr
    by (by vm_compute).
  split; [by vm_compute|]. split; [by vm_compute|]. split; [exact Hr|].
  intros [traces H]. rewrite Hr in H. discriminate.
Qed.

(** C5, amended: a candidate opened by a start line collects the frames
    [fs] of the declarations that follow.  When its frame loop returns, it
    has ended at the first line that declares no frame, and the candidate
    has become a record if and only if that line is a trailer; otherwise it
    is dropped, whatever the number of frames.  What the scanner returns
    is the traces found before, then that record if there is one, then what
    it finds below the line that ended the loop.  The loop raises only on a
    declaration whose number has more than 4300 digits, and then the
    scanner raises [ValueError]. *)
Theorem C5_trailer_decides_emission
    (lines : list string) (i : nat) (l : string) (start_match : Match)
    (traces : list Trace) :
  lines !! i = Some l ->
  pmatch PATTERNS.python.traceback_start l = Some start_match ->
  match python_frames lines (i + 1) new_python traces with
  | Ok (stop, traces') =>
      (exists fs,
         declared_at lines (i + 1) fs /\
         stop = (i + 1 + 2 * length fs)%nat /\
         (forall l', lines !! stop = Some l' ->
                     pmatch PATTERNS.python.file_line l' = None) /\
         traces' = emitted_after lines stop fs traces) /\
      python_scan lines i traces = after traces' (python_scan lines (stop + 1) [])
  | Raise e =>
      python_scan lines i traces = Raise e /\
      exists j l' file_match,
        (i < j)%nat /\ lines !! j = Some l' /\
        pmatch PATTERNS.python.file_line l' = Some file_match /\
        (int_max_str_digits < String.length (group file_match 2))%nat
  end.
Proof.
  intros Hi Hm.
  destruct (python_frames lines (i + 1) new_python traces) as [[stop traces']|e] eqn:Hf.
  - split.
    + destruct (python_frames_spec _ _ _ _ _ _ Hf) as (fs & Hdecl & -> & Hstop & ->).
      exists fs. by repeat split.
    + rewrite (python_scan_start lines i l start_match stop traces traces') by done.
      apply python_scan_after.
  - split; [by eapply python_scan_raise|].
    destruct (python_frames_raises _ _ _ _ _ Hf) as (j & l' & m & Hj & Hl' & Hm' & Hn).
    exists j, l', m. split; [lia|]. split; [done|]. split; [done|].
    by eapply (int_group_raise PATTERNS.python.file_line 2 l').
Qed.

Lemma C5_witness :
  let start := "Traceback (most recent call last):" in
  let frame := MkFrame "app.py" 10 (Some "main") None None (Some "run()") in
  let record := MkTrace python (Some "ValueError") (Some "bad input") [frame] [] in
  (* two frames and no trailer: the candidate is dropped *)
  ((exists fs,
      declared_at dropped_candidate (0 + 1) fs /\
      5%nat = (0 + 1 + 2 * length fs)%nat /\
      (forall l', dropped_candidate !! 5%nat = Some l' ->
                  pmatch PATTERNS.python.file_line l' = None) /\
      [] = emitted_after dropped_candidate 5 fs []) /\
   python_scan dropped_candidate 0 [] = Ok []) /\
  (* one frame and a trailer: the candidate is emitted *)
  ((exists fs,
      declared_at (split_lines python_example) (0 + 1) fs /\
      3%nat = (0 + 1 + 2 * length fs)%nat /\
      (forall l', split_lines python_example !! 3%nat = Some l' ->
                  pmatch PATTERNS.python.file_line l' = None) /\
      [record] = emitted_after (split_lines python_example) 3 fs []) /\
   python_scan (split_lines python_example) 0 [] = Ok [record]) /\
  (* a number of 4301 digits: the scanner raises *)
  python_scan long_number 0 [] = Raise ValueError.
Proof.
  intros start frame record.
  pose proof (C5_trailer_decides_emission dropped_candidate 0 start
                (the_match PATTERNS.python.traceback_start start) []
                eq_refl ltac:(by vm_compute)) as H1.
  pose proof (C5_trailer_decides_emission (split_lines python_example) 0 start
                (the_match PATTERNS.python.traceback_start start) []
                ltac:(by vm_compute) ltac:(by vm_compute)) as H2.
  pose proof (C5_trailer_decides_emission long_number 0 start
                (the_match PATTERNS.python.traceback_start start) []
                eq_refl ltac:(by vm_compute)) as H3.
  replace (python_frames dropped_candidate (0 + 1) new_python [])
    with (@Ok (nat * list Trace) (5%nat, [])) in H1 by (by vm_compute).
  replace (python_frames (split_lines python_example) (0 + 1) new_python [])
    with (@Ok (nat * list Trace) (3%nat, [record])) in H2 by (by vm_compute).
  replace (python_frames long_number (0 + 1) new_python [])
    with (@Raise (nat * list Trace) ValueError) in H3 by (by vm_compute).
  destruct H1 as [H1 H1'], H2 as [H2 H2'], H3 as [H3 _].
  split; [split; [exact H1|]|split; [split; [exact H2|]|exact H3]].
  - rewrite H1'. by vm_compute.
  - rewrite H2'. by vm_compute.
Defined.

(** Two frames and no trailer: nothing is emitted, and the trailer-like
    line further down is not looked at. *)
Example dropped_candidate_emits_nothing :
  python_frames dropped_candidate 1 new_python [] = Ok (5%nat, []) /\
  _parse_python (join_lines dropped_candidate) = Ok [].
Proof. split; by vm_compute. Qed.

(** * Counts of the log analyzer *)

(** C8: the counts in [errors] add up to the number of lines in which the
    error pattern is found, and those in [warnings] to the number of lines
    in which the warning pattern is found; a log of five lines with two
    error lines and one warning line gives 5, 2 and 1. *)
Theorem C8_counts_add_up_to_matching_lines (content : string) (pattern : option string) :
  let analysis := analyze_file content pattern in
  let lines := readlines content in
  (total_lines analysis = length lines /\
   sum_values (errors analysis) = length (List.filter is_error lines) /\
   sum_values (warnings analysis) = length (List.filter is_warning lines)) /\
  (let sample := analyze_file five_line_log None in
   total_lines sample = 5%nat /\
   sum_values (errors sample) = 2%nat /\
   sum_values (warnings sample) = 1%nat).
Proof.
  cbv zeta. split.
  - unfold analyze_file.
    rewrite analyze_lines_total, analyze_lines_errors, analyze_lines_warnings.
    simpl. unfold sum_values. by rewrite map_fold_empty.
  - by vm_compute.
Qed.

(** * Keys of the log analyzer *)

(** A separator before the newline of a line is not trimmed either. *)
Example trailing_separator_kept :
  _extract_error_message "ERROR: disk full -" = "disk full" /\
  _extract_error_message (String.append "ERROR: disk full -" (String LF ""))
    = String.append "disk full -" (String LF "").
Proof. split; by vm_compute. Qed.

(** C9: the two lines normalize to the same message, but the key of a
    line read from a file keeps the newline that [readlines] leaves at its
    end.  When the file does not end with a newline the last line has none,
    and the two lines are counted under two different keys. *)
Theorem C9_newline_stays_in_key :
  _extract_error_message disk_full_1 = "disk full" /\
  _extract_error_message disk_full_2 = "disk full" /\
  errors (analyze_file (join_lines [disk_full_1; disk_full_2; ""]) None)
    = {[ String.append "disk full" (String LF "") := 2%nat ]} /\
  errors (analyze_file (join_lines [disk_full_1; disk_full_2]) None)
    = {[ String.append "disk full" (String LF "") := 1%nat; "disk full" := 1%nat ]}.
Proof. repeat split; by vm_compute. Qed.

(** * One example of each format *)

(** C1, as stated, fails: with one example of each format, separated by
    blank lines, the Java scanner also takes the Python trailer and the
    JavaScript start line for exceptions of its own, and six traces come
    out. *)
Lemma C1_counterexample :
  valid_example python python_example /\
  valid_example javascript javascript_example /\
  valid_example java java_example /\
  valid_example go go_example /\
  (exists traces, parse_text one_of_each = Ok traces /\
     map language traces = [python; javascript; java; java; java; go]) /\
  ~ four_in_order one_of_each.
Proof.
  repeat split.
  - eexists. split; by vm_compute.
  - eexists. split; by vm_compute.
  - eexists. split; by vm_compute.
  - eexists. split; by vm_compute.
  - eexists. split; by vm_compute.
  - intros (a & b & c & d & H & _). vm_compute in H. discriminate.
Qed.

Lemma good_tagged lang traces : Forall (good lang) traces -> all_tagged lang traces.
Proof. intros H. eapply Forall_impl; [exact H|]. by intros t [Ht _]. Qed.

Lemma length_one {A} (l : list A) : length l = 1%nat -> exists x, l = [x].
Proof. destruct l as [|x [|y l]]; try discriminate. eauto. Qed.

(** C1, amended: [parse_text] runs the Python, the JavaScript, the Java
    and the Go scanner in that order and raises if one of them does; when
    the four return, it returns their traces one after the other, each
    tagged with the language of its scanner, and the result is four traces
    in that order exactly when each scanner finds one trace in the whole
    text. *)
Theorem C1_parse_text_concatenates_scanners (text : string) :
  parse_text text =
    (let* a := _parse_python text in
     let* b := _parse_javascript text in
     let* c := _parse_java text in
     let* d := _parse_go text in
     Ok (a ++ b ++ c ++ d)) /\
  (forall a b c d,
     _parse_python text = Ok a -> _parse_javascript text = Ok b ->
     _parse_java text = Ok c -> _parse_go text = Ok d ->
     (all_tagged python a /\ all_tagged javascript b /\
      all_tagged java c /\ all_tagged go d) /\
     (length a = 1%nat /\ length b = 1%nat /\ length c = 1%nat /\ length d = 1%nat
      <-> four_in_order text)).
Proof.
  split; [apply parse_text_chain|].
  intros a b c d Pa Pb Pc Pd.
  pose proof (parse_text_parts text a b c d Pa Pb Pc Pd) as Hp.
  pose proof (good_tagged _ _ (scanner_good python text a Pa)) as Ha.
  pose proof (good_tagged _ _ (scanner_good javascript text b Pb)) as Hb.
  pose proof (good_tagged _ _ (scanner_good java text c Pc)) as Hc.
  pose proof (good_tagged _ _ (scanner_good go text d Pd)) as Hd.
  split; [done|]. split.
  - intros (La & Lb & Lc & Ld).
    apply length_one in La as [ta ->], Lb as [tb ->], Lc as [tc ->], Ld as [td ->].
    exists ta, tb, tc, td. split; [done|].
    apply Forall_inv in Ha, Hb, Hc, Hd. done.
  - intros (ta & tb & tc & td & Hr & Ta & Tb & Tc & Td).
    rewrite Hp in Hr. injection Hr as Hr.
    assert (forall lang l t, all_tagged lang l -> t ∈ l -> language t = lang) as Htag.
    { intros lang l t Hl Ht. unfold all_tagged in Hl. rewrite Forall_forall in Hl. auto. }
    destruct a as [|a1 a]; simpl in Hr.
    { (* no Python trace: the first trace would not be tagged python *)
      assert (ta ∈ b ++ c ++ d) as Hin by (rewrite Hr; apply elem_of_cons; auto).
      rewrite !elem_of_app in Hin.
      destruct Hin as [Hin|[Hin|Hin]];
        [apply (Htag _ _ _ Hb) in Hin|apply (Htag _ _ _ Hc) in Hin
        |apply (Htag _ _ _ Hd) in Hin]; congruence. }
    injection Hr as -> Hr.
    destruct a as [|a2 a]; simpl in Hr.
    2:{ injection Hr as -> Hr. apply Forall_cons in Ha as [_ Ha].
        apply Forall_cons in Ha as [Ha _]. congruence. }
    destruct b as [|b1 b]; simpl in Hr.
    { assert (tb ∈ c ++ d) as Hin by (rewrite Hr; apply elem_of_cons; auto).
      rewrite !elem_of_app in Hin.
      destruct Hin as [Hin|Hin];
        [apply (Htag _ _ _ Hc) in Hin|apply (Htag _ _ _ Hd) in Hin]; congruence. }
    injection Hr as -> Hr.
    destruct b as [|b2 b]; simpl in Hr.
    2:{ injection Hr as -> Hr. apply Forall_cons in Hb as [_ Hb].
        apply Forall_cons in Hb as [Hb _]. congruence. }
    destruct c as [|c1 c]; simpl in Hr.
    { assert (tc ∈ d) as Hin by (rewrite Hr; apply elem_of_cons; auto).
      apply (Htag _ _ _ Hd) in Hin. congruence. }
    injection Hr as -> Hr.
    destruct c as [|c2 c]; simpl in Hr.
    2:{ injection Hr as -> Hr. apply Forall_cons in Hc as [_ Hc].
        apply Forall_cons in Hc as [Hc _]. congruence. }
    destruct d as [|d1 [|d2 d]]; simpl in Hr; try discriminate. done.
Qed.

Lemma C1_witness :
  (exists a b c d,
     _parse_python one_per_scanner = Ok [a] /\
     _parse_javascript one_per_scanner = Ok [b] /\
     _parse_java one_per_scanner = Ok [c] /\
     _parse_go one_per_scanner = Ok [d] /\
     parse_text one_per_scanner = Ok [a; b; c; d]) /\
  four_in_order one_per_scanner /\
  parse_text (join_lines long_number) = Raise ValueError.
Proof.
  destruct (C1_parse_text_concatenates_scanners one_per_scanner) as [Hchain Hall].
  destruct (C1_parse_text_concatenates_scanners (join_lines long_number))
    as [Hlong _].
  assert (exists a b c d,
            _parse_python one_per_scanner = Ok [a] /\
            _parse_javascript one_per_scanner = Ok [b] /\
            _parse_java one_per_scanner = Ok [c] /\
            _parse_go one_per_scanner = Ok [d]) as (a & b & c & d & Pa & Pb & Pc & Pd).
  { clear. do 4 eexists.
    split; [vm_compute; reflexivity|]. split; [vm_compute; reflexivity|].
    split; vm_compute; reflexivity. }
  destruct (Hall _ _ _ _ Pa Pb Pc Pd) as [_ [Hfour _]].
  assert (parse_text one_per_scanner = Ok [a; b; c; d]) as Hp.
  { rewrite Hchain, Pa, Pb, Pc, Pd. reflexivity. }
  assert (_parse_python (join_lines long_number) = Raise ValueError) as Hr.
  { clear. vm_compute. reflexivity. }
  split.
  - exists a, b, c, d. exact (conj Pa (conj Pb (conj Pc (conj Pd Hp)))).
  - split.
    + apply Hfour. clear. split; [reflexivity|]. split; [reflexivity|].
      split; reflexivity.
    + rewrite Hlong, Hr. reflexivity.
Defined.

(** * A start line without frames *)

(** A JavaScript start line is also a Java start line: [\w+Error] is a
    special case of [[\w\.]+(?:Exception|Error)]. *)
Lemma javascript_start_is_java_start l m :
  pmatch PATTERNS.javascript.error_line l = Some m ->
  is_Some (pmatch PATTERNS.java.exception_line l).
Proof.
  apply below_match.
  apply below_cat; [apply below_refl|].
  apply below_cat; [|apply below_refl].
  apply below_grp, below_cat.
  - apply below_plus. intros c Hc. simpl in *. by rewrite Hc.
  - apply below_alt_r, below_refl.
Qed.

(** A JavaScript start line begins with a word character, a frame line
    with a blank. *)
Lemma javascript_start_is_no_frame l m :
  pmatch PATTERNS.javascript.error_line l = Some m ->
  javascript_frame_line l = false.
Proof.
  intros Hm. unfold javascript_frame_line.
  rewrite (first_disjoint PATTERNS.javascript.error_line PATTERNS.javascript.at_line
             (mem Word) (mem Space) l m eq_refl eq_refl (ltac:(by vm_compute)) Hm).
  rewrite (first_disjoint PATTERNS.javascript.error_line
             PATTERNS.javascript.at_line_simple
             (mem Word) (mem Space) l m eq_refl eq_refl (ltac:(by vm_compute)) Hm).
  apply orb_false_iff. split; apply bool_decide_eq_false; by intros [? ?].
Qed.

(** C2, as stated, fails: the start line of a JavaScript error is a start
    line for the Java scanner too, and that scanner keeps a candidate
    without frames. *)
Lemma C2_counterexample :
  split_lines lone_start_line = [lone_start_line] /\
  pmatch PATTERNS.javascript.error_line lone_start_line <> None /\
  parse_text lone_start_line =
    Ok [MkTrace java (Some "TypeError") (Some "run is not a function") [] []] /\
  parse_text lone_start_line <> Ok [].
Proof. repeat split; by vm_compute. Qed.

(** A line that matches a pattern which begins with no blank is no frame
    line of any scanner: it holds no number to convert. *)
Lemma no_blank_start_fits r p l m :
  first r = Some p -> disjoint p (mem Space) = true ->
  pmatch r l = Some m -> numbers_fit l = true.
Proof.
  intros Hp Hd Hm.
  assert (forall r2, first r2 = Some (mem Space) -> pmatch r2 l = None) as Hno.
  { intros r2 H2. by apply (first_disjoint r r2 p (mem Space) l m). }
  unfold numbers_fit. simpl.
  rewrite !(converts_no_match _ _ l) by (by apply Hno). done.
Qed.

(** C2, amended: for a text that is a JavaScript start line followed by
    lines none of which matches a frame pattern, the JavaScript scanner
    returns no trace.  Whenever [parse_text] returns on such a text, its
    result has no trace tagged javascript and has a trace tagged java, for
    the same start line; and it does return when the numbers on the frame
    lines of the other formats are within the limit of [int]. *)
Theorem C2_no_frame_lines_no_javascript_trace
    (text start : string) (others : list string) (error_match : Match) :
  split_lines text = start :: others ->
  pmatch PATTERNS.javascript.error_line start = Some error_match ->
  (forall l, l ∈ others -> javascript_frame_line l = false) ->
  _parse_javascript text = Ok [] /\
  (forall traces,
     parse_text text = Ok traces ->
     Forall (fun t => language t <> javascript) traces /\
     exists t, t ∈ traces /\ language t = java) /\
  (Forall (fun l => numbers_fit l = true) others ->
   exists traces, parse_text text = Ok traces).
Proof.
  intros Hsplit Hstart Hothers.
  assert (_parse_javascript text = Ok []) as Hjs.
  { unfold _parse_javascript. apply javascript_scan_no_frames.
    rewrite Hsplit. intros l [->|Hl]%elem_of_cons; [|auto].
    by eapply javascript_start_is_no_frame. }
  split; [exact Hjs|]. split.
  - intros traces (a & b & c & d & (Ha & Hb & Hc & Hd) & ->)%parse_text_Ok.
    assert (b = []) as -> by congruence.
    pose proof (good_tagged _ _ (scanner_good python text a Ha)) as Ta.
    pose proof (good_tagged _ _ (scanner_good java text c Hc)) as Tc.
    pose proof (good_tagged _ _ (scanner_good go text d Hd)) as Td.
    split.
    + simpl. rewrite !Forall_app.
      repeat split; (eapply Forall_impl; [eassumption|]); simpl; congruence.
    + destruct (javascript_start_is_java_start _ _ Hstart) as [em Hem].
      unfold _parse_java in Hc. rewrite Hsplit in Hc.
      destruct (java_frames (start :: others) (0 + 1) (new_java em))
        as [[i' trace]|e] eqn:Hf.
      2:{ rewrite (java_scan_raise (start :: others) 0 start em e []
                     eq_refl Hem Hf) in Hc. discriminate. }
      rewrite (java_scan_start (start :: others) 0 start em i' trace []
                 eq_refl Hem Hf) in Hc.
      destruct (java_scan_extends _ _ _ _ Hc) as [more ->].
      apply Forall_inv in Tc.
      exists trace. split; [|exact Tc].
      simpl. rewrite elem_of_app. right. apply elem_of_cons. by left.
  - intros Hfit. apply parse_text_total. rewrite Hsplit.
    apply Forall_cons. split; [|exact Hfit].
    by apply (no_blank_start_fits PATTERNS.javascript.error_line (mem Word)
                start error_match).
Qed.

Lemma C2_witness :
  let start := "ReferenceError: x is not defined" in
  let record :=
    MkTrace java (Some "ReferenceError") (Some "x is not defined") [] [] in
  _parse_javascript start_then_text = Ok [] /\
  parse_text start_then_text = Ok [record] /\
  Forall (fun t => language t <> javascript) [record] /\
  (exists t, t ∈ [record] /\ language t = java) /\
  exists traces, parse_text start_then_text = Ok traces.
Proof.
  intros start record.
  destruct (C2_no_frame_lines_no_javascript_trace start_then_text start
              ["  see the log"; "bye"]
              (the_match PATTERNS.javascript.error_line start))
    as (Hjs & Hall & Htotal).
  - reflexivity.
  - vm_compute. reflexivity.
  - intros l Hl.
    repeat (apply elem_of_cons in Hl as [->|Hl]; [vm_compute; reflexivity|]).
    by apply elem_of_nil in Hl.
  - assert (parse_text start_then_text = Ok [record]) as Hp
      by (vm_compute; reflexivity).
    destruct (Hall _ Hp) as [Hno Hjava].
    split; [exact Hjs|]. split; [exact Hp|]. split; [exact Hno|].
    split; [exact Hjava|].
    apply Htotal. repeat constructor.
Defined.

(** * Leaving the frame loop *)

Lemma not_is_Some_None {A} (o : option A) : bool_decide (is_Some o) = false -> o = None.
Proof.
  intros H%bool_decide_eq_false. destruct o; [|done]. by destruct H.
Qed.

Lemma javascript_frames_stop lines i trace :
  (forall l, lines !! i = Some l -> javascript_frame_line l = false) ->
  javascript_frames lines i trace = Ok (i, trace).
Proof.
  intros Hno. destruct (lines !! i) as [l|] eqn:Hl.
  - specialize (Hno l eq_refl). apply orb_false_iff in Hno as [Ha Hb].
    apply javascript_frames_exit with l; auto using not_is_Some_None.
  - by apply javascript_frames_end.
Qed.

(** C3, as stated, fails for the Go scanner: the empty line that follows
    the panic line matches no pattern of the grammar, and the frame loop
    steps over it instead of ending there. *)
Lemma C3_counterexample :
  let trace := MkTrace go None (Some "assignment to entry in nil map") [] [] in
  go_panic_text !! 1%nat = Some "" /\
  pmatch PATTERNS.go.goroutine "" = None /\
  pmatch PATTERNS.go.file_line "" = None /\
  pmatch PATTERNS.go.location "" = None /\
  go_frames go_panic_text 1 trace =
    Ok (5%nat, push_frame trace
                 (MkFrame "/app/main.go" 10 (Some "main.run") None None None)) /\
  ~ (exists trace', go_frames go_panic_text 1 trace = Ok (1%nat, trace')).
Proof.
  intros trace. repeat split; try by vm_compute.
  intros [trace' H]. vm_compute in H. discriminate.
Qed.

(** C3, amended: in the Python, JavaScript and Java scanners the frame
    loop ends on the line under the cursor as soon as that line matches none
    of the patterns the loop tries (for Java these include the cause
    pattern).  The Go loop steps over a goroutine header.  It also steps
    over a line that matches the call-site pattern and is followed by a line
    that is no location, whether or not a frame has been captured.  On a
    line that does not match the call-site pattern, or that is the last
    line, it ends only if a frame has been captured already, and steps over
    the line otherwise. *)
Theorem C3_leaving_the_frame_loop
    (lines : list string) (i : nat) (l : string) (trace : Trace)
    (traces : list Trace) :
  lines !! i = Some l ->
  (pmatch PATTERNS.python.file_line l = None ->
   python_frames lines i trace traces = Ok (i, python_emit lines i trace traces)) /\
  (javascript_frame_line l = false ->
   javascript_frames lines i trace = Ok (i, trace)) /\
  (java_loop_line l = false -> java_frames lines i trace = Ok (i, trace)) /\
  (pmatch PATTERNS.go.goroutine l <> None ->
   go_frames lines i trace = go_frames lines (i + 1) trace) /\
  (pmatch PATTERNS.go.goroutine l = None ->
   pmatch PATTERNS.go.file_line l <> None ->
   (exists nxt, lines !! (i + 1)%nat = Some nxt /\
                pmatch PATTERNS.go.location nxt = None) ->
   go_frames lines i trace = go_frames lines (i + 1) trace) /\
  (pmatch PATTERNS.go.goroutine l = None ->
   pmatch PATTERNS.go.file_line l = None \/ lines !! (i + 1)%nat = None ->
   go_frames lines i trace =
   match stack trace with
   | [] => go_frames lines (i + 1) trace
   | _ :: _ => Ok (i, trace)
   end).
Proof.
  intros Hl. repeat split.
  - intros Hm. rewrite (python_frames_exit lines i l trace traces Hl Hm).
    unfold python_emit, trailer_at. rewrite Hl. done.
  - intros Hm. apply javascript_frames_stop. intros l' Hl'. congruence.
  - intros [Ha Hb]%orb_false_iff.
    apply java_frames_exit with l; auto using not_is_Some_None.
  - intros Hm. destruct (pmatch PATTERNS.go.goroutine l) as [hm|] eqn:Hg; [|done].
    by eapply go_frames_header.
  - intros Hg Hf (nxt & Hn & Hloc).
    destruct (pmatch PATTERNS.go.file_line l) as [fm|] eqn:Hfm; [|done].
    by eapply go_frames_no_location.
  - intros Hg Hor. by eapply go_frames_other.
Qed.

Lemma C3_witness :
  let trace := MkTrace go None (Some "assignment to entry in nil map") [] [] in
  let frame := MkFrame "/app/main.go" 10 (Some "main.run") None None None in
  let trace1 := add_frames trace [frame] in
  (* the empty line after a panic line, for the first three scanners *)
  python_frames go_panic_text 1 trace [] = Ok (1%nat, []) /\
  javascript_frames go_panic_text 1 trace = Ok (1%nat, trace) /\
  java_frames go_panic_text 1 trace = Ok (1%nat, trace) /\
  (* the Go loop: before the first frame the empty line is stepped over *)
  go_frames go_panic_text 1 trace = go_frames go_panic_text (1 + 1) trace /\
  (* the goroutine header is stepped over *)
  go_frames go_panic_text 2 trace = go_frames go_panic_text (2 + 1) trace /\
  (* a line with brackets and no location below it is stepped over, even
     after a frame *)
  go_frames go_after_frame 2 trace1 = go_frames go_after_frame (2 + 1) trace1 /\
  (* after a frame, a line without brackets ends the loop *)
  go_frames go_after_frame 3 trace1 = Ok (3%nat, trace1).
Proof.
  intros trace frame trace1.
  destruct (C3_leaving_the_frame_loop go_panic_text 1 "" trace [] eq_refl)
    as (Hpy & Hjs & Hjava & _ & _ & Hother).
  destruct (C3_leaving_the_frame_loop go_panic_text 2 "goroutine 1 [running]:"
              trace [] eq_refl) as (_ & _ & _ & Hheader & _).
  destruct (C3_leaving_the_frame_loop go_after_frame 2 "see the log (details)"
              trace1 [] eq_refl) as (_ & _ & _ & _ & Hcall & _).
  destruct (C3_leaving_the_frame_loop go_after_frame 3 "exit status 2"
              trace1 [] eq_refl) as (_ & _ & _ & _ & _ & Hend).
  split; [apply Hpy; vm_compute; reflexivity|].
  split; [apply Hjs; vm_compute; reflexivity|].
  split; [apply Hjava; vm_compute; reflexivity|].
  split; [apply Hother; [vm_compute; reflexivity|left; vm_compute; reflexivity]|].
  split; [apply Hheader; vm_compute; discriminate|].
  split.
  - apply Hcall; [vm_compute; reflexivity|vm_compute; discriminate|].
    exists "exit status 2". split; [reflexivity|vm_compute; reflexivity].
  - apply Hend; [vm_compute; reflexivity|left; vm_compute; reflexivity].
Defined.

(** * A cause line without frames *)

(** A cause line begins with [C], a Java frame line with a blank. *)
Lemma cause_line_is_no_frame l m :
  pmatch PATTERNS.java.caused_by l = Some m ->
  pmatch PATTERNS.java.at_line l = None.
Proof.
  intros Hm.
  by apply (first_disjoint PATTERNS.java.caused_by PATTERNS.java.at_line
              (fun x => eqc x "C"%char) (mem Space) l m eq_refl eq_refl).
Qed.

Lemma in_lit w : forall s s',
  In s' (run false (lit w) s) ->
  rest s = list_ascii_of_string w ++ rest s' /\ caps s' = caps s.
Proof.
  induction w as [|c w IH]; intros s s'.
  - by intros [<-|[]].
  - change (lit (String c w)) with (Cat (Chr c) (lit w)). simpl.
    intros (s1 & H1 & H2)%in_flat_map.
    apply in_step1 in H1 as (c' & Hr & Hc & _ & Hg).
    apply eqc_spec in Hc as ->.
    destruct (IH _ _ H2) as [Hr' Hg']. rewrite Hr, Hr'. split; [done|congruence].
Qed.

(** The type of a matched cause line ends in [Exception] or [Error]. *)
Lemma caused_by_type_suffix l m :
  pmatch PATTERNS.java.caused_by l = Some m ->
  exists w, w <> [] /\
    (list_ascii_of_string (group m 1) = w ++ list_ascii_of_string "Exception" \/
     list_ascii_of_string (group m 1) = w ++ list_ascii_of_string "Error").
Proof.
  unfold pmatch, re_match, match_from. intros Hm.
  destruct (head _) as [s'|] eqn:Hh; [|discriminate].
  injection Hm as <-. apply head_In in Hh.
  unfold PATTERNS.java.caused_by in Hh. simpl sequence in Hh.
  cbn [run] in Hh.
  apply in_flat_map in Hh as (s0 & H0 & Hh).
  apply in_flat_map in Hh as (s1 & H1 & Hh).
  apply in_flat_map in Hh as (s2 & H2 & Hh).
  apply in_flat_map in Hh as (s3 & H3 & Hh).
  apply in_map_iff in Hh as (s4 & <- & H4).
  apply (in_plus false) in H4 as (_ & _ & _ & _ & Hg4).
  apply in_lit in H3 as [_ Hg3].
  apply in_map_iff in H2 as (s1' & <- & H2).
  apply in_flat_map in H2 as (sa & Ha & Hsuf).
  apply (in_plus false) in Ha as (w & Hw & Hne & _ & _).
  exists w. split; [done|].
  unfold group. simpl. rewrite Hg4, Hg3. simpl.
  rewrite list_ascii_of_string_of_list_ascii. unfold consumed. rewrite Hw.
  unfold PATTERNS.java_suffix in Hsuf. cbn [run] in Hsuf.
  apply in_app_iff in Hsuf as [Hs|Hs]; apply in_lit in Hs as [-> _];
    rewrite app_assoc, take_consumed; auto.
Qed.

(** C6, as stated, fails: the cause pattern only accepts a type that ends
    in [Exception] or [Error], so the line [Caused by: X: msg] is no cause
    line; it ends the loop and the trace has no cause. *)
Lemma C6_counterexample :
  pmatch PATTERNS.java.caused_by "Caused by: X: msg" = None /\
  _parse_java cause_named_X =
    Ok [MkTrace java (Some "java.lang.RuntimeException") (Some "boom") [] []] /\
  ~ (exists t, _parse_java cause_named_X = Ok [t] /\
               caused_by t = [MkCause "X" "msg"]).
Proof.
  repeat split; try by vm_compute.
  intros (t & H & Hc). vm_compute in H. injection H as <-. discriminate.
Qed.

(** C6, amended: for a text of two lines, a Java start line and a line
    that matches the cause pattern (its type ends in [Exception] or
    [Error]), the Java scanner returns one trace, with no frame and with one
    cause made of the two groups of the cause line; [parse_text] returns
    that trace among its results. *)
Theorem C6_cause_without_frames
    (text start cause : string) (exception_match caused_match : Match) :
  split_lines text = [start; cause] ->
  pmatch PATTERNS.java.exception_line start = Some exception_match ->
  pmatch PATTERNS.java.caused_by cause = Some caused_match ->
  let record :=
    MkTrace java (Some (group exception_match 1)) (Some (group exception_match 2))
            [] [MkCause (group caused_match 1) (group caused_match 2)] in
  _parse_java text = Ok [record] /\
  exists traces, parse_text text = Ok traces /\ record ∈ traces.
Proof.
  intros Hsplit Hstart Hcause record.
  assert (_parse_java text = Ok [record]) as Hjava.
  { unfold _parse_java. rewrite Hsplit.
    assert (java_frames [start; cause] (0 + 1) (new_java exception_match)
            = Ok (2%nat, record)) as Hf.
    { rewrite (java_frames_cause [start; cause] 1 cause caused_match _ eq_refl
                 (cause_line_is_no_frame _ _ Hcause) Hcause).
      by apply java_frames_end. }
    rewrite (java_scan_start [start; cause] 0 start exception_match _ _ []
               eq_refl Hstart Hf).
    by apply java_scan_end. }
  split; [exact Hjava|].
  destruct (parse_text_total text) as [traces Hp].
  { (* neither line begins with a blank, so no number is converted *)
    rewrite Hsplit. apply Forall_cons. split; [|apply Forall_cons; split; [|done]].
    - by apply (no_blank_start_fits PATTERNS.java.exception_line
                  (mem PATTERNS.dotted) start exception_match).
    - by apply (no_blank_start_fits PATTERNS.java.caused_by
                  (fun x => eqc x "C"%char) cause caused_match). }
  exists traces. split; [exact Hp|].
  apply parse_text_Ok in Hp as (a & b & c & d & (_ & _ & Hc & _) & ->).
  assert (c = [record]) as -> by congruence.
  rewrite !elem_of_app. right. right. left. apply elem_of_cons. by left.
Qed.

Lemma C6_witness :
  let start := "java.lang.RuntimeException: boom" in
  let cause := "Caused by: java.io.IOException: disk" in
  let exception_match := the_match PATTERNS.java.exception_line start in
  let caused_match := the_match PATTERNS.java.caused_by cause in
  let record :=
    MkTrace java (Some (group exception_match 1)) (Some (group exception_match 2))
            [] [MkCause (group caused_match 1) (group caused_match 2)] in
  _parse_java cause_without_frames = Ok [record] /\
  exists traces, parse_text cause_without_frames = Ok traces /\ record ∈ traces.
Proof.
  intros start cause exception_match caused_match.
  apply (C6_cause_without_frames cause_without_frames start cause
           exception_match caused_match).
  - reflexivity.
  - by vm_compute.
  - by vm_compute.
Defined.

(** The record of that text, written out. *)
Example cause_without_frames_record :
  parse_text cause_without_frames =
  Ok [MkTrace java (Some "java.lang.RuntimeException") (Some "boom")
        [] [MkCause "java.io.IOException" "disk"]].
Proof. by vm_compute. Qed.

(** * Invariants of the traces the scanners emit *)

(** The frames each scanner stores. *)
Section ScannerInvariants.

Variable lines : list string.

(** [P] holds of the trace under construction, [Q] of the traces that are
    emitted. *)
Variables P Q : Trace -> Prop.

Section Python.

Hypothesis Hframe : forall t l file_match line_num snippet,
  P t -> l ∈ lines ->
  pmatch PATTERNS.python.file_line l = Some file_match ->
  int (group file_match 2) = Ok line_num ->
  P (push_frame t (python_frame file_match line_num snippet)).

Hypothesis Hemit : forall t l error_match,
  P t -> l ∈ lines ->
  pmatch PATTERNS.python.error_line l = Some error_match ->
  Q (set_error t (group error_match 1) (group error_match 2)).

Lemma python_frames_invariant i trace traces i' traces' :
  python_frames lines i trace traces = Ok (i', traces') ->
  P trace -> Forall Q traces -> Forall Q traces'.
Proof.
  funelim (python_frames lines i trace traces); intros Hr Ht Hts;
    try discriminate; try (by injection Hr as <- <-).
  - eapply H; eauto. eapply (Hframe _ l); eauto. by eapply list_elem_of_lookup_2.
  - injection Hr as <- <-. apply Forall_app. split; [done|].
    apply Forall_singleton. eapply (Hemit _ l); eauto.
    by eapply list_elem_of_lookup_2.
Qed.

Lemma python_scan_invariant i traces traces' :
  P new_python ->
  python_scan lines i traces = Ok traces' -> Forall Q traces -> Forall Q traces'.
Proof.
  intros Hnew.
  funelim (python_scan lines i traces); intros Hr Hts; try discriminate;
    try (by injection Hr as <-); eauto.
  eapply H; eauto. eapply python_frames_invariant; eauto.
Qed.

End Python.

Section Javascript.

Hypothesis Hnew : forall l error_match,
  l ∈ lines -> pmatch PATTERNS.javascript.error_line l = Some error_match ->
  P (new_javascript error_match).

Hypothesis Hat : forall t l at_match line_num col,
  P t -> l ∈ lines ->
  pmatch PATTERNS.javascript.at_line l = Some at_match ->
  int (group at_match 3) = Ok line_num -> int (group at_match 4) = Ok col ->
  P (push_frame t (MkFrame (group at_match 2) line_num (Some (group at_match 1))
                           None (Some col) None)).

Hypothesis Hsimple : forall t l simple_match line_num col,
  P t -> l ∈ lines ->
  pmatch PATTERNS.javascript.at_line_simple l = Some simple_match ->
  int (group simple_match 2) = Ok line_num -> int (group simple_match 3) = Ok col ->
  P (push_frame t (MkFrame (group simple_match 1) line_num None None (Some col) None)).

Hypothesis Hemit : forall t, P t -> stack t <> [] -> Q t.

Lemma javascript_frames_invariant i trace i' trace' :
  javascript_frames lines i trace = Ok (i', trace') -> P trace -> P trace'.
Proof.
  funelim (javascript_frames lines i trace); intros Hr Ht;
    try discriminate; try (by injection Hr as <- <-).
  - eapply H; eauto. eapply (Hat _ l); eauto. by eapply list_elem_of_lookup_2.
  - eapply H; eauto. eapply (Hsimple _ l); eauto. by eapply list_elem_of_lookup_2.
Qed.

Lemma append_if_stack_invariant traces trace :
  Forall Q traces -> P trace -> Forall Q (append_if_stack traces trace).
Proof.
  intros Hts Ht. unfold append_if_stack.
  destruct (stack trace) eqn:Hs; [done|].
  apply Forall_app. split; [done|]. apply Forall_singleton, Hemit; [done|].
  by rewrite Hs.
Qed.

Lemma javascript_scan_invariant i traces traces' :
  javascript_scan lines i traces = Ok traces' -> Forall Q traces -> Forall Q traces'.
Proof.
  funelim (javascript_scan lines i traces); intros Hr Hts; try discriminate;
    try (by injection Hr as <-); eauto.
  eapply H; eauto. apply append_if_stack_invariant; [done|].
  eapply javascript_frames_invariant; eauto.
  eapply Hnew; eauto. by eapply list_elem_of_lookup_2.
Qed.

End Javascript.

Section Java.

Hypothesis Hnew : forall l exception_match,
  l ∈ lines -> pmatch PATTERNS.java.exception_line l = Some exception_match ->
  P (new_java exception_match).

Hypothesis Hat : forall t l at_match line_num,
  P t -> l ∈ lines ->
  pmatch PATTERNS.java.at_line l = Some at_match ->
  int (group at_match 3) = Ok line_num ->
  P (push_frame t (MkFrame (group at_match 2) line_num None
                           (Some (group at_match 1)) None None)).

Hypothesis Hcause : forall t l caused_match,
  P t -> l ∈ lines ->
  pmatch PATTERNS.java.caused_by l = Some caused_match ->
  P (push_cause t (MkCause (group caused_match 1) (group caused_match 2))).

Hypothesis Hemit : forall t, P t -> Q t.

Lemma java_frames_invariant i trace i' trace' :
  java_frames lines i trace = Ok (i', trace') -> P trace -> P trace'.
Proof.
  funelim (java_frames lines i trace); intros Hr Ht;
    try discriminate; try (by injection Hr as <- <-).
  - eapply H; eauto. eapply (Hat _ l); eauto. by eapply list_elem_of_lookup_2.
  - eapply H; eauto. eapply (Hcause _ l); eauto. by eapply list_elem_of_lookup_2.
Qed.

Lemma java_scan_invariant i traces traces' :
  java_scan lines i traces = Ok traces' -> Forall Q traces -> Forall Q traces'.
Proof.
  funelim (java_scan lines i traces); intros Hr Hts; try discriminate;
    try (by injection Hr as <-); eauto.
  eapply H; eauto. apply Forall_app. split; [done|].
  apply Forall_singleton, Hemit.
  eapply java_frames_invariant; eauto.
  eapply Hnew; eauto. by eapply list_elem_of_lookup_2.
Qed.

End Java.

Section Go.

Hypothesis Hnew : forall l panic_match,
  l ∈ lines -> pmatch PATTERNS.go.panic_line l = Some panic_match ->
  P (new_go panic_match).

Hypothesis Hframe : forall t l func_match nxt loc_match line_num,
  P t -> l ∈ lines -> nxt ∈ lines ->
  pmatch PATTERNS.go.file_line l = Some func_match ->
  pmatch PATTERNS.go.location nxt = Some loc_match ->
  int (group loc_match 2) = Ok line_num ->
  P (push_frame t (MkFrame (group loc_match 1) line_num (Some (group func_match 1))
                           None None None)).

Hypothesis Hemit : forall t, P t -> stack t <> [] -> Q t.

Lemma go_frames_invariant i trace i' trace' :
  go_frames lines i trace = Ok (i', trace') -> P trace -> P trace'.
Proof.
  funelim (go_frames lines i trace); intros Hr Ht;
    try discriminate; try (by injection Hr as <- <-); eauto.
  eapply H; eauto. eapply (Hframe _ l _ nxt); eauto; by eapply list_elem_of_lookup_2.
Qed.

Lemma go_append_invariant traces trace :
  Forall Q traces -> P trace -> Forall Q (append_if_stack traces trace).
Proof.
  intros Hts Ht. unfold append_if_stack.
  destruct (stack trace) eqn:Hs; [done|].
  apply Forall_app. split; [done|]. apply Forall_singleton, Hemit; [done|].
  by rewrite Hs.
Qed.

Lemma go_scan_invariant i traces traces' :
  go_scan lines i traces = Ok traces' -> Forall Q traces -> Forall Q traces'.
Proof.
  funelim (go_scan lines i traces); intros Hr Hts; try discriminate;
    try (by injection Hr as <-); eauto.
  eapply H; eauto. apply go_append_invariant; [done|].
  eapply go_frames_invariant; eauto.
  eapply Hnew; eauto. by eapply list_elem_of_lookup_2.
Qed.

End Go.

End ScannerInvariants.

(** ** What a type group holds *)

Lemma run_keeps_value ic k r : forall s s',
  mentions k r = false -> In s' (run ic r s) ->
  lookup_cap k (caps s') = lookup_cap k (caps s).
Proof.
  induction r; intros s s'; simpl.
  - by intros _ [<-|[]].
  - intros _. destruct (prev s); [intros []|by intros [<-|[]]].
  - intros _. destruct (xorb _ _); [by intros [<-|[]]|intros []].
  - intros _ (c' & _ & _ & _ & ->)%in_step1. auto.
  - intros _ (c' & _ & _ & _ & ->)%in_step1. auto.
  - intros [Ha Hb]%orb_false_iff (s1 & H1 & H2)%in_flat_map.
    rewrite (IHr2 _ _ Hb H2). eauto.
  - intros [Ha Hb]%orb_false_iff [H|H]%in_app_iff; eauto.
  - intros Ha [H|[<-|[]]]%in_app_iff; eauto.
  - intros _ (w & _ & _ & _ & ->)%(in_plus ic). auto.
  - intros _ (w & _ & _ & ->)%in_greedy. auto.
  - intros [Hn Hk]%orb_false_iff (s1 & <- & H)%in_map_iff. simpl.
    rewrite lookup_cap_cons, Hn. eauto.
Qed.

Lemma in_literal r : forall w s s',
  literal_of r = Some w -> In s' (run false r s) ->
  rest s = list_ascii_of_string w ++ rest s'.
Proof.
  induction r; intros w s s'; simpl; try discriminate.
  - by intros [= <-] [<-|[]].
  - destruct r1; try discriminate.
    destruct (literal_of r2) as [w2|] eqn:E; [|discriminate].
    intros [= <-] (s1 & H1 & H2)%in_flat_map.
    apply in_step1 in H1 as (c' & Hr & Hc & _).
    apply eqc_spec in Hc as ->. simpl. rewrite Hr. f_equal. eauto.
Qed.

Lemma in_literals r : forall ws s s',
  literals r = Some ws -> In s' (run false r s) ->
  exists w, In w ws /\ rest s = list_ascii_of_string w ++ rest s'.
Proof.
  induction r; intros ws s s' Hl Hs;
    try (match type of Hl with
         | literals ?r0 = _ =>
             change (literals r0) with ((fun w => [w]) <$> literal_of r0) in Hl;
             destruct (literal_of r0) as [w|] eqn:E; [|discriminate]
         end;
         injection Hl as <-; exists w; split; [by left|];
         by eapply in_literal).
  simpl in Hl.
  destruct (literals r1) as [l1|]; [|discriminate].
  destruct (literals r2) as [l2|]; [|discriminate].
  injection Hl as <-. simpl in Hs. apply in_app_iff in Hs as [Hs|Hs].
  - destruct (IHr1 _ _ _ eq_refl Hs) as (w & Hw & Hr). exists w.
    split; [apply in_app_iff; by left|done].
  - destruct (IHr2 _ _ _ eq_refl Hs) as (w & Hw & Hr). exists w.
    split; [apply in_app_iff; by right|done].
Qed.

Lemma run_suffixes r : forall sufs s s',
  suffixes r = Some sufs -> In s' (run false r s) ->
  exists w suf, w <> [] /\ In suf sufs /\
    lookup_cap 1 (caps s') = Some (w ++ list_ascii_of_string suf).
Proof.
  induction r; intros sufs s s' Hsuf Hs; try discriminate.
  assert (mentions 1 r1 = false -> suffixes r2 = Some sufs ->
          exists w suf, w <> [] /\ In suf sufs /\
            lookup_cap 1 (caps s') = Some (w ++ list_ascii_of_string suf)) as Hrec.
  { intros Hm Hr2. simpl in Hs. apply in_flat_map in Hs as (s1 & H1 & H2). eauto. }
  destruct r1; simpl in Hsuf;
    try (by apply Hrec);
    try (destruct (mentions 1 _) eqn:Hm; [discriminate|by apply Hrec]).
  - destruct (_ || _) eqn:Hm; [discriminate|]. by apply Hrec.
  - destruct (_ || _) eqn:Hm; [discriminate|]. by apply Hrec.
  - (* the group *)
    destruct n as [|[|n]];
      try (destruct (mentions 1 _) eqn:Hm; [discriminate|by apply Hrec]).
    destruct r1; try (destruct (mentions 1 _) eqn:Hm; [discriminate|by apply Hrec]).
    destruct r1_1; try (destruct (_ || _) eqn:Hm; [discriminate|by apply Hrec]).
    destruct (mentions 1 r1_2 || mentions 1 r2) eqn:Hm; [discriminate|].
    apply orb_false_iff in Hm as [Hm1 Hm2].
    simpl in Hs. apply in_flat_map in Hs as (s1 & H1 & H2).
    rewrite (run_keeps_value _ _ _ _ _ Hm2 H2).
    apply in_map_iff in H1 as (s0 & <- & H1). simpl.
    apply in_flat_map in H1 as (sa & Ha & Hb).
    apply (in_plus false) in Ha as (w & Hw & Hne & _ & _).
    destruct (in_literals _ _ _ _ Hsuf Hb) as (suf & Hin & Hr).
    exists w, suf. split; [done|]. split; [done|].
    rewrite lookup_cap_cons. simpl. unfold consumed.
    by rewrite Hw, Hr, app_assoc, take_consumed.
Qed.

Lemma string_of_list_ascii_app w1 w2 :
  string_of_list_ascii (w1 ++ w2) =
  (string_of_list_ascii w1 ++ string_of_list_ascii w2)%string.
Proof. induction w1 as [|c w1 IH]; simpl; [done|]. by rewrite IH. Qed.

(** Group 1 of a match of such a pattern ends in one of its suffixes. *)
Lemma match_suffixes r sufs l m :
  suffixes r = Some sufs -> pmatch r l = Some m -> ends_in sufs (group m 1).
Proof.
  unfold pmatch, re_match, match_from. intros Hsuf Hm.
  destruct (head _) as [s'|] eqn:Hh; [|discriminate].
  injection Hm as <-. apply head_In in Hh.
  destruct (run_suffixes _ _ _ _ Hsuf Hh) as (w & suf & Hne & Hin & Hg).
  exists (string_of_list_ascii w), suf. unfold group. simpl. rewrite Hg.
  split; [by destruct w|]. split; [done|].
  by rewrite string_of_list_ascii_app, string_of_list_ascii_of_string.
Qed.

(** ** Blanks at the ends of a string *)

Lemma lstrip_head p w c t : lstrip_list p w = c :: t -> p c = false.
Proof.
  induction w as [|x w IH]; simpl; [discriminate|].
  destruct (p x) eqn:Hx; [done|]. by intros [= <- _].
Qed.

Lemma lstrip_suffix p w : exists pre, w = pre ++ lstrip_list p w.
Proof.
  induction w as [|x w [pre IH]]; simpl; [by exists []|].
  destruct (p x); [|by exists []]. exists (x :: pre). simpl. by f_equal.
Qed.

Lemma strip_list_trimmed p w :
  (forall c t, strip_list p w = c :: t -> p c = false) /\
  (forall c t, rev (strip_list p w) = c :: t -> p c = false).
Proof.
  unfold strip_list. split; intros c t H.
  - destruct (lstrip_suffix p (rev (lstrip_list p w))) as [pre Hpre].
    apply (f_equal (@rev ascii)) in Hpre.
    rewrite rev_involutive, rev_app_distr, H in Hpre. simpl in Hpre.
    by apply lstrip_head in Hpre.
  - rewrite rev_involutive in H. by apply lstrip_head in H.
Qed.

(** [strip] and [strip(chars)] leave no such character at either end. *)
Lemma strip_trimmed s : trimmed is_space (strip s).
Proof.
  unfold trimmed, strip. rewrite list_ascii_of_string_of_list_ascii.
  apply strip_list_trimmed.
Qed.

Lemma strip_chars_trimmed chars s :
  trimmed (fun c => existsb (eqc c) (list_ascii_of_string chars)) (strip_chars chars s).
Proof.
  unfold trimmed, strip_chars. rewrite list_ascii_of_string_of_list_ascii.
  apply strip_list_trimmed.
Qed.

(** ** Properties of every trace of [parse_text] *)

Lemma parse_text_Forall (Q : Trace -> Prop) text :
  (forall ts, _parse_python text = Ok ts -> Forall Q ts) ->
  (forall ts, _parse_javascript text = Ok ts -> Forall Q ts) ->
  (forall ts, _parse_java text = Ok ts -> Forall Q ts) ->
  (forall ts, _parse_go text = Ok ts -> Forall Q ts) ->
  forall traces, parse_text text = Ok traces -> Forall Q traces.
Proof.
  intros Ha Hb Hc Hd traces
    (a & b & c & d & (Pa & Pb & Pc & Pd) & ->)%parse_text_Ok.
  rewrite !Forall_app. auto.
Qed.

(** The invariant lemmas, at the entry points of the scanners. *)
Ltac python_invariant P Q Hts :=
  simple refine (python_scan_invariant _ P Q _ _ 0 [] _ _ Hts _);
  [ | | |by apply Forall_nil].
Ltac javascript_invariant P Q Hts :=
  simple refine (javascript_scan_invariant _ P Q _ _ _ _ 0 [] _ Hts _);
  [ | | | |by apply Forall_nil].
Ltac java_invariant P Q Hts :=
  simple refine (java_scan_invariant _ P Q _ _ _ _ 0 [] _ Hts _);
  [ | | | |by apply Forall_nil].
Ltac go_invariant P Q Hts :=
  simple refine (go_scan_invariant _ P Q _ _ _ 0 [] _ Hts _);
  [ | | |by apply Forall_nil].

(** X1: in a list that [parse_text] returns, a trace of the JavaScript or
    of the Go scanner has at least one frame: candidates without frames are
    never emitted. *)
Theorem X1_javascript_and_go_traces_have_frames
    (text : string) (traces : list Trace) :
  parse_text text = Ok traces -> Forall has_frames traces.
Proof.
  revert traces. apply parse_text_Forall; intros ts Hts.
  - python_invariant (fun t => language t = python) has_frames Hts.
    + done.
    + intros t l m Ht _ _. unfold has_frames. simpl. by rewrite Ht.
    + done.
  - javascript_invariant (fun t => language t = javascript) has_frames Hts.
    + done.
    + done.
    + done.
    + intros t Ht Hs. unfold has_frames. by rewrite Ht.
  - java_invariant (fun t => language t = java) has_frames Hts.
    + done.
    + done.
    + done.
    + intros t Ht. unfold has_frames. by rewrite Ht.
  - go_invariant (fun t => language t = go) has_frames Hts.
    + done.
    + done.
    + intros t Ht Hs. unfold has_frames. by rewrite Ht.
Qed.

Lemma X1_witness :
  exists traces,
    parse_text one_of_each = Ok traces /\
    map language traces = [python; javascript; java; java; java; go] /\
    Forall has_frames traces.
Proof.
  eexists. split; [vm_compute; reflexivity|]. split; [reflexivity|].
  apply (X1_javascript_and_go_traces_have_frames one_of_each).
  vm_compute. reflexivity.
Defined.

(** X2: in a list that [parse_text] returns, every trace has the error
    type and message captured from a line of the text that matches the
    heading pattern of its language (the trailer pattern for Python, the
    start pattern for the others).  So the type of a Python trace ends in
    [Error], [Exception] or [Warning], that of a JavaScript trace in
    [Error], that of a Java trace in [Exception] or [Error]; a Go trace
    has a message and no type. *)
Theorem X2_error_types_end_in_the_pattern_suffixes
    (text : string) (traces : list Trace) :
  parse_text text = Ok traces ->
  Forall (fun t => typed_trace t /\ headed_by (split_lines text) t) traces.
Proof.
  revert traces. apply parse_text_Forall; intros ts Hts.
  - python_invariant (fun t => language t = python)
      (fun t => typed_trace t /\ headed_by (split_lines text) t) Hts.
    + done.
    + intros t l m Ht Hl Hm. split.
      * unfold typed_trace. simpl. rewrite Ht.
        eexists _, _. split; [done|]. split; [done|].
        by apply (match_suffixes PATTERNS.python.error_line _ l).
      * exists l, m. simpl. rewrite Ht. by repeat split.
    + done.
  - javascript_invariant
      (fun t => language t = javascript /\ typed_trace t /\
                headed_by (split_lines text) t)
      (fun t => typed_trace t /\ headed_by (split_lines text) t) Hts.
    + intros l m Hl Hm. split; [done|]. split.
      * unfold typed_trace. simpl.
        eexists _, _. split; [done|]. split; [done|].
        by apply (match_suffixes PATTERNS.javascript.error_line _ l).
      * exists l, m. by repeat split.
    + by intros t l m n col (Ht & Hty & Hh) _ _ _ _.
    + by intros t l m n col (Ht & Hty & Hh) _ _ _ _.
    + by intros t (Ht & Hty & Hh) _.
  - java_invariant
      (fun t => language t = java /\ typed_trace t /\ headed_by (split_lines text) t)
      (fun t => typed_trace t /\ headed_by (split_lines text) t) Hts.
    + intros l m Hl Hm. split; [done|]. split.
      * unfold typed_trace. simpl.
        eexists _, _. split; [done|]. split; [done|].
        by apply (match_suffixes PATTERNS.java.exception_line _ l).
      * exists l, m. by repeat split.
    + by intros t l m n (Ht & Hty & Hh) _ _ _.
    + by intros t l m (Ht & Hty & Hh) _ _.
    + by intros t (Ht & Hty & Hh).
  - go_invariant
      (fun t => language t = go /\ typed_trace t /\ headed_by (split_lines text) t)
      (fun t => typed_trace t /\ headed_by (split_lines text) t) Hts.
    + intros l m Hl Hm. split; [done|]. split.
      * unfold typed_trace. simpl. eauto.
      * exists l, m. by repeat split.
    + by intros t l fm nxt lm n (Ht & Hty & Hh) _ _ _ _ _.
    + by intros t (Ht & Hty & Hh) _.
Qed.

Lemma X2_witness :
  exists traces,
    parse_text one_of_each = Ok traces /\
    map error_type traces =
      [Some "ValueError"; Some "TypeError"; Some "ValueError"; Some "TypeError";
       Some "java.lang.IllegalStateException"; None] /\
    Forall (fun t => typed_trace t /\ headed_by (split_lines one_of_each) t) traces.
Proof.
  eexists. split; [vm_compute; reflexivity|]. split; [reflexivity|].
  apply (X2_error_types_end_in_the_pattern_suffixes one_of_each).
  vm_compute. reflexivity.
Defined.

Lemma Forall_snoc {A} (R : A -> Prop) (l : list A) (x : A) :
  Forall R l -> R x -> Forall R (l ++ [x]).
Proof. intros Hl Hx. apply Forall_app. split; [done|]. by apply Forall_singleton. Qed.

(** X3: in a list that [parse_text] returns, the frames of a trace have
    the keys of its language.  A Python frame has a function and a snippet,
    a JavaScript frame a column (which is not negative) and no snippet, a
    Java frame a method, a Go frame a function; only Java traces have
    causes. *)
Theorem X3_frames_have_the_keys_of_their_language
    (text : string) (traces : list Trace) :
  parse_text text = Ok traces -> Forall well_keyed traces.
Proof.
  revert traces. apply parse_text_Forall; intros ts Hts.
  - python_invariant (fun t => language t = python /\ well_keyed t) well_keyed Hts.
    + intros t l m n snippet [Ht [Hk Hc]] _ _ _. split; [done|]. split; [|done].
      simpl. apply Forall_snoc; [done|]. rewrite Ht. by repeat split.
    + by intros t l m [Ht Hk] _ _.
    + split; [done|]. by split.
  - javascript_invariant (fun t => language t = javascript /\ well_keyed t)
      well_keyed Hts.
    + intros l m _ _. split; [done|]. by split.
    + intros t l m n col [Ht [Hk Hc]] _ _ _ Hcol. split; [done|]. split; [|done].
      simpl. apply Forall_snoc; [done|]. rewrite Ht. repeat split.
      exists col. split; [done|]. by eapply int_nonneg.
    + intros t l m n col [Ht [Hk Hc]] _ _ _ Hcol. split; [done|]. split; [|done].
      simpl. apply Forall_snoc; [done|]. rewrite Ht. repeat split.
      exists col. split; [done|]. by eapply int_nonneg.
    + by intros t [Ht Hk] _.
  - java_invariant (fun t => language t = java /\ well_keyed t) well_keyed Hts.
    + intros l m _ _. split; [done|]. by split.
    + intros t l m n [Ht [Hk Hc]] _ _ _. split; [done|]. split.
      * simpl. apply Forall_snoc; [done|]. rewrite Ht. by repeat split.
      * simpl. by rewrite Ht.
    + intros t l m [Ht [Hk Hc]] _ _. split; [done|]. split; [done|].
      simpl. by rewrite Ht.
    + by intros t [Ht Hk].
  - go_invariant (fun t => language t = go /\ well_keyed t) well_keyed Hts.
    + intros l m _ _. split; [done|]. by split.
    + intros t l fm nxt lm n [Ht [Hk Hc]] _ _ _ _ _. split; [done|]. split; [|done].
      simpl. apply Forall_snoc; [done|]. rewrite Ht. by repeat split.
    + by intros t [Ht Hk] _.
Qed.

Lemma X3_witness :
  exists traces,
    parse_text one_of_each = Ok traces /\
    map (fun t => length (stack t)) traces = [1; 1; 0; 0; 1; 1]%nat /\
    Forall well_keyed traces.
Proof.
  eexists. split; [vm_compute; reflexivity|]. split; [reflexivity|].
  apply (X3_frames_have_the_keys_of_their_language one_of_each).
  vm_compute. reflexivity.
Defined.

(** X4: in a list that [parse_text] returns, the snippet of every frame
    that has one has no blank at either end. *)
Theorem X4_snippets_are_trimmed (text : string) (traces : list Trace) :
  parse_text text = Ok traces -> Forall snippets_trimmed traces.
Proof.
  revert traces. apply parse_text_Forall; intros ts Hts.
  - python_invariant snippets_trimmed snippets_trimmed Hts.
    + intros t l m n snippet Ht _ _ _. apply Forall_snoc; [done|]. simpl.
      intros c [= <-]. destruct snippet; [apply strip_trimmed|]. by split.
    + by intros t l m Ht _ _.
    + by apply Forall_nil.
  - javascript_invariant snippets_trimmed snippets_trimmed Hts.
    + intros l m _ _. by apply Forall_nil.
    + intros t l m n col Ht _ _ _ _. by apply Forall_snoc.
    + intros t l m n col Ht _ _ _ _. by apply Forall_snoc.
    + done.
  - java_invariant snippets_trimmed snippets_trimmed Hts.
    + intros l m _ _. by apply Forall_nil.
    + intros t l m n Ht _ _ _. by apply Forall_snoc.
    + done.
    + done.
  - go_invariant snippets_trimmed snippets_trimmed Hts.
    + intros l m _ _. by apply Forall_nil.
    + intros t l fm nxt lm n Ht _ _ _ _ _. by apply Forall_snoc.
    + done.
Qed.

Lemma X4_witness :
  exists traces,
    parse_text python_example = Ok traces /\
    map (fun t => map code (stack t)) traces = [[Some "run()"]; []] /\
    Forall snippets_trimmed traces.
Proof.
  eexists. split; [vm_compute; reflexivity|]. split; [reflexivity|].
  apply (X4_snippets_are_trimmed python_example).
  vm_compute. reflexivity.
Defined.

(** X5: in a list that [parse_text] returns, the type of every cause of a
    trace ends in [Exception] or [Error]; a [Caused by:] line with another
    type is never recorded. *)
Theorem X5_cause_types_end_in_exception_or_error
    (text : string) (traces : list Trace) :
  parse_text text = Ok traces -> Forall causes_typed traces.
Proof.
  revert traces. apply parse_text_Forall; intros ts Hts.
  - python_invariant causes_typed causes_typed Hts.
    + done.
    + done.
    + by apply Forall_nil.
  - javascript_invariant causes_typed causes_typed Hts.
    + intros l m _ _. by apply Forall_nil.
    + done.
    + done.
    + done.
  - java_invariant causes_typed causes_typed Hts.
    + intros l m _ _. by apply Forall_nil.
    + done.
    + intros t l m Ht _ Hm. apply Forall_snoc; [done|]. simpl.
      by apply (match_suffixes PATTERNS.java.caused_by _ l).
    + done.
  - go_invariant causes_typed causes_typed Hts.
    + intros l m _ _. by apply Forall_nil.
    + done.
    + done.
Qed.

Lemma X5_witness :
  exists traces,
    parse_text cause_without_frames = Ok traces /\
    map caused_by traces = [[MkCause "java.io.IOException" "disk"]] /\
    Forall causes_typed traces.
Proof.
  eexists. split; [vm_compute; reflexivity|]. split; [reflexivity|].
  apply (X5_cause_types_end_in_exception_or_error cause_without_frames).
  vm_compute. reflexivity.
Defined.

(** ** How many traces a scanner can emit *)

Lemma start_lines_drop_le lang lines j k :
  (j <= k)%nat -> (start_lines lang (drop k lines) <= start_lines lang (drop j lines))%nat.
Proof.
  intros Hjk. replace k with (j + (k - j))%nat by lia.
  rewrite <- drop_drop. generalize (drop j lines) as l. generalize (k - j)%nat as n.
  unfold start_lines. induction n as [|n IH]; intros l.
  - rewrite drop_0. lia.
  - destruct l as [|x l]; [simpl; lia|]. simpl.
    specialize (IH l). destruct (is_start lang x); simpl; lia.
Qed.

Lemma start_lines_here lang lines i l m :
  lines !! i = Some l -> pmatch (start_pattern lang) l = Some m ->
  start_lines lang (drop i lines) = S (start_lines lang (drop (S i) lines)).
Proof.
  intros Hl Hm. rewrite (drop_S _ _ _ Hl). unfold start_lines. simpl.
  unfold is_start at 1. rewrite Hm. by rewrite bool_decide_eq_true_2.
Qed.

Lemma python_frames_length lines i trace traces i' traces' :
  python_frames lines i trace traces = Ok (i', traces') ->
  (length traces' <= S (length traces))%nat.
Proof.
  funelim (python_frames lines i trace traces); intros Hr;
    try discriminate; try (injection Hr as <- <-; lia); eauto.
  injection Hr as <- <-. rewrite length_app. simpl. lia.
Qed.

Lemma append_if_stack_length traces trace :
  (length (append_if_stack traces trace) <= S (length traces))%nat.
Proof.
  unfold append_if_stack. destruct (stack trace); [lia|].
  rewrite length_app. simpl. lia.
Qed.

Lemma python_scan_count lines i traces traces' :
  python_scan lines i traces = Ok traces' ->
  (length traces' <= length traces + start_lines python (drop i lines))%nat.
Proof.
  funelim (python_scan lines i traces); intros Hr; try discriminate;
    try (injection Hr as <-; lia); apply H in Hr.
  all: first
    [ rewrite (start_lines_here python _ _ _ _ Hl Heq);
      pose proof (python_frames_length _ _ _ _ _ _ Hf);
      pose proof (python_frames_cursor _ _ _ _ _ _ Hf);
      pose proof (start_lines_drop_le python lines (S i) (i' + 1) ltac:(lia)); lia
    | pose proof (start_lines_drop_le python lines i (i + 1) ltac:(lia)); lia ].
Qed.

Lemma javascript_scan_count lines i traces traces' :
  javascript_scan lines i traces = Ok traces' ->
  (length traces' <= length traces + start_lines javascript (drop i lines))%nat.
Proof.
  funelim (javascript_scan lines i traces); intros Hr; try discriminate;
    try (injection Hr as <-; lia); apply H in Hr.
  all: first
    [ rewrite (start_lines_here javascript _ _ _ _ Hl Heq);
      pose proof (append_if_stack_length traces trace);
      pose proof (javascript_frames_cursor _ _ _ _ _ Hf);
      pose proof (start_lines_drop_le javascript lines (S i) (i' + 1) ltac:(lia)); lia
    | pose proof (start_lines_drop_le javascript lines i (i + 1) ltac:(lia)); lia ].
Qed.

Lemma java_scan_count lines i traces traces' :
  java_scan lines i traces = Ok traces' ->
  (length traces' <= length traces + start_lines java (drop i lines))%nat.
Proof.
  funelim (java_scan lines i traces); intros Hr; try discriminate;
    try (injection Hr as <-; lia); apply H in Hr.
  all: first
    [ rewrite (start_lines_here java _ _ _ _ Hl Heq);
      rewrite length_app in Hr; simpl in Hr;
      pose proof (java_frames_cursor _ _ _ _ _ Hf);
      pose proof (start_lines_drop_le java lines (S i) (i' + 1) ltac:(lia)); lia
    | pose proof (start_lines_drop_le java lines i (i + 1) ltac:(lia)); lia ].
Qed.

Lemma go_scan_count lines i traces traces' :
  go_scan lines i traces = Ok traces' ->
  (length traces' <= length traces + start_lines go (drop i lines))%nat.
Proof.
  funelim (go_scan lines i traces); intros Hr; try discriminate;
    try (injection Hr as <-; lia); apply H in Hr.
  all: first
    [ rewrite (start_lines_here go _ _ _ _ Hl Heq);
      pose proof (append_if_stack_length traces trace);
      pose proof (go_frames_cursor _ _ _ _ _ Hf);
      pose proof (start_lines_drop_le go lines (S i) (i' + 1) ltac:(lia)); lia
    | pose proof (start_lines_drop_le go lines i (i + 1) ltac:(lia)); lia ].
Qed.

(** X6: a list that a scanner returns never has more traces than the text
    has lines that match the start pattern of that scanner. *)
Theorem X6_at_most_one_trace_per_start_line
    (lang : Language) (text : string) (traces : list Trace) :
  scanner lang text = Ok traces ->
  (length traces <= start_lines lang (split_lines text))%nat.
Proof.
  destruct lang; simpl; intros H.
  - apply python_scan_count in H. by rewrite drop_0 in H.
  - apply javascript_scan_count in H. by rewrite drop_0 in H.
  - apply java_scan_count in H. by rewrite drop_0 in H.
  - apply go_scan_count in H. by rewrite drop_0 in H.
Qed.

Lemma X6_witness :
  start_lines javascript (split_lines one_of_each) = 2%nat /\
  exists traces,
    scanner javascript one_of_each = Ok traces /\
    length traces = 1%nat /\
    (length traces <= start_lines javascript (split_lines one_of_each))%nat.
Proof.
  split; [vm_compute; reflexivity|].
  eexists. split; [vm_compute; reflexivity|]. split; [reflexivity|].
  apply (X6_at_most_one_trace_per_start_line javascript one_of_each).
  vm_compute. reflexivity.
Defined.

(** ** The line after a candidate *)

(** X7: of two JavaScript start lines that follow each other, neither
    gives a trace: the first candidate has no frame, and the second line,
    having ended the frame loop of the first, is stepped over, so the
    frames below it are never attached to it. *)
Theorem X7_second_of_two_javascript_start_lines_is_lost
    (lines : list string) (i : nat) (l1 l2 : string) (m1 m2 : Match)
    (traces : list Trace) :
  lines !! i = Some l1 -> lines !! (i + 1)%nat = Some l2 ->
  pmatch PATTERNS.javascript.error_line l1 = Some m1 ->
  pmatch PATTERNS.javascript.error_line l2 = Some m2 ->
  javascript_scan lines i traces = javascript_scan lines (i + 2) traces.
Proof.
  intros H1 H2 Hm1 Hm2.
  assert (javascript_frames lines (i + 1) (new_javascript m1)
          = Ok ((i + 1)%nat, new_javascript m1)) as Hf.
  { apply javascript_frames_stop. intros l Hl.
    assert (l = l2) as -> by congruence.
    by eapply javascript_start_is_no_frame. }
  rewrite (javascript_scan_start lines i l1 m1 _ _ traces H1 Hm1 Hf).
  unfold append_if_stack. simpl. f_equal. lia.
Qed.

Lemma X7_witness :
  let l1 := "RangeError: too deep" in
  let l2 := "TypeError: run is not a function" in
  javascript_scan two_errors 0 [] = javascript_scan two_errors (0 + 2) [] /\
  javascript_scan two_errors 0 [] = Ok [].
Proof.
  intros l1 l2. split; [|by vm_compute].
  apply (X7_second_of_two_javascript_start_lines_is_lost two_errors 0 l1 l2
           (the_match PATTERNS.javascript.error_line l1)
           (the_match PATTERNS.javascript.error_line l2) []).
  - reflexivity.
  - reflexivity.
  - by vm_compute.
  - by vm_compute.
Defined.

(** X8: in the Java scanner the line after a start line, when it is
    neither a frame nor a cause, ends the frame loop and is stepped over:
    the candidate is emitted without frames and the scan resumes two lines
    below the start line, so an exception on that line is not recorded. *)
Theorem X8_line_after_a_java_candidate_is_skipped
    (lines : list string) (i : nat) (l1 l2 : string) (exception_match : Match)
    (traces : list Trace) :
  lines !! i = Some l1 -> lines !! (i + 1)%nat = Some l2 ->
  pmatch PATTERNS.java.exception_line l1 = Some exception_match ->
  java_loop_line l2 = false ->
  java_scan lines i traces =
  java_scan lines (i + 2) (traces ++ [new_java exception_match]).
Proof.
  intros H1 H2 Hm Hl2.
  assert (java_frames lines (i + 1) (new_java exception_match)
          = Ok ((i + 1)%nat, new_java exception_match)) as Hf.
  { apply orb_false_iff in Hl2 as [Ha Hb].
    apply java_frames_exit with l2; auto using not_is_Some_None. }
  rewrite (java_scan_start lines i l1 exception_match _ _ traces H1 Hm Hf).
  f_equal. lia.
Qed.

Lemma X8_witness :
  let l1 := "java.io.IOException: closed" in
  let l2 := "java.lang.IllegalStateException: late" in
  let exception_match := the_match PATTERNS.java.exception_line l1 in
  pmatch PATTERNS.java.exception_line l2 <> None /\
  java_scan two_exceptions 0 [] =
    java_scan two_exceptions (0 + 2) ([] ++ [new_java exception_match]) /\
  java_scan two_exceptions 0 [] =
    Ok [MkTrace java (Some "java.io.IOException") (Some "closed") [] []].
Proof.
  intros l1 l2 exception_match. split; [by vm_compute|]. split; [|by vm_compute].
  apply (X8_line_after_a_java_candidate_is_skipped two_exceptions 0 l1 l2
           exception_match []).
  - reflexivity.
  - reflexivity.
  - by vm_compute.
  - by vm_compute.
Defined.

(** ** Lines before the first start line *)

Lemma lookup_shift (pre lines : list string) i :
  (pre ++ lines) !! (length pre + i)%nat = lines !! i.
Proof. rewrite lookup_app_r by lia. f_equal. lia. Qed.

Lemma lookup_shift_1 (pre lines : list string) i :
  (pre ++ lines) !! (length pre + i + 1)%nat = lines !! (i + 1)%nat.
Proof. rewrite <- Nat.add_assoc. apply lookup_shift. Qed.

(** A frame loop only looks at the lines from its cursor on. *)
Lemma python_frames_shift pre lines i trace traces :
  python_frames (pre ++ lines) (length pre + i) trace traces =
  shifted (length pre) (python_frames lines i trace traces).
Proof.
  funelim (python_frames lines i trace traces); simpl.
  - apply python_frames_end. by rewrite lookup_shift.
  - rewrite (python_frames_step (pre ++ lines) (length pre + i) l file_match
                line_num trace traces); [|by rewrite lookup_shift|done..].
    rewrite lookup_shift_1, <- Nat.add_assoc. apply H.
  - apply (python_frames_raise (pre ++ lines) (length pre + i) l file_match);
      [by rewrite lookup_shift|done..].
  - rewrite (python_frames_exit (pre ++ lines) (length pre + i) l);
      [|by rewrite lookup_shift|done].
    by rewrite Heq.
  - rewrite (python_frames_exit (pre ++ lines) (length pre + i) l);
      [|by rewrite lookup_shift|done].
    by rewrite Heq.
Qed.

Lemma python_scan_shift pre lines i traces :
  python_scan (pre ++ lines) (length pre + i) traces = python_scan lines i traces.
Proof.
  funelim (python_scan lines i traces).
  all: try (apply python_scan_end; by rewrite lookup_shift).
  all: try (match goal with
            | Hr : python_frames _ _ _ _ = Raise ?e |- _ =>
                pose proof (python_frames_shift pre lines (i + 1) new_python traces) as Hs;
                rewrite Hr in Hs; simpl in Hs; rewrite Nat.add_assoc in Hs;
                by apply (python_scan_raise (pre ++ lines) (length pre + i) l _ e traces
                            ltac:(by rewrite lookup_shift) Heq Hs)
            end).
  all: match goal with
       | Hf : python_frames _ _ _ _ = Ok _ |- _ =>
           pose proof (python_frames_shift pre lines (i + 1) new_python traces) as Hs;
           rewrite Hf in Hs; simpl in Hs; rewrite Nat.add_assoc in Hs;
           rewrite (python_scan_start (pre ++ lines) (length pre + i) l _ _ traces _
                      ltac:(by rewrite lookup_shift) Heq Hs)
       | _ =>
           rewrite (python_scan_skip (pre ++ lines) (length pre + i) l traces
                      ltac:(by rewrite lookup_shift) Heq)
       end; rewrite <- Nat.add_assoc; apply H.
Qed.

Lemma javascript_frames_at lines i l at_match line_num col trace :
  lines !! i = Some l ->
  pmatch PATTERNS.javascript.at_line l = Some at_match ->
  int (group at_match 3) = Ok line_num -> int (group at_match 4) = Ok col ->
  javascript_frames lines i trace =
  javascript_frames lines (i + 1)
    (push_frame trace (MkFrame (group at_match 2) line_num
                               (Some (group at_match 1)) None (Some col) None)).
Proof.
  intros Hi Hm Hn Hc. funelim (javascript_frames lines i trace); congruence.
Qed.

Lemma javascript_frames_simple lines i l simple_match line_num col trace :
  lines !! i = Some l ->
  pmatch PATTERNS.javascript.at_line l = None ->
  pmatch PATTERNS.javascript.at_line_simple l = Some simple_match ->
  int (group simple_match 2) = Ok line_num -> int (group simple_match 3) = Ok col ->
  javascript_frames lines i trace =
  javascript_frames lines (i + 1)
    (push_frame trace (MkFrame (group simple_match 1) line_num None None
                               (Some col) None)).
Proof.
  intros Hi Ha Hm Hn Hc. funelim (javascript_frames lines i trace); congruence.
Qed.

Lemma javascript_frames_raise lines i l at_match e trace :
  lines !! i = Some l ->
  pmatch PATTERNS.javascript.at_line l = Some at_match ->
  int (group at_match 3) = Raise e \/
  (is_ok (int (group at_match 3)) = true /\ int (group at_match 4) = Raise e) ->
  javascript_frames lines i trace = Raise e.
Proof.
  intros Hi Hm Hn. funelim (javascript_frames lines i trace); try congruence.
  all: assert (l0 = l) as -> by congruence.
  all: assert (at_match0 = at_match) as -> by congruence.
  all: destruct Hn as [Hn|[Hn1 Hn2]]; try congruence.
  all: try (rewrite Heq in Hn1; discriminate).
  all: try (rewrite Heq0 in Hn1; discriminate).
  all: destruct e, e0; done.
Qed.

Lemma javascript_frames_raise_simple lines i l simple_match e trace :
  lines !! i = Some l ->
  pmatch PATTERNS.javascript.at_line l = None ->
  pmatch PATTERNS.javascript.at_line_simple l = Some simple_match ->
  int (group simple_match 2) = Raise e \/
  (is_ok (int (group simple_match 2)) = true /\ int (group simple_match 3) = Raise e) ->
  javascript_frames lines i trace = Raise e.
Proof.
  intros Hi Ha Hm Hn. funelim (javascript_frames lines i trace); try congruence.
  all: assert (l0 = l) as -> by congruence.
  all: assert (simple_match0 = simple_match) as -> by congruence.
  all: destruct Hn as [Hn|[Hn1 Hn2]]; try congruence.
  all: try (rewrite Heq in Hn1; discriminate).
  all: try (rewrite Heq0 in Hn1; discriminate).
  all: destruct e, e0; done.
Qed.

Lemma javascript_frames_shift pre lines i trace :
  javascript_frames (pre ++ lines) (length pre + i) trace =
  shifted (length pre) (javascript_frames lines i trace).
Proof.
  funelim (javascript_frames lines i trace); simpl.
  all: try (match goal with
            | Hm : pmatch PATTERNS.javascript.at_line _ = Some ?m |- _ = Raise ?e =>
                apply (javascript_frames_raise (pre ++ lines) (length pre + i) l m);
                [by rewrite lookup_shift|done|];
                first [ by left | right; split; [|done];
                                  match goal with
                                  | Hk : int _ = Ok _ |- _ => by rewrite Hk
                                  end ]
            | Hm : pmatch PATTERNS.javascript.at_line_simple _ = Some ?m
              |- _ = Raise ?e =>
                apply (javascript_frames_raise_simple (pre ++ lines) (length pre + i)
                         l m);
                [by rewrite lookup_shift|done|done|];
                first [ by left | right; split; [|done];
                                  match goal with
                                  | Hk : int _ = Ok _ |- _ => by rewrite Hk
                                  end ]
            end).
  all: try (apply javascript_frames_end; by rewrite lookup_shift).
  all: try (apply javascript_frames_exit with l; [by rewrite lookup_shift|done..]).
  all: match goal with
       | Hm : pmatch PATTERNS.javascript.at_line _ = Some ?m |- _ =>
           rewrite (javascript_frames_at (pre ++ lines) (length pre + i) l m
                      line_num col); [|by rewrite lookup_shift|done..]
       | Hm : pmatch PATTERNS.javascript.at_line_simple _ = Some ?m |- _ =>
           rewrite (javascript_frames_simple (pre ++ lines) (length pre + i) l m
                      line_num col); [|by rewrite lookup_shift|done..]
       end; rewrite <- Nat.add_assoc; apply H.
Qed.

Lemma javascript_scan_shift pre lines i traces :
  javascript_scan (pre ++ lines) (length pre + i) traces = javascript_scan lines i traces.
Proof.
  funelim (javascript_scan lines i traces).
  all: try (apply javascript_scan_end; by rewrite lookup_shift).
  all: try (match goal with
            | Hr : javascript_frames _ _ _ = Raise ?e |- _ =>
                pose proof (javascript_frames_shift pre lines (i + 1) (new_javascript error_match)) as Hs;
                rewrite Hr in Hs; simpl in Hs; rewrite Nat.add_assoc in Hs;
                by apply (javascript_scan_raise (pre ++ lines) (length pre + i) l _ e traces
                            ltac:(by rewrite lookup_shift) Heq Hs)
            end).
  all: match goal with
       | Hf : javascript_frames _ _ _ = Ok _ |- _ =>
           pose proof (javascript_frames_shift pre lines (i + 1)
                         (new_javascript error_match)) as Hs;
           rewrite Hf in Hs; simpl in Hs; rewrite Nat.add_assoc in Hs;
           rewrite (javascript_scan_start (pre ++ lines) (length pre + i) l _ _ _ traces
                      ltac:(by rewrite lookup_shift) Heq Hs)
       | _ =>
           rewrite (javascript_scan_skip (pre ++ lines) (length pre + i) l traces
                      ltac:(by rewrite lookup_shift) Heq)
       end; rewrite <- Nat.add_assoc; apply H.
Qed.

Lemma java_frames_shift pre lines i trace :
  java_frames (pre ++ lines) (length pre + i) trace =
  shifted (length pre) (java_frames lines i trace).
Proof.
  funelim (java_frames lines i trace); simpl.
  all: try (match goal with
            | Hm : pmatch PATTERNS.java.at_line _ = Some ?m |- _ = Raise ?e =>
                by apply (java_frames_raise (pre ++ lines) (length pre + i) l m);
                [by rewrite lookup_shift|done..]
            end).
  all: try (apply java_frames_end; by rewrite lookup_shift).
  all: try (apply java_frames_exit with l; [by rewrite lookup_shift|done..]).
  all: match goal with
       | Hm : pmatch PATTERNS.java.at_line _ = Some ?m |- _ =>
           rewrite (java_frames_at (pre ++ lines) (length pre + i) l m line_num trace);
           [|by rewrite lookup_shift|done..]
       | Hm : pmatch PATTERNS.java.caused_by _ = Some ?m |- _ =>
           rewrite (java_frames_cause (pre ++ lines) (length pre + i) l m);
           [|by rewrite lookup_shift|done..]
       end; rewrite <- Nat.add_assoc; apply H.
Qed.

Lemma java_scan_shift pre lines i traces :
  java_scan (pre ++ lines) (length pre + i) traces = java_scan lines i traces.
Proof.
  funelim (java_scan lines i traces).
  all: try (apply java_scan_end; by rewrite lookup_shift).
  all: try (match goal with
            | Hr : java_frames _ _ _ = Raise ?e |- _ =>
                pose proof (java_frames_shift pre lines (i + 1) (new_java exception_match)) as Hs;
                rewrite Hr in Hs; simpl in Hs; rewrite Nat.add_assoc in Hs;
                by apply (java_scan_raise (pre ++ lines) (length pre + i) l _ e traces
                            ltac:(by rewrite lookup_shift) Heq Hs)
            end).
  all: match goal with
       | Hf : java_frames _ _ _ = Ok _ |- _ =>
           pose proof (java_frames_shift pre lines (i + 1)
                         (new_java exception_match)) as Hs;
           rewrite Hf in Hs; simpl in Hs; rewrite Nat.add_assoc in Hs;
           rewrite (java_scan_start (pre ++ lines) (length pre + i) l _ _ _ traces
                      ltac:(by rewrite lookup_shift) Heq Hs)
       | _ =>
           rewrite (java_scan_skip (pre ++ lines) (length pre + i) l traces
                      ltac:(by rewrite lookup_shift) Heq)
       end; rewrite <- Nat.add_assoc; apply H.
Qed.

Lemma go_frames_shift pre lines i trace :
  go_frames (pre ++ lines) (length pre + i) trace =
  shifted (length pre) (go_frames lines i trace).
Proof.
  funelim (go_frames lines i trace); simpl.
  all: try (match goal with
            | Hloc : pmatch PATTERNS.go.location _ = Some ?lm |- _ = Raise ?e =>
                by apply (go_frames_raise (pre ++ lines) (length pre + i) l func_match
                            nxt lm);
                [by rewrite lookup_shift|done|done|by rewrite lookup_shift_1|done..]
            end).
  all: try (apply go_frames_end; by rewrite lookup_shift).
  all: try (match goal with
            | Hg : pmatch PATTERNS.go.goroutine _ = Some ?hm |- _ =>
                rewrite (go_frames_header (pre ++ lines) (length pre + i) l hm);
                [|by rewrite lookup_shift|done];
                rewrite <- Nat.add_assoc; apply H
            end).
  all: try (match goal with
            | Hloc : pmatch PATTERNS.go.location _ = Some ?lm |- _ =>
                rewrite (go_frames_frame (pre ++ lines) (length pre + i) l func_match
                           nxt lm line_num trace);
                [|by rewrite lookup_shift|done|done|by rewrite lookup_shift_1|done..];
                rewrite <- Nat.add_assoc; apply H
            | Hloc : pmatch PATTERNS.go.location _ = None |- _ =>
                rewrite (go_frames_no_location (pre ++ lines) (length pre + i) l
                           func_match nxt);
                [|by rewrite lookup_shift|done|done|by rewrite lookup_shift_1|done];
                rewrite <- Nat.add_assoc; apply H
            end).
  all: rewrite (go_frames_other (pre ++ lines) (length pre + i) l);
    [|by rewrite lookup_shift|done
     |first [by left|right; by rewrite lookup_shift_1]].
  all: first [ rewrite Heq | rewrite Heq0 | rewrite Heq1 ];
    first [ done | rewrite <- Nat.add_assoc; apply H ].
Qed.

Lemma go_scan_shift pre lines i traces :
  go_scan (pre ++ lines) (length pre + i) traces = go_scan lines i traces.
Proof.
  funelim (go_scan lines i traces).
  all: try (apply go_scan_end; by rewrite lookup_shift).
  all: try (match goal with
            | Hr : go_frames _ _ _ = Raise ?e |- _ =>
                pose proof (go_frames_shift pre lines (i + 1) (new_go panic_match)) as Hs;
                rewrite Hr in Hs; simpl in Hs; rewrite Nat.add_assoc in Hs;
                by apply (go_scan_raise (pre ++ lines) (length pre + i) l _ e traces
                            ltac:(by rewrite lookup_shift) Heq Hs)
            end).
  all: match goal with
       | Hf : go_frames _ _ _ = Ok _ |- _ =>
           pose proof (go_frames_shift pre lines (i + 1) (new_go panic_match)) as Hs;
           rewrite Hf in Hs; simpl in Hs; rewrite Nat.add_assoc in Hs;
           rewrite (go_scan_start (pre ++ lines) (length pre + i) l _ _ _ traces
                      ltac:(by rewrite lookup_shift) Heq Hs)
       | _ =>
           rewrite (go_scan_skip (pre ++ lines) (length pre + i) l traces
                      ltac:(by rewrite lookup_shift) Heq)
       end; rewrite <- Nat.add_assoc; apply H.
Qed.

Lemma split_lines_nonempty s : split_lines s <> [].
Proof.
  destruct s as [|c s]; simpl; [done|].
  destruct (eqc c LF); [done|]. by destruct (split_lines s).
Qed.

(** Splitting after a newline splits the lines of the two parts. *)
Lemma split_lines_app (pre text : string) :
  split_lines (pre ++ String LF text) = split_lines pre ++ split_lines text.
Proof.
  induction pre as [|c pre IH]; simpl.
  - done.
  - rewrite IH. destruct (eqc c LF); [done|].
    pose proof (split_lines_nonempty pre). by destruct (split_lines pre).
Qed.

Section SkipPrefix.

Variables pre lines : list string.

Lemma python_scan_prefix traces :
  (forall l, l ∈ pre -> pmatch PATTERNS.python.traceback_start l = None) ->
  python_scan (pre ++ lines) 0 traces = python_scan lines 0 traces.
Proof.
  induction pre as [|x p IH]; intros Hno; [done|].
  rewrite (python_scan_skip _ 0 x) by (auto; apply Hno; by left).
  rewrite <- IH by (intros l Hl; apply Hno; by right).
  apply (python_scan_shift [x] (p ++ lines) 0).
Qed.

Lemma javascript_scan_prefix traces :
  (forall l, l ∈ pre -> pmatch PATTERNS.javascript.error_line l = None) ->
  javascript_scan (pre ++ lines) 0 traces = javascript_scan lines 0 traces.
Proof.
  induction pre as [|x p IH]; intros Hno; [done|].
  rewrite (javascript_scan_skip _ 0 x) by (auto; apply Hno; by left).
  rewrite <- IH by (intros l Hl; apply Hno; by right).
  apply (javascript_scan_shift [x] (p ++ lines) 0).
Qed.

Lemma java_scan_prefix traces :
  (forall l, l ∈ pre -> pmatch PATTERNS.java.exception_line l = None) ->
  java_scan (pre ++ lines) 0 traces = java_scan lines 0 traces.
Proof.
  induction pre as [|x p IH]; intros Hno; [done|].
  rewrite (java_scan_skip _ 0 x) by (auto; apply Hno; by left).
  rewrite <- IH by (intros l Hl; apply Hno; by right).
  apply (java_scan_shift [x] (p ++ lines) 0).
Qed.

Lemma go_scan_prefix traces :
  (forall l, l ∈ pre -> pmatch PATTERNS.go.panic_line l = None) ->
  go_scan (pre ++ lines) 0 traces = go_scan lines 0 traces.
Proof.
  induction pre as [|x p IH]; intros Hno; [done|].
  rewrite (go_scan_skip _ 0 x) by (auto; apply Hno; by left).
  rewrite <- IH by (intros l Hl; apply Hno; by right).
  apply (go_scan_shift [x] (p ++ lines) 0).
Qed.

End SkipPrefix.

(** X9: lines before the first start line do not matter.  When no line of
    [pre] matches a start pattern, [parse_text] returns for [pre], a
    newline and [text] exactly what it returns for [text]. *)
Theorem X9_lines_before_the_first_start_line_are_ignored (pre text : string) :
  (forall l, l ∈ split_lines pre -> no_start_line l) ->
  parse_text (pre ++ String LF text) = parse_text text.
Proof.
  intros Hno.
  unfold parse_text, PATTERNS_keys, extend_all, scanner.
  unfold _parse_python, _parse_javascript, _parse_java, _parse_go.
  rewrite split_lines_app.
  rewrite python_scan_prefix by (intros l Hl; apply (Hno l Hl)).
  rewrite javascript_scan_prefix by (intros l Hl; apply (Hno l Hl)).
  rewrite java_scan_prefix by (intros l Hl; apply (Hno l Hl)).
  rewrite go_scan_prefix by (intros l Hl; apply (Hno l Hl)).
  done.
Qed.

Lemma X9_witness :
  (forall l, l ∈ split_lines log_preamble -> no_start_line l) /\
  parse_text (log_preamble ++ String LF one_of_each) = parse_text one_of_each.
Proof.
  assert (forall l, l ∈ split_lines log_preamble -> no_start_line l) as Hno.
  { intros l Hl. vm_compute in Hl.
    repeat (apply elem_of_cons in Hl as [->|Hl]; [by vm_compute|]).
    by apply elem_of_nil in Hl. }
  split; [exact Hno|].
  exact (X9_lines_before_the_first_start_line_are_ignored log_preamble one_of_each Hno).
Defined.

(** * The mappings of the log analyzer *)

Lemma lookup_incr k k' (d : gmap string nat) :
  default 0%nat (incr k' d !! k) =
  if String.eqb k' k then S (default 0%nat (d !! k)) else default 0%nat (d !! k).
Proof.
  unfold incr. destruct (String.eqb_spec k' k) as [->|Hne].
  - by rewrite lookup_insert_eq.
  - by rewrite lookup_insert_ne.
Qed.

Lemma positive_incr k d : positive d -> positive (incr k d).
Proof.
  intros Hd k' n. unfold incr.
  destruct (decide (k = k')) as [->|Hne].
  - rewrite lookup_insert_eq. intros [= <-]. lia.
  - rewrite lookup_insert_ne by done. apply Hd.
Qed.

Lemma analyze_lines_positive pattern lines : forall i a,
  positive (errors a) -> positive (warnings a) ->
  positive (errors (analyze_lines pattern i lines a)) /\
  positive (warnings (analyze_lines pattern i lines a)).
Proof.
  induction lines as [|l lines IH]; intros i a He Hw; simpl; [done|].
  apply IH; simpl.
  - destruct (is_error l); [by apply positive_incr|done].
  - destruct (is_warning l); [by apply positive_incr|done].
Qed.

Lemma analyze_lines_error_count pattern k lines : forall i a,
  default 0%nat (errors (analyze_lines pattern i lines a) !! k) =
  (default 0%nat (errors a !! k) + occurrences is_error k lines)%nat.
Proof.
  unfold occurrences.
  induction lines as [|l lines IH]; intros i a; simpl; [lia|].
  rewrite IH. simpl. destruct (is_error l); simpl; [|lia].
  rewrite lookup_incr. destruct (String.eqb _ k); simpl; lia.
Qed.

Lemma analyze_lines_warning_count pattern k lines : forall i a,
  default 0%nat (warnings (analyze_lines pattern i lines a) !! k) =
  (default 0%nat (warnings a !! k) + occurrences is_warning k lines)%nat.
Proof.
  unfold occurrences.
  induction lines as [|l lines IH]; intros i a; simpl; [lia|].
  rewrite IH. simpl. destruct (is_warning l); simpl; [|lia].
  rewrite lookup_incr. destruct (String.eqb _ k); simpl; lia.
Qed.

Lemma counted_lookup (d : gmap string nat) k n :
  positive d -> default 0%nat (d !! k) = n -> d !! k = counted n.
Proof.
  intros Hd Hn. destruct (d !! k) as [m|] eqn:Hk; simpl in Hn; rewrite <- Hn; [|done].
  specialize (Hd _ _ Hk). destruct m; [lia|done].
Qed.

Lemma analyze_file_counts (content : string) (pattern : option string) (k : string) :
  errors (analyze_file content pattern) !! k
    = counted (occurrences is_error k (readlines content)) /\
  warnings (analyze_file content pattern) !! k
    = counted (occurrences is_warning k (readlines content)).
Proof.
  unfold analyze_file.
  destruct (analyze_lines_positive pattern (readlines content) 1
              (MkAnalysis (length (readlines content)) ∅ ∅ ∅ [])) as [He Hw];
    [by intros ? ? ?..|].
  split; apply counted_lookup; try done.
  - by rewrite analyze_lines_error_count.
  - by rewrite analyze_lines_warning_count.
Qed.

(** X10: the two mappings count, under each key, the lines with that
    severity that normalize to the key, and hold no key for which there is
    no such line: a stored count is never 0. *)
Theorem X10_counts_per_message (content : string) (pattern : option string) (k : string) :
  let analysis := analyze_file content pattern in
  let lines := readlines content in
  errors analysis !! k = counted (occurrences is_error k lines) /\
  warnings analysis !! k = counted (occurrences is_warning k lines).
Proof. apply analyze_file_counts. Qed.

Lemma prefix_take n : forall s,
  list_ascii_of_string (prefix n s) = take n (list_ascii_of_string s).
Proof.
  induction n as [|n IH]; intros [|c s]; simpl; try done. by rewrite IH.
Qed.

Lemma string_length_list s : String.length s = length (list_ascii_of_string s).
Proof. induction s as [|c s IH]; simpl; [done|]. by rewrite IH. Qed.

(** The normalized message is at most 100 characters long and does not
    begin with a separator. *)
Lemma extract_error_message_shape line : key_shape (_extract_error_message line).
Proof.
  unfold _extract_error_message, key_shape.
  set (cleaned := strip_chars _ _). split.
  - rewrite string_length_list, prefix_take, length_take. lia.
  - intros c t. rewrite prefix_take.
    destruct (strip_chars_trimmed " :|-" (re_delete false logger_name
                (re_delete true level_word (re_delete false timestamp_prefix line))))
      as [Hhead _].
    fold cleaned in Hhead.
    destruct (list_ascii_of_string cleaned) as [|c' t'] eqn:Hc.
    + by rewrite take_nil.
    + destruct (100%nat) as [|n] eqn:Hn; [done|]. simpl. intros [= <- _].
      by apply (Hhead c' t').
Qed.

Lemma occurrences_line test k lines :
  (1 <= occurrences test k lines)%nat ->
  exists line, In line lines /\ test line = true /\ _extract_error_message line = k.
Proof.
  unfold occurrences. intros Hn.
  destruct (List.filter _ lines) as [|line rest] eqn:Hf; [simpl in Hn; lia|].
  assert (In line (List.filter (fun l => test l && String.eqb (_extract_error_message l) k)
                     lines)) as Hin by (rewrite Hf; by left).
  apply filter_In in Hin as [Hin [Ht He]%andb_true_iff].
  apply String.eqb_eq in He. eauto.
Qed.

Lemma counted_Some n m : counted n = Some m -> n = m /\ (1 <= n)%nat.
Proof. destruct n; simpl; [discriminate|]. intros [= <-]. lia. Qed.

(** X11: every key of the two mappings is the normalized message of a
    line of the file with that severity; it has at most 100 characters and
    does not begin with a blank, a colon, a bar or a dash. *)
Theorem X11_keys_are_bounded_normalized_messages
    (content : string) (pattern : option string) :
  let analysis := analyze_file content pattern in
  let lines := readlines content in
  map_Forall (fun k _ => key_shape k /\ exists line, In line lines /\
                is_error line = true /\ k = _extract_error_message line)
             (errors analysis) /\
  map_Forall (fun k _ => key_shape k /\ exists line, In line lines /\
                is_warning line = true /\ k = _extract_error_message line)
             (warnings analysis).
Proof.
  cbv zeta. split; intros k n Hk.
  - destruct (analyze_file_counts content pattern k) as [He _].
    rewrite He in Hk. apply counted_Some in Hk as [_ Hk].
    destruct (occurrences_line _ _ _ Hk) as (line & Hin & Ht & <-).
    split; [apply extract_error_message_shape|eauto].
  - destruct (analyze_file_counts content pattern k) as [_ Hw].
    rewrite Hw in Hk. apply counted_Some in Hk as [_ Hk].
    destruct (occurrences_line _ _ _ Hk) as (line & Hin & Ht & <-).
    split; [apply extract_error_message_shape|eauto].
Qed.

(** ** Timestamps *)

Lemma run_width ic r : forall n s s',
  width r = Some n -> In s' (run ic r s) ->
  length (rest s) = (n + length (rest s'))%nat.
Proof.
  induction r; intros k s s'; simpl; try discriminate.
  - by intros [= <-] [<-|[]].
  - intros [= <-]. destruct (prev s); [intros []|by intros [<-|[]]].
  - intros [= <-]. destruct (xorb _ _); [by intros [<-|[]]|intros []].
  - intros [= <-] (c' & -> & _)%in_step1. done.
  - intros [= <-] (c' & -> & _)%in_step1. done.
  - destruct (width r1) as [a|] eqn:Ea; [|discriminate].
    destruct (width r2) as [b|] eqn:Eb; [|discriminate].
    intros [= <-] (s1 & H1 & H2)%in_flat_map.
    rewrite (IHr1 _ _ _ eq_refl H1), (IHr2 _ _ _ eq_refl H2). lia.
  - intros Hw (s1 & <- & H)%in_map_iff. simpl. eauto.
Qed.

Lemma string_of_list_length w : String.length (string_of_list_ascii w) = length w.
Proof. induction w as [|c w IH]; simpl; [done|]. by rewrite IH. Qed.

Lemma match_from_width ic r n p t m :
  width r = Some n -> match_from ic r p t = Some m -> String.length (whole m) = n.
Proof.
  unfold match_from. intros Hw Hm.
  destruct (head _) as [s'|] eqn:Hh; [|discriminate].
  injection Hm as <-. apply head_In in Hh. simpl.
  pose proof (run_width _ _ _ _ _ Hw Hh) as Hlen. simpl in Hlen.
  rewrite string_of_list_length. unfold consumed. simpl.
  rewrite length_take. lia.
Qed.

Lemma search_from_width ic r n t : forall p m,
  width r = Some n -> search_from ic r p t = Some m -> String.length (whole m) = n.
Proof.
  induction t as [|c t IH]; intros p m Hw; simpl.
  - destruct (match_from ic r p []) eqn:Hm; [|discriminate].
    intros [= <-]. by eapply match_from_width.
  - destruct (match_from ic r p (c :: t)) eqn:Hm.
    + intros [= <-]. by eapply match_from_width.
    + by apply IH.
Qed.

Lemma first_timestamp_length line ts :
  first_timestamp line = Some ts -> String.length ts = 19%nat.
Proof.
  unfold first_timestamp, re_search.
  destruct (search_from _ _ _ _) as [m|] eqn:Hs; [|discriminate].
  intros [= <-]. by apply (search_from_width _ _ 19) in Hs.
Qed.

Lemma analyze_lines_timestamps pattern lines : forall i a,
  timestamps (analyze_lines pattern i lines a) =
  timestamps a ++ omap first_timestamp lines.
Proof.
  induction lines as [|l lines IH]; intros i a; simpl; [by rewrite app_nil_r|].
  rewrite IH. simpl. unfold first_timestamp.
  destruct (re_search false timestamp_pattern l); simpl; [|done].
  by rewrite <- app_assoc.
Qed.

Lemma omap_length_le {A B} (f : A -> option B) (l : list A) :
  (length (omap f l) <= length l)%nat.
Proof.
  induction l as [|x l IH]; csimpl; [done|]. destruct (f x); simpl; lia.
Qed.

(** X12: the timestamp list holds the first timestamp of each line that
    has one, in the order of the lines; every entry is 19 characters long,
    and there are no more entries than lines. *)
Theorem X12_one_timestamp_per_line_in_order (content : string) (pattern : option string) :
  let analysis := analyze_file content pattern in
  timestamps analysis = omap first_timestamp (readlines content) /\
  Forall (fun ts => String.length ts = 19%nat) (timestamps analysis) /\
  (length (timestamps analysis) <= total_lines analysis)%nat.
Proof.
  cbv zeta. unfold analyze_file.
  rewrite analyze_lines_timestamps, analyze_lines_total. simpl.
  split; [done|]. split.
  - apply Forall_forall. intros ts (line & _ & Hts)%list_elem_of_omap.
    by eapply first_timestamp_length.
  - apply omap_length_le.
Qed.

(** ** The custom pattern *)

Lemma analyze_lines_patterns_none pattern lines : forall i a,
  (pattern = None \/ pattern = Some EmptyString) ->
  patterns (analyze_lines pattern i lines a) = patterns a.
Proof.
  induction lines as [|l lines IH]; intros i a Hp; simpl; [done|].
  rewrite IH by done. simpl. by destruct Hp as [-> | ->].
Qed.

Lemma analyze_lines_patterns_some p lines : forall i a,
  p <> EmptyString ->
  patterns (analyze_lines (Some p) i lines a) =
  match matching_lines p i lines with
  | [] => patterns a
  | found => <[p := default [] (patterns a !! p) ++ found]> (patterns a)
  end.
Proof.
  induction lines as [|l lines IH]; intros i a Hp; simpl; [done|].
  rewrite IH by done. simpl.
  destruct (String.eqb_spec p EmptyString) as [|_]; [done|]. simpl.
  destruct (contains p l); simpl; [|done].
  unfold append_to. rewrite lookup_insert_eq. simpl.
  destruct (matching_lines p (S i) lines) as [|h t].
  - done.
  - by rewrite insert_insert_eq, <- app_assoc.
Qed.

(** X13: without a custom pattern, or with the empty one, the pattern
    mapping stays empty.  With a pattern [p] it has at most the key [p],
    whose entry lists the lines that contain [p], in order, each with its
    number counted from 1 and its text trimmed of blanks; when no line
    contains [p] there is no entry at all. *)
Theorem X13_custom_pattern_lists_the_containing_lines (content : string) (p : string) :
  patterns (analyze_file content None) = ∅ /\
  patterns (analyze_file content (Some p)) =
    if String.eqb p EmptyString then ∅
    else match matching_lines p 1 (readlines content) with
         | [] => ∅
         | found => {[ p := found ]}
         end.
Proof.
  unfold analyze_file. split.
  - by rewrite analyze_lines_patterns_none by auto.
  - destruct (String.eqb_spec p EmptyString) as [->|Hp].
    + by rewrite analyze_lines_patterns_none by auto.
    + rewrite analyze_lines_patterns_some by done. simpl.
      destruct (matching_lines p 1 (readlines content)); [done|].
      by rewrite lookup_empty.
Qed.

(** ** Lines that differ in their timestamp only *)

Lemma Forall2_same_refl l : Forall2 same_place l l.
Proof. induction l; constructor; [by split|done]. Qed.

Lemma Forall2_flat_map_same (f1 f2 : mstate -> list mstate) l1 l2 :
  Forall2 same_place l1 l2 ->
  (forall x y, same_place x y -> Forall2 same_place (f1 x) (f2 y)) ->
  Forall2 same_place (flat_map f1 l1) (flat_map f2 l2).
Proof.
  intros Hl Hf. induction Hl; simpl; [constructor|].
  apply Forall2_app; auto.
Qed.

Lemma step1_same ok s1 s2 :
  same_place s1 s2 -> Forall2 same_place (step1 ok s1) (step1 ok s2).
Proof.
  intros [Hr Hg]. unfold step1. rewrite Hr, Hg.
  destruct (rest s2) as [|c r]; [constructor|].
  destruct (ok c); repeat constructor.
Qed.

Lemma greedy_same cs p1 p2 r g :
  Forall2 same_place (greedy cs p1 r g) (greedy cs p2 r g).
Proof.
  destruct r as [|c r]; simpl.
  - repeat constructor.
  - destruct (mem cs c).
    + apply Forall2_app; [apply Forall2_same_refl|repeat constructor].
    + repeat constructor.
Qed.

Lemma run_same ic r : forall s1 s2,
  anchor_free r = true -> same_place s1 s2 ->
  Forall2 same_place (run ic r s1) (run ic r s2).
Proof.
  induction r; intros s1 s2 Ha Hs; simpl in *; try discriminate.
  - constructor; [done|constructor].
  - by apply step1_same.
  - by apply step1_same.
  - apply andb_true_iff in Ha as [Ha Hb].
    apply Forall2_flat_map_same; auto.
  - apply andb_true_iff in Ha as [Ha Hb]. apply Forall2_app; auto.
  - apply Forall2_app; [auto|constructor; [done|constructor]].
  - apply Forall2_flat_map_same; [by apply step1_same|].
    intros x y [Hr Hg]. rewrite Hr, Hg. apply greedy_same.
  - destruct Hs as [Hr Hg]. rewrite Hr, Hg. apply greedy_same.
  - specialize (IHr _ _ Ha Hs). destruct Hs as [Hr Hg].
    induction IHr as [|x y l1 l2 [Hxr Hxg] _ IH]; simpl; constructor; [|done].
    split; simpl; [done|]. unfold consumed. by rewrite Hr, Hxr, Hxg.
Qed.

(** A match does not depend on the character before it. *)
Lemma match_from_prev ic r p1 p2 t :
  anchor_free r = true -> match_from ic r p1 t = match_from ic r p2 t.
Proof.
  intros Ha. unfold match_from.
  pose proof (run_same ic r (MState p1 t []) (MState p2 t []) Ha
                ltac:(by split)) as Hs.
  destruct Hs as [|x y l1 l2 [Hr Hg] _]; simpl; [done|].
  unfold consumed. simpl. by rewrite Hr, Hg.
Qed.

Lemma delete_from_prev ic r p1 p2 t k :
  anchor_free r = true -> delete_from ic r p1 t k = delete_from ic r p2 t k.
Proof.
  intros Ha. destruct t as [|c t]; [done|]. simpl.
  destruct k; [|done]. by rewrite (match_from_prev ic r p1 p2).
Qed.

(** Dropping the [length w] characters of a match that are left. *)
Lemma delete_from_skip ic r w : forall p p' t,
  anchor_free r = true ->
  delete_from ic r p (w ++ t) (length w) = delete_from ic r p' t 0.
Proof.
  induction w as [|c w IH]; intros p p' t Ha; simpl.
  - by apply delete_from_prev.
  - by apply IH.
Qed.

(** A plain pattern finishes in at most one way, and in the same way when
    text is added after what it matched. *)
Lemma plain_run_le r ic : forall s, plain r = true -> (length (run ic r s) <= 1)%nat.
Proof.
  induction r; intros s Hp; simpl in *; try discriminate; try done.
  - unfold step1. destruct (rest s); [simpl; lia|]. destruct (chr_ok _ _ _); simpl; lia.
  - unfold step1. destruct (rest s); [simpl; lia|]. destruct (mem _ _); simpl; lia.
  - apply andb_true_iff in Hp as [Ha Hb].
    specialize (IHr1 s Ha). destruct (run ic r1 s) as [|s1 [|s2 l]]; simpl in *;
      [lia| |lia].
    rewrite app_nil_r. auto.
Qed.

Lemma plain_run_extended r ic t : forall s s',
  plain r = true -> In s' (run ic r s) -> In (extended t s') (run ic r (extended t s)).
Proof.
  induction r; intros s s' Hp; simpl in *; try discriminate.
  - intros [<-|[]]. by left.
  - intros (c' & Hr & Hc & Hq & Hg)%in_step1. apply in_step1.
    exists c'. simpl. rewrite Hr, Hc, Hq, Hg. auto.
  - intros (c' & Hr & Hc & Hq & Hg)%in_step1. apply in_step1.
    exists c'. simpl. rewrite Hr, Hc, Hq, Hg. auto.
  - apply andb_true_iff in Hp as [Ha Hb].
    intros (s1 & H1 & H2)%in_flat_map. apply in_flat_map.
    exists (extended t s1). split; auto.
Qed.

Lemma head_app_nonempty {A} (l1 l2 : list A) : l1 <> [] -> head (l1 ++ l2) = head l1.
Proof. by destruct l1. Qed.

(** A greedy repetition first tries to take all it can. *)
Lemma greedy_head cs r : forall p g,
  exists p', head (greedy cs p r g) = Some (MState p' (lstrip_list (mem cs) r) g).
Proof.
  induction r as [|c r IH]; intros p g; simpl; [eauto|].
  destruct (mem cs c); [|eauto].
  destruct (IH (Some c) g) as [p' Hp']. exists p'.
  rewrite head_app_nonempty; [done|]. by destruct (greedy cs (Some c) r g).
Qed.

Lemma list_ascii_of_string_app (a b : string) :
  list_ascii_of_string (a ++ b) = list_ascii_of_string a ++ list_ascii_of_string b.
Proof. induction a as [|c a IH]; simpl; [done|]. by rewrite IH. Qed.

Lemma lstrip_length p w : (length (lstrip_list p w) <= length w)%nat.
Proof.
  induction w as [|c w IH]; simpl; [done|]. destruct (p c); simpl; lia.
Qed.

Lemma timestamp_prefix_match ts (r : list ascii) p :
  is_timestamp ts ->
  exists m, match_from false timestamp_prefix p (list_ascii_of_string ts ++ r) = Some m /\
            String.length (whole m) =
            (19 + (length r - length (lstrip_list (mem tail_set) r)))%nat /\
            length (list_ascii_of_string ts) = 19%nat.
Proof.
  intros (m0 & Hm0 & Hw0).
  rewrite (match_from_prev false timestamp_prefix p None) by done.
  unfold re_match, match_from in Hm0.
  destruct (head _) as [s0|] eqn:Hh; [|discriminate].
  injection Hm0 as <-. simpl in Hw0. apply head_In in Hh.
  pose proof (run_width false timestamp_pattern 19 _ _ eq_refl Hh) as Hlen.
  simpl in Hlen.
  assert (rest s0 = []) as Hrest.
  { apply (f_equal list_ascii_of_string) in Hw0.
    rewrite list_ascii_of_string_of_list_ascii in Hw0.
    apply (f_equal (@length ascii)) in Hw0. unfold consumed in Hw0. simpl in Hw0.
    rewrite length_take in Hw0. destruct (rest s0); [done|]. simpl in *. lia. }
  rewrite Hrest in Hlen. simpl in Hlen.
  pose proof (plain_run_extended timestamp_pattern false r _ _ eq_refl Hh) as Hext.
  pose proof (plain_run_le timestamp_pattern false
                (extended r (MState None (list_ascii_of_string ts) [])) eq_refl) as Hle.
  unfold extended in Hext, Hle. cbn [prev rest caps] in Hext, Hle.
  rewrite Hrest in Hext. cbn [app] in Hext.
  set (s := MState None (list_ascii_of_string ts ++ r) []) in *.
  assert (run false timestamp_pattern s = [MState (prev s0) r (caps s0)]) as Hrun.
  { destruct (run false timestamp_pattern s) as [|x [|y l]];
      [destruct Hext|by destruct Hext as [->|[]]|simpl in Hle; lia]. }
  unfold match_from. fold s.
  change (run false timestamp_prefix s)
    with (flat_map (fun s1 => greedy tail_set (prev s1) (rest s1) (caps s1))
                   (run false timestamp_pattern s)).
  rewrite Hrun. cbn [flat_map prev rest caps]. rewrite app_nil_r.
  destruct (greedy_head tail_set r (prev s0) (caps s0)) as [p' ->].
  pose proof (lstrip_length (mem tail_set) r) as Hstrip.
  set (stripped := lstrip_list (mem tail_set) r) in *. clearbody stripped.
  subst s. eexists. split; [done|]. simpl. rewrite string_of_list_length.
  unfold consumed. simpl. rewrite length_take, length_app.
  split; lia.
Qed.

(** The first substitution removes a leading timestamp with the digits,
    dots and commas that follow it, whatever the timestamp. *)
Lemma delete_timestamp ts (r : list ascii) :
  is_timestamp ts ->
  delete_from false timestamp_prefix None (list_ascii_of_string ts ++ r) 0 =
  delete_from false timestamp_prefix None (lstrip_list (mem tail_set) r) 0.
Proof.
  intros Hts.
  destruct (timestamp_prefix_match ts r None Hts) as (m & Hm & Hlen & Hts19).
  destruct (lstrip_suffix (mem tail_set) r) as [pre Hpre].
  assert (length r - length (lstrip_list (mem tail_set) r) = length pre)%nat as Hk.
  { rewrite Hpre at 1. rewrite length_app. lia. }
  rewrite Hk in Hlen.
  set (stripped := lstrip_list (mem tail_set) r) in *.
  destruct (list_ascii_of_string ts) as [|c w] eqn:Hc; [simpl in Hts19; lia|].
  simpl in Hts19. rewrite Hpre in Hm |- *.
  change ((c :: w) ++ pre ++ stripped) with (c :: (w ++ pre ++ stripped)) in *.
  cbn [delete_from]. rewrite Hm. cbn [fmap option_fmap option_map]. rewrite Hlen.
  change (19 + length pre)%nat with (S (18 + length pre)). cbv beta iota.
  rewrite app_assoc.
  replace (18 + length pre)%nat with (length (w ++ pre)) by (rewrite length_app; lia).
  by apply delete_from_skip.
Qed.

(** X14: two lines that differ only in their leading timestamp have the
    same normalized message, so they are counted under the same key. *)
Theorem X14_key_does_not_depend_on_the_timestamp (ts1 ts2 rest : string) :
  is_timestamp ts1 -> is_timestamp ts2 ->
  _extract_error_message (ts1 ++ rest) = _extract_error_message (ts2 ++ rest).
Proof.
  intros H1 H2. unfold _extract_error_message.
  assert (re_delete false timestamp_prefix (ts1 ++ rest)
          = re_delete false timestamp_prefix (ts2 ++ rest)) as ->; [|done].
  unfold re_delete. rewrite !list_ascii_of_string_app.
  by rewrite !delete_timestamp.
Qed.

Lemma X14_witness :
  is_timestamp "2024-01-01T00:00:00" /\ is_timestamp "2031-12-24 23:59:59" /\
  _extract_error_message ("2024-01-01T00:00:00" ++ after_timestamp) =
  _extract_error_message ("2031-12-24 23:59:59" ++ after_timestamp).
Proof.
  assert (is_timestamp "2024-01-01T00:00:00") as H1
    by (eexists; split; by vm_compute).
  assert (is_timestamp "2031-12-24 23:59:59") as H2
    by (eexists; split; by vm_compute).
  split; [exact H1|]. split; [exact H2|].
  exact (X14_key_does_not_depend_on_the_timestamp _ _ after_timestamp H1 H2).
Defined.
